(** * perpx-load-test: account seeding and per-worker transaction generation

    A shallow embedding of the Go sources

      - [pkg/seed/seed.go]            (the seed command, [seedAccounts]),
      - package [client]              ([PerpxBankClient], [GenerateTx]),
      - [pkg/client/factory.go]       ([PerpxBankClientFactory]),
      - [pkg/strategies/bank_send.go] ([BankSendStrategy]),

    together with the properties the design document states about them.

    Conventions.  Go's fixed-width integers are [Z] with the wrap-around
    written out ([Go.uint64], [Go.int64]); [string]s are byte strings;
    byte slices are [list byte].  The ledger node, the wall clock and the
    process environment are explicit inputs; everything the program does
    to the outside world is appended to a trace of [Event]s.  Library
    code the repository imports (hashing, key derivation, JSON decoding,
    transaction signing and encoding) is taken as the operations of the
    class [Library]. *)

From Stdlib Require Import ZArith String Ascii List DecimalString Lia Bool.
From Stdlib.Strings Require Import Byte.
From stdpp Require Import base gmap strings list.
Import ListNotations.

#[local] Open Scope string_scope.
#[local] Open Scope Z_scope.

(* ================================================================== *)
(** * Go runtime and standard-library primitives *)
(* ================================================================== *)

Module Go.

(** [uint64] arithmetic wraps modulo 2^64. *)
Definition uint64 (z : Z) : Z := z mod 2 ^ 64.

(** [int] and [int64] are 64-bit two's complement. *)
Definition int64 (z : Z) : Z := (z + 2 ^ 63) mod 2 ^ 64 - 2 ^ 63.

(** The conversion [byte(i)] keeps the low eight bits. *)
Definition byte_of_int (i : Z) : byte :=
  match Byte.of_N (Z.to_N (i mod 256)) with
  | Some b => b
  | None => "000"%byte
  end.

(** [fmt.Sprintf("%d", i)]. *)
Definition itoa (i : Z) : string := NilZero.string_of_int (Z.to_int i).

(** [[]byte(s)]. *)
Definition bytes_of_string (s : string) : list byte := list_byte_of_string s.

(** [len(s)] of a string, as a Go [int]. *)
Definition len (s : string) : Z := Z.of_nat (String.length s).

(** [strings.HasPrefix]. *)
Fixpoint HasPrefix (s p : string) : bool :=
  match p, s with
  | EmptyString, _ => true
  | String c p', String d s' => Ascii.eqb c d && HasPrefix s' p'
  | String _ _, EmptyString => false
  end.

(** [s[n:]] for [0 <= n <= len(s)]. *)
Fixpoint drop (n : nat) (s : string) : string :=
  match n, s with
  | O, _ => s
  | S n', String _ s' => drop n' s'
  | S _, EmptyString => EmptyString
  end.

(** [s[:n]] for [0 <= n <= len(s)]. *)
Fixpoint take (n : nat) (s : string) : string :=
  match n, s with
  | O, _ => EmptyString
  | S n', String c s' => String c (take n' s')
  | S _, EmptyString => EmptyString
  end.

(** [strings.Contains]. *)
Fixpoint Contains (s sub : string) : bool :=
  HasPrefix s sub ||
  match s with
  | EmptyString => false
  | String _ s' => Contains s' sub
  end.

(** [strings.Replace(s, old, new, 1)] for a non-empty [old]. *)
Fixpoint Replace1 (s old new : string) : string :=
  if HasPrefix s old then new ++ drop (String.length old) s
  else match s with
       | EmptyString => EmptyString
       | String c s' => String c (Replace1 s' old new)
       end.

(** [strings.Replace(s, old, new, -1)] for a non-empty [old]; [skip]
    counts the bytes of the occurrence being replaced that are still to
    be passed over. *)
Fixpoint ReplaceAll_from (skip : nat) (s old new : string) : string :=
  match s with
  | EmptyString => EmptyString
  | String c s' =>
      match skip with
      | S k => ReplaceAll_from k s' old new
      | O =>
          if HasPrefix s old
          then new ++ ReplaceAll_from (String.length old - 1) s' old new
          else String c (ReplaceAll_from 0 s' old new)
      end
  end.

Definition ReplaceAll (s old new : string) : string :=
  ReplaceAll_from 0 s old new.

(** [strings.TrimPrefix]. *)
Definition TrimPrefix (s p : string) : string :=
  if HasPrefix s p then drop (String.length p) s else s.

(** [strings.HasSuffix] and [strings.TrimSuffix]. *)
Definition HasSuffix (s suf : string) : bool :=
  (String.length suf <=? String.length s)%nat &&
  String.eqb (drop (String.length s - String.length suf) s) suf.

Definition TrimSuffix (s suf : string) : string :=
  if HasSuffix s suf then take (String.length s - String.length suf) s else s.

(** Decimal digits, for [strconv.ParseUint(s, 10, 64)]: a non-empty run of
    ['0'..'9'] and nothing else, whose value fits 64 bits. *)
Definition digit (c : ascii) : option Z :=
  let n := Z.of_N (N_of_ascii c) in
  if (48 <=? n) && (n <=? 57) then Some (n - 48) else None.

Fixpoint digits (s : string) (acc : Z) : option Z :=
  match s with
  | EmptyString => Some acc
  | String c s' =>
      match digit c with
      | Some d => digits s' (acc * 10 + d)
      | None => None
      end
  end.

Definition ParseUint (s : string) : option Z :=
  match s with
  | EmptyString => None
  | _ =>
      match digits s 0 with
      | Some v => if v <? 2 ^ 64 then Some v else None
      | None => None
      end
  end.

(** [s[i:j]] on a slice: Go panics unless [0 <= i <= j <= cap(s)]; the
    callers below only slice up to the length. *)
Definition slice {A} (l : list A) (i j : Z) : option (list A) :=
  if (0 <=? i) && (i <=? j) && (j <=? Z.of_nat (length l))
  then Some (firstn (Z.to_nat (j - i)) (skipn (Z.to_nat i) l))
  else None.

(** Integer division truncates toward zero and panics on a zero divisor. *)
Definition div (a b : Z) : option Z :=
  if b =? 0 then None else Some (int64 (Z.quot a b)).

End Go.

(* ================================================================== *)
(** * Results of running Go code *)
(* ================================================================== *)

(** [sdk.Coins]: a set of coins with pairwise distinct denominations and
    positive amounts, kept sorted by denomination.  Only the amount per
    denomination is ever read, so it is the finite map from denomination
    to amount; an absent denomination has amount zero. *)
Abbreviation Coins := (gmap string Z).

(** An argument of a [fmt] verb.  An [error] given to [%w] or [%v] is
    opaque. *)
Inductive Arg : Type :=
| AInt (z : Z)
| AStr (s : string)
| ACoins (c : Coins)
| AErr.

(** A Go [error] built by [fmt.Errorf]: the format string of the source
    and its arguments. *)
Record error : Type := Errorf { err_format : string; err_args : list Arg }.

(** How a piece of Go code ends: it returns normally, returns a non-nil
    [error], panics, or is still running when the fuel of a loop is used
    up. *)
Inductive Outcome (A : Type) : Type :=
| Ok (a : A)
| Fail (e : error)
| Panic (what : string)
| OutOfFuel.

Arguments Ok {A} a.
Arguments Fail {A} e.
Arguments Panic {A} what.
Arguments OutOfFuel {A}.

Definition is_Ok {A} (o : Outcome A) : bool :=
  match o with Ok _ => true | _ => false end.

(** Sequencing of code that has no effect but its outcome. *)
Definition obind {A B} (o : Outcome A) (k : A -> Outcome B) : Outcome B :=
  match o with
  | Ok a => k a
  | Fail e => Fail e
  | Panic p => Panic p
  | OutOfFuel => OutOfFuel
  end.

(** A library call that returns [(v, err)]: [None] is the non-nil error,
    returned as [fmt.Errorf(fmt, args...)]. *)
Definition orFail {A} (o : option A) (fmt : string) (args : list Arg)
  : Outcome A :=
  match o with
  | Some a => Ok a
  | None => Fail (Errorf fmt args)
  end.

(** A runtime check that panics: [None] is the panic. *)
Definition orPanic {A} (o : option A) (what : string) : Outcome A :=
  match o with
  | Some a => Ok a
  | None => Panic what
  end.

(** Code that reads and updates a state of type [S]; the state survives an
    error or a panic, so that what was done before it stays observable. *)
Definition M (S A : Type) : Type := S -> Outcome A * S.

Definition ret {S A} (a : A) : M S A := fun s => (Ok a, s).

Definition bind {S A B} (m : M S A) (k : A -> M S B) : M S B :=
  fun s =>
    match m s with
    | (Ok a, s') => k a s'
    | (Fail e, s') => (Fail e, s')
    | (Panic p, s') => (Panic p, s')
    | (OutOfFuel, s') => (OutOfFuel, s')
    end.

(** Code without effect, run in a state it leaves alone. *)
Definition pure {S A} (o : Outcome A) : M S A := fun s => (o, s).

Definition fail {S A} (fmt : string) (args : list Arg) : M S A :=
  pure (Fail (Errorf fmt args)).

Definition panic {S A} (what : string) : M S A := pure (Panic what).

Definition out_of_fuel {S A} : M S A := pure OutOfFuel.

Definition try {S A} (o : option A) (fmt : string) (args : list Arg) : M S A :=
  pure (orFail o fmt args).

Definition must {S A} (o : option A) (what : string) : M S A :=
  pure (orPanic o what).

(** [if err != nil { return fmt.Errorf("...: %w", err) }] around a call. *)
Definition wrapErr {S A} (m : M S A) (fmt : string) : M S A :=
  fun s =>
    match m s with
    | (Fail _, s') => (Fail (Errorf fmt [AErr]), s')
    | r => r
    end.

Definition get {S} : M S S := fun s => (Ok s, s).
Definition modify {S} (f : S -> S) : M S unit := fun s => (Ok tt, f s).

Declare Scope go_scope.
Delimit Scope go_scope with go.
Notation "x <- m ;; k" := (bind m (fun x => k))
  (at level 100, m at next level, right associativity) : go_scope.
Notation "m ;;; k" := (bind m (fun _ => k))
  (at level 100, right associativity) : go_scope.
Notation "x <~ o ;; k" := (obind o (fun x => k))
  (at level 100, o at next level, right associativity) : go_scope.
#[local] Open Scope go_scope.

(** [for _, x := range l { body }] with an accumulator. *)
Fixpoint foldM {S A B} (body : B -> A -> M S B) (l : list A) (b : B) : M S B :=
  match l with
  | [] => ret b
  | x :: l' => b' <- body b x ;; foldM body l' b'
  end.

Fixpoint ofoldM {A B} (body : B -> A -> Outcome B) (l : list A) (b : B)
  : Outcome B :=
  match l with
  | [] => Ok b
  | x :: l' => b' <~ body b x ;; ofoldM body l' b'
  end.

(* ================================================================== *)
(** * The Cosmos SDK's integers and coins *)
(* ================================================================== *)

Module sdk.

(** [math.Int] holds at most 256 bits; its arithmetic panics beyond. *)
Definition MaxBitLen : Z := 256.

Definition fits (z : Z) : bool := Z.abs z <? 2 ^ MaxBitLen.

Definition Int_checked (z : Z) : Outcome Z :=
  if fits z then Ok z else Panic "Int overflow".

Definition Mul (a b : Z) : Outcome Z := Int_checked (a * b).
Definition Add (a b : Z) : Outcome Z := Int_checked (a + b).

Record Coin : Type := { Denom : string; Amount : Z }.

Section WithDenoms.

(** [sdk.ValidateDenom], the SDK's denomination syntax check. *)
Variable ValidateDenom : string -> bool.

(** [sdk.NewCoin] panics on an invalid denomination or a negative
    amount. *)
Definition NewCoin (denom : string) (amount : Z) : Outcome Coin :=
  if negb (ValidateDenom denom) then Panic "invalid denom"
  else if amount <? 0 then Panic "negative coin amount"
  else Ok {| Denom := denom; Amount := amount |}.

(** [sdk.NewCoins(c)] of one coin: a zero coin is dropped, and what is
    left is validated. *)
Definition NewCoins1 (c : Coin) : Outcome Coins :=
  if Amount c =? 0 then Ok ∅
  else if negb (ValidateDenom (Denom c)) then Panic "invalid coin set"
  else if Amount c <? 0 then Panic "invalid coin set"
  else Ok {[ Denom c := Amount c ]}.

(** [coins.AmountOfNoDenomValidation(denom)]. *)
Definition amount_of (coins : Coins) (denom : string) : Z :=
  default 0 (coins !! denom).

(** [coins.AmountOf(denom)] panics on an invalid denomination. *)
Definition AmountOf (coins : Coins) (denom : string) : Outcome Z :=
  if ValidateDenom denom then Ok (amount_of coins denom)
  else Panic "invalid denom".

(** [coins.Add(c)]: amounts of the same denomination are summed, and a
    denomination whose sum is zero is dropped. *)
Definition CoinsAdd (coins : Coins) (c : Coin) : Outcome Coins :=
  sum <~ Add (amount_of coins (Denom c)) (Amount c) ;;
  Ok (if sum =? 0 then delete (Denom c) coins
      else <[ Denom c := sum ]> coins).

End WithDenoms.

End sdk.

(* ================================================================== *)
(** * Transactions, and the imported libraries *)
(* ================================================================== *)

(** [banktypes.MsgSend]. *)
Module banktypes.
Record MsgSend : Type := {
  FromAddress : string;
  ToAddress : string;
  Amount : Coins
}.
End banktypes.

(** [signing.SignatureV2] carrying a [SingleSignatureData] in
    [SIGN_MODE_DIRECT]; [Signature = None] is the [nil] placeholder. *)
Module signing.
Record SignatureV2 : Type := {
  PubKey : list byte;
  Signature : option (list byte);
  Sequence : Z
}.
End signing.

(** [authsigning.SignerData]. *)
Module authsigning.
Record SignerData : Type := {
  Address : string;
  ChainID : string;
  AccountNumber : Z;
  Sequence : Z;
  PubKey : list byte
}.
End authsigning.

(** What a [client.TxBuilder] has been given so far. *)
Record TxBuilder : Type := {
  Msgs : list banktypes.MsgSend;
  FeeAmount : Coins;
  GasLimit : Z;
  Signatures : list signing.SignatureV2
}.

(** [encCfg.TxConfig.NewTxBuilder()]. *)
Definition NewTxBuilder : TxBuilder :=
  {| Msgs := []; FeeAmount := ∅; GasLimit := 0; Signatures := [] |}.

Definition withMsgs (msgs : list banktypes.MsgSend) (b : TxBuilder) : TxBuilder :=
  {| Msgs := msgs; FeeAmount := FeeAmount b; GasLimit := GasLimit b;
     Signatures := Signatures b |}.

Definition SetFeeAmount (fee : Coins) (b : TxBuilder) : TxBuilder :=
  {| Msgs := Msgs b; FeeAmount := fee; GasLimit := GasLimit b;
     Signatures := Signatures b |}.

Definition SetGasLimit (gas : Z) (b : TxBuilder) : TxBuilder :=
  {| Msgs := Msgs b; FeeAmount := FeeAmount b; GasLimit := gas;
     Signatures := Signatures b |}.

Definition withSignatures (sigs : list signing.SignatureV2) (b : TxBuilder)
  : TxBuilder :=
  {| Msgs := Msgs b; FeeAmount := FeeAmount b; GasLimit := GasLimit b;
     Signatures := sigs |}.

(** The [tx_response] object of a transaction-status reply. *)
Record TxResponse : Type := {
  Height : string;
  Code : Z;
  RawLog : string
}.

(** The packages the repository imports and whose code is not part of it.
    A function that returns [(v, err)] in Go returns an [option] here, and
    one that returns only an [error] returns whether it is [nil]. *)
Class Library : Type := {
  (** [crypto/sha256.Sum256] *)
  sha256_Sum256 : list byte -> list byte;
  (** [btcec.PrivKeyFromBytes(b)] followed by [Serialize()] *)
  btcec_PrivKeyFromBytes : list byte -> list byte;
  (** [privKey.PubKey()] of a [secp256k1.PrivKey] *)
  PrivKey_PubKey : list byte -> list byte;
  (** [pubKey.Address()] *)
  PubKey_Address : list byte -> list byte;
  (** [sdk.AccAddress.String()], the bech32 text *)
  AccAddress_String : list byte -> string;
  (** [sdk.AccAddressFromBech32] *)
  AccAddressFromBech32 : string -> option (list byte);
  (** [encoding/hex.DecodeString] *)
  hex_DecodeString : string -> option (list byte);
  (** [hd.CreateHDPath(118, 0, 0).String()] *)
  hd_path : string;
  (** [hd.Secp256k1.Derive()(mnemonic, passphrase, path)] *)
  hd_Derive : string -> string -> string -> option (list byte);
  (** [hd.Secp256k1.Generate()(bz)], as the key's bytes *)
  hd_Generate : list byte -> list byte;
  (** [sdk.ParseCoinNormalized] *)
  ParseCoinNormalized : string -> option sdk.Coin;
  (** [math.NewIntFromString] *)
  NewIntFromString : string -> option Z;
  (** [sdk.ValidateDenom] *)
  ValidateDenom : string -> bool;
  (** [json.NewDecoder(body).Decode] into the [balances] reply:
      the [(denom, amount)] pairs *)
  json_balances : string -> option (list (string * string));
  (** ... into the [account] reply: [(account_number, sequence)] *)
  json_account : string -> option (string * string);
  (** ... into the [tx_response] reply *)
  json_tx_response : string -> option TxResponse;
  (** [txBuilder.SetMsgs(msgs...)] returns [nil] *)
  SetMsgs_ok : list banktypes.MsgSend -> bool;
  (** [txBuilder.SetSignatures(sig)] returns [nil] *)
  SetSignatures_ok : signing.SignatureV2 -> bool;
  (** [tx.SignWithPrivKey(ctx, SIGN_MODE_DIRECT, signerData, txBuilder,
      priv, txConfig, accSeq)] *)
  SignWithPrivKey :
    authsigning.SignerData -> TxBuilder -> list byte -> Z ->
    option signing.SignatureV2;
  (** [encCfg.TxConfig.TxEncoder()(txBuilder.GetTx())] *)
  TxEncoder : TxBuilder -> option (list byte)
}.

(** [txBuilder.SetMsgs] and [txBuilder.SetSignatures] store what they are
    given, unless the library reports an error. *)
Definition SetMsgs `{Library} (msgs : list banktypes.MsgSend) (b : TxBuilder)
  : option TxBuilder :=
  if SetMsgs_ok msgs then Some (withMsgs msgs b) else None.

Definition SetSignatures `{Library} (sig : signing.SignatureV2) (b : TxBuilder)
  : option TxBuilder :=
  if SetSignatures_ok sig then Some (withSignatures [sig] b) else None.

(* ================================================================== *)
(** * The ledger node, the clock and the trace *)
(* ================================================================== *)

(** An [*http.Response], as far as it is read: status and body. *)
Record Response : Type := { StatusCode : Z; Body : string }.

(** What [http.Client.Get] returns: a response with a [nil] error, or a
    non-nil error, with which a response may or may not come. *)
Inductive GetResult : Type :=
| GetOk (resp : Response)
| GetErr (resp : option Response).

(** What [txClient.BroadcastTx] returns in [BROADCAST_MODE_SYNC]: an
    error, or the [TxResponse]'s code, raw log and hash. *)
Inductive BroadcastResult : Type :=
| BroadcastErr
| BroadcastResp (code : Z) (raw_log : string) (txhash : string).

(** The node and the network, as an oracle: the [n]-th interaction of a
    run is answered by the node's field at [n].  [elapsed n] is the
    wall-clock time, in milliseconds, the [n]-th interaction takes on top
    of what it must take. *)
Record Node : Type := {
  http_Get : nat -> string -> GetResult;
  grpc_Dial : nat -> string -> bool;
  grpc_BroadcastTx : nat -> list byte -> BroadcastResult;
  elapsed : nat -> N
}.

(** What the program does that can be observed from outside.  [EvSign]
    records the arguments of a call of [tx.SignWithPrivKey]. *)
Inductive Event : Type :=
| EvGet (url : string)
| EvDial (target : string)
| EvBroadcast (txBytes : list byte)
| EvSleep (ms : Z)
| EvSign (signerData : authsigning.SignerData) (tx : TxBuilder) (accSeq : Z)
| EvPrintf (fmt : string) (args : list Arg).

(** The state of a run: the number of interactions so far, the monotonic
    clock in milliseconds, and the trace, latest event first. *)
Record World : Type := {
  tick : nat;
  now : Z;
  trace : list Event
}.

Definition is_broadcast (e : Event) : bool :=
  match e with EvBroadcast _ => true | _ => false end.

(** The transactions broadcast so far, latest first. *)
Definition broadcasts (w : World) : list Event := filter is_broadcast (trace w).

Section Interactions.

Context (node : Node).

Definition interact (ev : Event) (took : Z) (w : World) : World :=
  {| tick := S (tick w);
     now := now w + took + Z.of_N (elapsed node (tick w));
     trace := ev :: trace w |}.

Definition Get (url : string) : M World GetResult :=
  fun w => (Ok (http_Get node (tick w) url), interact (EvGet url) 0 w).

Definition Dial (target : string) : M World bool :=
  fun w => (Ok (grpc_Dial node (tick w) target), interact (EvDial target) 0 w).

Definition BroadcastTx (txBytes : list byte) : M World BroadcastResult :=
  fun w => (Ok (grpc_BroadcastTx node (tick w) txBytes),
            interact (EvBroadcast txBytes) 0 w).

(** [time.Sleep(d)] pauses for at least [d]. *)
Definition Sleep (ms : Z) : M World unit :=
  fun w => (Ok tt, interact (EvSleep ms) ms w).

(** [time.Now()], on the monotonic clock. *)
Definition Now : M World Z := fun w => (Ok (now w), w).

End Interactions.

Definition emit (ev : Event) : M World unit :=
  modify (fun w => {| tick := tick w; now := now w; trace := ev :: trace w |}).

Definition Printf (fmt : string) (args : list Arg) : M World unit :=
  emit (EvPrintf fmt args).

(* ================================================================== *)
(** * pkg/seed/seed.go *)
(* ================================================================== *)

Module seed.

(** [Config] holds the seeding configuration. *)
Record Config : Type := {
  Workers : Z;
  SeedKey : string;
  SeedPrivateKey : string;
  RPC : string;
  ChainID : string;
  Denom : string;
  FundAmount : string;
  BatchSize : Z
}.

Section Seed.

Context `{Library} (node : Node).

(** The double quote, as a string. *)
Definition quote : string := String (ascii_of_nat 34) EmptyString.

(** The development mnemonic substituted for the key name [alice]. *)
Definition alice_mnemonic : string :=
  "merge panther lobster crazy road hollow amused security before critic about cliff exhibit cause coyote talent happy where lion river tobacco option coconut small".

(** Lines 176-178: the total the seed account must hold. *)
Definition totalRequired (cfg : Config) (fundCoin : sdk.Coin) : Outcome Coins :=
  totalNeeded <~ sdk.Mul (sdk.Amount fundCoin) (Go.int64 (Workers cfg)) ;;
  feeCoin <~ sdk.NewCoin ValidateDenom (Denom cfg)
                         (Go.int64 (Go.int64 (Workers cfg) * 10000)) ;;
  estimatedFees <~ sdk.NewCoins1 ValidateDenom feeCoin ;;
  fees <~ sdk.AmountOf ValidateDenom estimatedFees (Denom cfg) ;;
  total <~ sdk.Add totalNeeded fees ;;
  totalCoin <~ sdk.NewCoin ValidateDenom (Denom cfg) total ;;
  sdk.NewCoins1 ValidateDenom totalCoin.

(** Lines 186-228: the seed account's key and address, from the private
    key when one is given, from the mnemonic otherwise. *)
Definition seedIdentity (cfg : Config) : Outcome (list byte * list byte) :=
  if negb (String.eqb (SeedPrivateKey cfg) "") then
    keyBytes <~ orFail (hex_DecodeString (Go.TrimPrefix (SeedPrivateKey cfg) "0x"))
                       "failed to decode private key (must be hex-encoded): %w"
                       [AErr] ;;
    if negb (Z.of_nat (length keyBytes) =? 32) then
      Fail (Errorf "invalid private key length: expected 32 bytes, got %d"
                   [AInt (Z.of_nat (length keyBytes))])
    else
      let seedPrivKey := btcec_PrivKeyFromBytes keyBytes in
      Ok (seedPrivKey, PubKey_Address (PrivKey_PubKey seedPrivKey))
  else
    let SeedKey :=
      if String.eqb (SeedKey cfg) "alice" then alice_mnemonic else SeedKey cfg in
    if Go.Contains SeedKey " " then
      derivedPriv <~ orFail (hd_Derive SeedKey "" hd_path)
                            "failed to derive key from mnemonic: %w" [AErr] ;;
      let seedPrivKey := hd_Generate derivedPriv in
      Ok (seedPrivKey, PubKey_Address (PrivKey_PubKey seedPrivKey))
    else
      Fail (Errorf ("seed-key %q is not a mnemonic; please provide a mnemonic, use "
                    ++ quote ++ "alice" ++ quote
                    ++ ", or use --seed-private-key")%string
                   [AStr SeedKey]).

(** Lines 235-243: the REST endpoint inferred from the RPC endpoint. *)
Definition restURL_of (rpc : string) : string :=
  let restURL := Go.Replace1 rpc ":36657" ":31317" in
  if negb (Go.Contains restURL ":31317") then
    let restURL := Go.Replace1 rpc ":26657" ":1317" in
    if negb (Go.Contains restURL ":1317") then "http://localhost:31317"
    else restURL
  else restURL.

Definition balanceURL (restURL : string) (addr : list byte) : string :=
  (restURL ++ "/cosmos/bank/v1beta1/balances/" ++ AccAddress_String addr)%string.

Definition accountURL (restURL : string) (addr : list byte) : string :=
  (restURL ++ "/cosmos/auth/v1beta1/accounts/" ++ AccAddress_String addr)%string.

Definition txStatusURL (restURL txHash : string) : string :=
  (restURL ++ "/cosmos/tx/v1beta1/txs/" ++ txHash)%string.

(** Lines 270-277: the seed's balance; an amount that does not parse is an
    error. *)
Definition seedBalanceOf (balances : list (string * string)) : Outcome Coins :=
  ofoldM (fun (seedBalance : Coins) (bal : string * string) =>
            amount <~ orFail (NewIntFromString (snd bal))
                             "invalid amount: %s" [AStr (snd bal)] ;;
            coin <~ sdk.NewCoin ValidateDenom (fst bal) amount ;;
            sdk.CoinsAdd seedBalance coin)
         balances ∅.

(** Lines 248-278: query and decode the seed account's balance. *)
Definition querySeedBalance (restURL : string) (seedAddr : list byte)
  : M World Coins :=
  balanceResp <- Get node (balanceURL restURL seedAddr) ;;
  match balanceResp with
  | GetErr _ => fail "failed to query seed balance: %w" [AErr]
  | GetOk resp =>
      if negb (StatusCode resp =? 200) then
        fail "failed to query seed balance: HTTP %d: %s"
             [AInt (StatusCode resp); AStr (Body resp)]
      else
        balances <- try (json_balances (Body resp))
                        "failed to decode balance response: %w" [AErr] ;;
        seedBalance <- pure (seedBalanceOf balances) ;;
        Printf "Seed balance: %s\n" [ACoins seedBalance] ;;;
        ret seedBalance
  end.

(** Lines 281-284: the seed account must hold the total required. *)
Definition checkFunds (cfg : Config) (seedBalance totalRequired : Coins)
  : M World unit :=
  have <- pure (sdk.AmountOf ValidateDenom seedBalance (Denom cfg)) ;;
  need <- pure (sdk.AmountOf ValidateDenom totalRequired (Denom cfg)) ;;
  if have <? need then
    fail "insufficient funds: seed has %s, needs %s" [AInt have; AInt need]
  else ret tt.

(** Lines 287-321: the seed account's number and sequence, queried once. *)
Definition querySeedAccount (restURL : string) (seedAddr : list byte)
  : M World (Z * Z) :=
  accountResp <- Get node (accountURL restURL seedAddr) ;;
  match accountResp with
  | GetErr _ => fail "failed to query seed account: %w" [AErr]
  | GetOk resp =>
      if negb (StatusCode resp =? 200) then
        fail "failed to query seed account: HTTP %d: %s"
             [AInt (StatusCode resp); AStr (Body resp)]
      else
        accountData <- try (json_account (Body resp))
                           "failed to decode account response: %w" [AErr] ;;
        accountNum <- try (Go.ParseUint (fst accountData))
                          "failed to parse account number: %w" [AErr] ;;
        sequence <- try (Go.ParseUint (snd accountData))
                        "failed to parse sequence: %w" [AErr] ;;
        Printf "Seed account number: %d, sequence: %d\n"
               [AInt accountNum; AInt sequence] ;;;
        ret (accountNum, sequence)
  end.

(** Lines 330-337: the key and address of bench worker [i]. *)
Definition benchKey (i : Z) : list byte * list byte :=
  let seedStr :=
    ("bench worker " ++ Go.itoa i
       ++ " seed phrase for load testing account")%string in
  let seed := sha256_Sum256 (Go.bytes_of_string seedStr) in
  let adjustedSeed := sha256_Sum256 (seed ++ [Go.byte_of_int i])%list in
  let privKey := btcec_PrivKeyFromBytes adjustedSeed in
  (privKey, PubKey_Address (PrivKey_PubKey privKey)).

(** Lines 324-338: [benchKeys[i]] for [i = 0 .. Workers-1]; [make] panics
    on a negative length. *)
Definition benchKeys (workers : Z) : Outcome (list (list byte * list byte)) :=
  if workers <? 0 then Panic "makeslice: len out of range"
  else Ok (map (fun i : nat => benchKey (Z.of_nat i)) (seq 0 (Z.to_nat workers))).

(** Lines 367-373 and 590-596: a worker's balance; an amount that does not
    parse is skipped. *)
Definition balanceOf (balances : list (string * string)) : Outcome Coins :=
  ofoldM (fun (balance : Coins) (bal : string * string) =>
            match NewIntFromString (snd bal) with
            | Some amount =>
                coin <~ sdk.NewCoin ValidateDenom (fst bal) amount ;;
                sdk.CoinsAdd balance coin
            | None => Ok balance
            end)
         balances ∅.

(** Lines 343-376, the body of the loop: does the account [addr] need
    funding? *)
Definition needsFunding1 (cfg : Config) (fundCoin : sdk.Coin)
  (restURL : string) (addr : list byte) : M World bool :=
  balanceResp <- Get node (balanceURL restURL addr) ;;
  match balanceResp with
  | GetErr _ => ret true
  | GetOk resp =>
      if negb (StatusCode resp =? 200) then ret true
      else
        match json_balances (Body resp) with
        | None => ret true
        | Some balances =>
            balance <- pure (balanceOf balances) ;;
            have <- pure (sdk.AmountOf ValidateDenom balance (Denom cfg)) ;;
            ret (have <? sdk.Amount fundCoin)
        end
  end.

(** Lines 341-377: the accounts that need funding, in the order of the
    bench keys. *)
Definition needsFunding (cfg : Config) (fundCoin : sdk.Coin) (restURL : string)
  (benchKeys : list (list byte * list byte)) : M World (list (list byte)) :=
  foldM (fun (needsFunding : list (list byte)) (bk : list byte * list byte) =>
           needs <- needsFunding1 cfg fundCoin restURL (snd bk) ;;
           ret (if needs : bool then (needsFunding ++ [snd bk])%list
                else needsFunding))
        benchKeys [].

(** Lines 468-475: the gRPC target inferred from the RPC endpoint. *)
Definition grpcAddr_of (rpc : string) : string :=
  let grpcURL := Go.Replace1 rpc ":36657" ":39090" in
  let grpcURL :=
    if negb (Go.Contains grpcURL ":39090") then
      let grpcURL := Go.Replace1 rpc ":26657" ":9090" in
      if negb (Go.Contains grpcURL ":9090") then "http://localhost:39090"
      else grpcURL
    else grpcURL in
  Go.TrimPrefix grpcURL "http://".

(** [(i/cfg.BatchSize)+1], the number of the batch that starts at [i]. *)
Definition batchNumber (cfg : Config) (i : Z) : M World Z :=
  q <- must (Go.div i (BatchSize cfg)) "integer divide by zero" ;;
  ret (Go.int64 (q + 1)).

(** [(len(needsFunding)+cfg.BatchSize-1)/cfg.BatchSize]. *)
Definition totalBatches (cfg : Config) (n : Z) : M World Z :=
  must (Go.div (Go.int64 (Go.int64 (n + BatchSize cfg) - 1)) (BatchSize cfg))
       "integer divide by zero".

(** [maxWait], and the pause between two polls, in milliseconds. *)
Definition maxWait : Z := 30000.
Definition pollInterval : Z := 500.

(** Lines 510-549, one poll of the transaction's status: [true] is the
    [break] after the transaction was found in a block with code 0. *)
Definition pollOnce (cfg : Config) (restURL txHash : string) (n i : Z)
  : M World bool :=
  txStatusResp <- Get node (txStatusURL restURL txHash) ;;
  let other (resp : option Response) : M World bool :=
    match resp with
    | Some resp =>
        if StatusCode resp =? 404 then ret false
        else
          Printf "  Warning: error querying tx status: HTTP %d: %s\n"
                 [AInt (StatusCode resp); AStr (Body resp)] ;;;
          ret false
    | None => ret false
    end in
  match txStatusResp with
  | GetOk resp =>
      if StatusCode resp =? 200 then
        match json_tx_response (Body resp) with
        | Some txr =>
            if negb (String.eqb (Height txr) "")
               && negb (String.eqb (Height txr) "0") then
              if negb (Code txr =? 0) then
                fail "transaction failed in block %s: code %d, log: %s"
                     [AStr (Height txr); AInt (Code txr); AStr (RawLog txr)]
              else
                total <- totalBatches cfg n ;;
                number <- batchNumber cfg i ;;
                Printf "  Batch %d/%d: transaction included in block %s\n"
                       [AInt number; AInt total; AStr (Height txr)] ;;;
                ret true
            else ret false
        | None => ret false
        end
      else other (Some resp)
  | GetErr resp => other resp
  end.

(** Lines 509-551: poll until the transaction is included or [maxWait]
    has passed since [startTime]. *)
Fixpoint pollLoop (fuel : nat) (cfg : Config) (restURL txHash : string)
  (n i : Z) (startTime : Z) : M World bool :=
  match fuel with
  | O => out_of_fuel
  | S fuel' =>
      t <- Now ;;
      if t - startTime <? maxWait then
        included <- pollOnce cfg restURL txHash n i ;;
        if included : bool then ret true
        else
          Sleep node pollInterval ;;;
          pollLoop fuel' cfg restURL txHash n i startTime
      else ret false
  end.

(** Every pass of the loop sleeps [pollInterval], so it is left after at
    most [maxWait / pollInterval] passes. *)
Definition pollFuel : nat := 61.

(** Lines 396-403: one [MsgSend] from the seed account per address. *)
Definition fundMsgs (fundCoin : sdk.Coin) (seedAddr : list byte)
  (batch : list (list byte)) : Outcome (list banktypes.MsgSend) :=
  ofoldM (fun (msgs : list banktypes.MsgSend) (addr : list byte) =>
            amount <~ sdk.NewCoins1 ValidateDenom fundCoin ;;
            Ok (msgs ++ [{| banktypes.FromAddress := AccAddress_String seedAddr;
                            banktypes.ToAddress := AccAddress_String addr;
                            banktypes.Amount := amount |}])%list)
         batch [].

(** Lines 389-556, the body of the funding loop without its last line:
    build, sign, broadcast and confirm the batch that starts at [i]. *)
Definition fundBatch (cfg : Config) (fundCoin : sdk.Coin) (restURL : string)
  (seedPrivKey seedAddr : list byte) (accountNum : Z)
  (needsFunding : list (list byte)) (i currentSeq : Z) : M World unit :=
  let n := Z.of_nat (length needsFunding) in
  let end_ := Go.int64 (i + BatchSize cfg) in
  let end_ := if end_ >? n then n else end_ in
  batch <- must (Go.slice needsFunding i end_) "slice bounds out of range" ;;
  msgs <- pure (fundMsgs fundCoin seedAddr batch) ;;
  txBuilder <- try (SetMsgs msgs NewTxBuilder)
                   "failed to set messages: %w" [AErr] ;;
  let gasLimit := Go.uint64 (100000 * Go.uint64 (Z.of_nat (length batch))) in
  let minGasPrice := 25000000000 in
  feeAmount <- pure (sdk.Mul minGasPrice (Go.int64 gasLimit)) ;;
  feeCoin <- pure (sdk.NewCoin ValidateDenom (Denom cfg) feeAmount) ;;
  feeCoins <- pure (sdk.NewCoins1 ValidateDenom feeCoin) ;;
  let txBuilder := SetGasLimit gasLimit (SetFeeAmount feeCoins txBuilder) in
  let sigV2Empty :=
    {| signing.PubKey := PrivKey_PubKey seedPrivKey;
       signing.Signature := None;
       signing.Sequence := currentSeq |} in
  txBuilder <- try (SetSignatures sigV2Empty txBuilder)
                   "failed to set empty signature: %w" [AErr] ;;
  let signerData :=
    {| authsigning.Address := AccAddress_String seedAddr;
       authsigning.ChainID := ChainID cfg;
       authsigning.AccountNumber := accountNum;
       authsigning.Sequence := currentSeq;
       authsigning.PubKey := PrivKey_PubKey seedPrivKey |} in
  emit (EvSign signerData txBuilder currentSeq) ;;;
  sigV2 <- try (SignWithPrivKey signerData txBuilder seedPrivKey currentSeq)
               "failed to sign: %w" [AErr] ;;
  txBuilder <- try (SetSignatures sigV2 txBuilder)
                   "failed to set signature: %w" [AErr] ;;
  txBytes <- try (TxEncoder txBuilder)
                 "failed to encode transaction: %w" [AErr] ;;
  dialErr <- Dial node (grpcAddr_of (RPC cfg)) ;;
  if dialErr : bool then
    fail "failed to connect to gRPC for broadcasting: %w" [AErr]
  else
    broadcastResp <- BroadcastTx node txBytes ;;
    match broadcastResp with
    | BroadcastErr => fail "failed to broadcast transaction: %w" [AErr]
    | BroadcastResp code raw_log txHash =>
        if negb (code =? 0) then fail "transaction failed: %s" [AStr raw_log]
        else
          number <- batchNumber cfg i ;;
          total <- totalBatches cfg n ;;
          Printf "  Batch %d/%d: broadcasting %d accounts (tx hash: %s)\n"
                 [AInt number; AInt total; AInt (Z.of_nat (length batch));
                  AStr txHash] ;;;
          startTime <- Now ;;
          txIncluded <- pollLoop pollFuel cfg restURL txHash n i startTime ;;
          if negb txIncluded then
            fail "transaction %s was not included in a block within %v (transaction may have failed or been rejected)"
                 [AStr txHash; AInt maxWait]
          else ret tt
    end.

(** Lines 387-559: fund the accounts batch by batch; the seed account's
    sequence [currentSeq] is incremented after each batch. *)
Fixpoint fundLoop (fuel : nat) (cfg : Config) (fundCoin : sdk.Coin)
  (restURL : string) (seedPrivKey seedAddr : list byte) (accountNum : Z)
  (needsFunding : list (list byte)) (i currentSeq : Z) : M World unit :=
  match fuel with
  | O => out_of_fuel
  | S fuel' =>
      if i <? Z.of_nat (length needsFunding) then
        fundBatch cfg fundCoin restURL seedPrivKey seedAddr accountNum
                  needsFunding i currentSeq ;;;
        fundLoop fuel' cfg fundCoin restURL seedPrivKey seedAddr accountNum
                 needsFunding (Go.int64 (i + BatchSize cfg))
                 (Go.uint64 (currentSeq + 1))
      else ret tt
  end.

(** A pass of the loop that returns moves [i] forward by a positive batch
    size, so the loop is left after at most [len(needsFunding)] passes. *)
Definition fundFuel (needsFunding : list (list byte)) : nat :=
  S (length needsFunding).

(** Lines 564-601, the body of the verification loop: [allFunded] after
    looking at the account [addr], the [i]-th that needed funding. *)
Definition verify1 (cfg : Config) (fundCoin : sdk.Coin) (restURL : string)
  (allFunded : bool) (i : Z) (addr : list byte) : M World bool :=
  balanceResp <- Get node (balanceURL restURL addr) ;;
  let queryFailed : M World bool :=
    Printf "  Warning: failed to query balance for %s: %v\n"
           [AStr (AccAddress_String addr); AErr] ;;;
    ret false in
  match balanceResp with
  | GetErr _ => queryFailed
  | GetOk resp =>
      if negb (StatusCode resp =? 200) then queryFailed
      else
        match json_balances (Body resp) with
        | None =>
            Printf "  Warning: failed to decode balance for %s: %v\n"
                   [AStr (AccAddress_String addr); AErr] ;;;
            ret false
        | Some balances =>
            balance <- pure (balanceOf balances) ;;
            have <- pure (sdk.AmountOf ValidateDenom balance (Denom cfg)) ;;
            if have <? sdk.Amount fundCoin then
              Printf "  Warning: account %s (worker %d) has insufficient balance: %s\n"
                     [AStr (AccAddress_String addr); AInt i; AInt have] ;;;
              ret false
            else ret allFunded
        end
  end.

(** Lines 563-602: [allFunded] after the verification loop. *)
Fixpoint verifyLoop (cfg : Config) (fundCoin : sdk.Coin) (restURL : string)
  (needsFunding : list (list byte)) (i : Z) (allFunded : bool) : M World bool :=
  match needsFunding with
  | [] => ret allFunded
  | addr :: rest =>
      allFunded <- verify1 cfg fundCoin restURL allFunded i addr ;;
      verifyLoop cfg fundCoin restURL rest (i + 1) allFunded
  end.

(** Lines 168-609. *)
Definition seedAccounts (cfg : Config) : M World unit :=
  fundCoin <- try (ParseCoinNormalized (FundAmount cfg))
                  "invalid fund amount: %w" [AErr] ;;
  totalRequired <- pure (totalRequired cfg fundCoin) ;;
  Printf "Total required: %s\n" [ACoins totalRequired] ;;;
  identity <- pure (seedIdentity cfg) ;;
  let seedPrivKey := fst identity in
  let seedAddr := snd identity in
  Printf "Seed address: %s\n" [AStr (AccAddress_String seedAddr)] ;;;
  let restURL := restURL_of (RPC cfg) in
  seedBalance <- querySeedBalance restURL seedAddr ;;
  checkFunds cfg seedBalance totalRequired ;;;
  account <- querySeedAccount restURL seedAddr ;;
  let accountNum := fst account in
  let sequence := snd account in
  benchKeys <- pure (benchKeys (Workers cfg)) ;;
  needsFunding <- needsFunding cfg fundCoin restURL benchKeys ;;
  if Z.of_nat (length needsFunding) =? 0 then
    Printf "All accounts already funded!\n" []
  else
    Printf "Funding %d accounts in batches of %d...\n"
           [AInt (Z.of_nat (length needsFunding)); AInt (BatchSize cfg)] ;;;
    fundLoop (fundFuel needsFunding) cfg fundCoin restURL seedPrivKey seedAddr
             accountNum needsFunding 0 sequence ;;;
    Printf "Verifying account balances...\n" [] ;;;
    allFunded <- verifyLoop cfg fundCoin restURL needsFunding 0 true ;;
    if negb allFunded then fail "some accounts were not properly funded" []
    else ret tt.

End Seed.

Section Args.

(** The process environment ([os.Getenv], which is [""] for an unset
    variable), and [strconv.Atoi] with its error dropped: the value it
    returns. *)
Variable Getenv : string -> string.
Variable Atoi : string -> Z.

Definition defaultBatchSize : Z := 50.
Definition defaultFundAmount : string := "1000000aperpx".
Definition defaultDenom : string := "aperpx".
Definition defaultChainID : string := "localperpxprotocol".

Definition getEnv (key defaultValue : string) : string :=
  let val := Getenv key in
  if negb (String.eqb val "") then val else defaultValue.

(** The assignments [cfg.Field = v] of [parseArgs]. *)
Definition setWorkers (v : Z) (cfg : Config) : Config :=
  {| Workers := v; SeedKey := SeedKey cfg;
     SeedPrivateKey := SeedPrivateKey cfg; RPC := RPC cfg;
     ChainID := ChainID cfg; Denom := Denom cfg;
     FundAmount := FundAmount cfg; BatchSize := BatchSize cfg |}.

Definition setSeedKey (v : string) (cfg : Config) : Config :=
  {| Workers := Workers cfg; SeedKey := v;
     SeedPrivateKey := SeedPrivateKey cfg; RPC := RPC cfg;
     ChainID := ChainID cfg; Denom := Denom cfg;
     FundAmount := FundAmount cfg; BatchSize := BatchSize cfg |}.

Definition setSeedPrivateKey (v : string) (cfg : Config) : Config :=
  {| Workers := Workers cfg; SeedKey := SeedKey cfg;
     SeedPrivateKey := v; RPC := RPC cfg;
     ChainID := ChainID cfg; Denom := Denom cfg;
     FundAmount := FundAmount cfg; BatchSize := BatchSize cfg |}.

Definition setRPC (v : string) (cfg : Config) : Config :=
  {| Workers := Workers cfg; SeedKey := SeedKey cfg;
     SeedPrivateKey := SeedPrivateKey cfg; RPC := v;
     ChainID := ChainID cfg; Denom := Denom cfg;
     FundAmount := FundAmount cfg; BatchSize := BatchSize cfg |}.

Definition setChainID (v : string) (cfg : Config) : Config :=
  {| Workers := Workers cfg; SeedKey := SeedKey cfg;
     SeedPrivateKey := SeedPrivateKey cfg; RPC := RPC cfg;
     ChainID := v; Denom := Denom cfg;
     FundAmount := FundAmount cfg; BatchSize := BatchSize cfg |}.

Definition setDenom (v : string) (cfg : Config) : Config :=
  {| Workers := Workers cfg; SeedKey := SeedKey cfg;
     SeedPrivateKey := SeedPrivateKey cfg; RPC := RPC cfg;
     ChainID := ChainID cfg; Denom := v;
     FundAmount := FundAmount cfg; BatchSize := BatchSize cfg |}.

Definition setFundAmount (v : string) (cfg : Config) : Config :=
  {| Workers := Workers cfg; SeedKey := SeedKey cfg;
     SeedPrivateKey := SeedPrivateKey cfg; RPC := RPC cfg;
     ChainID := ChainID cfg; Denom := Denom cfg;
     FundAmount := v; BatchSize := BatchSize cfg |}.

Definition setBatchSize (v : Z) (cfg : Config) : Config :=
  {| Workers := Workers cfg; SeedKey := SeedKey cfg;
     SeedPrivateKey := SeedPrivateKey cfg; RPC := RPC cfg;
     ChainID := ChainID cfg; Denom := Denom cfg;
     FundAmount := FundAmount cfg; BatchSize := v |}.

(** How [parseArgs] ends: it returns the configuration, or, on a help
    option, prints the help text and leaves the process in
    [os.Exit(0)]. *)
Inductive Parsed : Type :=
| Returns (cfg : Config)
| HelpExit.

(** [case a, b:] of the [switch] on [args[i]]. *)
Definition case (arg : string) (names : list string) : bool :=
  existsb (String.eqb arg) names.

(** Lines 87-133, the loop of [parseArgs] from [args[i]] on: an option
    that takes a value consumes the next argument, if there is one. *)
Fixpoint parseLoop (args : list string) (cfg : Config) : Parsed :=
  match args with
  | [] => Returns cfg
  | arg :: rest =>
      let withValue (set : string -> Config -> Config) : Parsed :=
        match rest with
        | v :: rest' => parseLoop rest' (set v cfg)
        | [] => Returns cfg
        end in
      if case arg ["--workers"; "-w"] then
        withValue (fun v => setWorkers (Atoi v))
      else if case arg ["--seed-key"; "-k"] then withValue setSeedKey
      else if case arg ["--seed-private-key"; "--private-key"; "-p"] then
        withValue setSeedPrivateKey
      else if case arg ["--rpc"; "-r"] then withValue setRPC
      else if case arg ["--chain-id"] then withValue setChainID
      else if case arg ["--denom"] then withValue setDenom
      else if case arg ["--fund-amount"] then withValue setFundAmount
      else if case arg ["--batch-size"] then
        withValue (fun v => setBatchSize (Atoi v))
      else if case arg ["--help"; "-h"] then HelpExit
      else parseLoop rest cfg
  end.

(** Lines 75-136. *)
Definition parseArgs (args : list string) : Parsed :=
  parseLoop args
    {| Workers := 10;
       SeedKey := getEnv "LOADTEST_SEED_KEY" "alice";
       SeedPrivateKey := getEnv "LOADTEST_SEED_PRIVATE_KEY" "";
       RPC := getEnv "LOADTEST_RPC" "http://localhost:36657";
       ChainID := getEnv "LOADTEST_CHAIN_ID" defaultChainID;
       Denom := getEnv "LOADTEST_DENOM" defaultDenom;
       FundAmount := getEnv "LOADTEST_FUND_AMOUNT" defaultFundAmount;
       BatchSize := defaultBatchSize |}.

End Args.
End seed.

(* ================================================================== *)
(** * pkg/strategies/bank_send.go *)
(* ================================================================== *)

Module strategies.

(** [BankSendStrategy] handles creation of bank send messages. *)
Record BankSendStrategy : Type := {
  chainID : string;
  denom : string;
  sinkAddr : string
}.

Section Strategies.

Context `{Library}.

Definition NewBankSendStrategy (chainID denom sinkAddr : string)
  : Outcome BankSendStrategy :=
  if String.eqb chainID "" then Fail (Errorf "chain ID cannot be empty" [])
  else if String.eqb denom "" then Fail (Errorf "denom cannot be empty" [])
  else if String.eqb sinkAddr "" then
    Fail (Errorf "sink address cannot be empty" [])
  else
    _ <~ orFail (AccAddressFromBech32 sinkAddr)
                "invalid sink address: %w" [AErr] ;;
    Ok {| chainID := chainID; denom := denom; sinkAddr := sinkAddr |}.

(** [CreateMsg] creates a bank send message of one base unit from the
    given address to the sink. *)
Definition CreateMsg (s : BankSendStrategy) (fromAddr : string)
  : Outcome banktypes.MsgSend :=
  _ <~ orFail (AccAddressFromBech32 fromAddr)
              "invalid from address: %w" [AErr] ;;
  coin <~ sdk.NewCoin ValidateDenom (denom s) 1 ;;
  amount <~ sdk.NewCoins1 ValidateDenom coin ;;
  Ok {| banktypes.FromAddress := fromAddr;
        banktypes.ToAddress := sinkAddr s;
        banktypes.Amount := amount |}.

End Strategies.
End strategies.

(* ================================================================== *)
(** * The load-test framework's configuration *)
(* ================================================================== *)

Module loadtest.

(** The fields of [loadtest.Config] the client package reads. *)
Record Config : Type := {
  Connections : Z;
  Time : Z;
  Count : Z;
  Endpoints : list string
}.

(** [s[:n]] on a string: Go panics unless [0 <= n <= len(s)]. *)
Definition upto (s : string) (n : Z) : Outcome string :=
  if (0 <=? n) && (n <=? Go.len s) then Ok (Go.take (Z.to_nat n) s)
  else Panic "slice bounds out of range".

(** [trimForTable] of the standalone terminal UI cuts [s] to [max] bytes
    for a table cell. *)
Definition trimForTable (s : string) (max : Z) : Outcome string :=
  if Go.len s <=? max then Ok s
  else if max <=? 3 then upto s max
  else
    head <~ upto s (Go.int64 (max - 3)) ;;
    Ok (head ++ "...")%string.

End loadtest.

(* ================================================================== *)
(** * package client: PerpxBankClient and its factory *)
(* ================================================================== *)

Module client.

(** [PerpxBankClient].  [accountQueryMtx] has no field here: a call of
    [ensureAccountQueried] holds it from its first to its last statement,
    so the call is one step. *)
Record PerpxBankClient : Type := {
  config : loadtest.Config;
  strategy : strategies.BankSendStrategy;
  privKey : list byte;
  addr : list byte;
  accountNum : Z;
  sequence : Z;
  accountQueried : bool;
  restURL : string
}.

(** The client a method is called on, and the world around it. *)
Record State : Type := { self : PerpxBankClient; world : World }.

(** Run a piece of code that only touches the world. *)
Definition inWorld {A} (m : M World A) : M State A :=
  fun st =>
    let (o, w) := m (world st) in (o, {| self := self st; world := w |}).

Definition setAccount (accountNum sequence : Z) (c : PerpxBankClient)
  : PerpxBankClient :=
  {| config := config c; strategy := strategy c; privKey := privKey c;
     addr := addr c; accountNum := accountNum; sequence := sequence;
     accountQueried := true; restURL := restURL c |}.

Definition setSequence (sequence : Z) (c : PerpxBankClient) : PerpxBankClient :=
  {| config := config c; strategy := strategy c; privKey := privKey c;
     addr := addr c; accountNum := accountNum c; sequence := sequence;
     accountQueried := accountQueried c; restURL := restURL c |}.

(** [atomic.AddUint64(&c.sequence, delta)]: adds and returns the new
    value, in one step. *)
Definition AddUint64_sequence (delta : Z) : M State Z :=
  fun st =>
    let new := Go.uint64 (sequence (self st) + delta) in
    (Ok new, {| self := setSequence new (self st); world := world st |}).

Section Client.

Context `{Library} (node : Node).

(** [convertWebSocketToHTTP] converts ws://host:port/path to
    http://host:port. *)
Definition convertWebSocketToHTTP (wsURL : string) : string :=
  let trim (httpURL : string) : string :=
    if (Go.len httpURL >? 11)
       && String.eqb (Go.drop (String.length httpURL - 11) httpURL) "/websocket"
    then Go.take (String.length httpURL - 11) httpURL
    else httpURL in
  if (Go.len wsURL >? 5) && String.eqb (Go.take 5 wsURL) "ws://" then
    trim ("http://" ++ Go.drop 5 wsURL)%string
  else if (Go.len wsURL >? 6) && String.eqb (Go.take 6 wsURL) "wss://" then
    trim ("https://" ++ Go.drop 6 wsURL)%string
  else wsURL.

(** Lines 61-68 of [NewPerpxBankClient]: the key and address of the
    worker [workerID]. *)
Definition workerKey (workerID : Z) : list byte * list byte :=
  let seedStr :=
    ("bench worker " ++ Go.itoa workerID
       ++ " seed phrase for load testing account")%string in
  let seed := sha256_Sum256 (Go.bytes_of_string seedStr) in
  let adjustedSeed := sha256_Sum256 (seed ++ [Go.byte_of_int workerID])%list in
  let privKey := btcec_PrivKeyFromBytes adjustedSeed in
  (privKey, PubKey_Address (PrivKey_PubKey privKey)).

(** [NewPerpxBankClient] creates a client for the worker [id]; the account
    is not queried yet.  [cfg.Endpoints[0]] panics when there is no
    endpoint.  (The gRPC address the source computes next is never
    used.) *)
Definition NewPerpxBankClient (cfg : loadtest.Config)
  (strategy : strategies.BankSendStrategy) (seedKey : string) (id : Z)
  : Outcome PerpxBankClient :=
  let workerID := id in
  let key := workerKey workerID in
  rpcEndpoint <~ orPanic (head (loadtest.Endpoints cfg)) "index out of range" ;;
  let rpcEndpoint :=
    if Go.len rpcEndpoint >? 0 then
      let rpcEndpoint := convertWebSocketToHTTP rpcEndpoint in
      let rpcEndpoint := Go.TrimSuffix rpcEndpoint "/websocket" in
      Go.ReplaceAll rpcEndpoint "127.0.0.1" "localhost"
    else "http://localhost:36657" in
  let restURL := Go.Replace1 rpcEndpoint ":36657" ":31317" in
  let restURL :=
    if negb (Go.Contains restURL ":31317") then
      let restURL := Go.Replace1 rpcEndpoint ":26657" ":1317" in
      if negb (Go.Contains restURL ":1317") then "http://localhost:31317"
      else restURL
    else restURL in
  Ok {| config := cfg; strategy := strategy;
        privKey := fst key; addr := snd key;
        accountNum := 0; sequence := 0;
        accountQueried := false; restURL := restURL |}.

(** Line 137: where the account of the client is queried. *)
Definition accountURL (c : PerpxBankClient) : string :=
  (restURL c ++ "/cosmos/auth/v1beta1/accounts/"
     ++ AccAddress_String (addr c))%string.

(** [ensureAccountQueried] queries the account's number and sequence if
    that was not done yet. *)
Definition ensureAccountQueried : M State unit :=
  st <- get ;;
  let c := self st in
  if accountQueried c then ret tt
  else
    let accountURL := accountURL c in
    resp <- inWorld (Get node accountURL) ;;
    match resp with
    | GetErr _ =>
        fail "failed to query account via REST API at %s (account %s may not exist - run 'seed' command first): %w"
             [AStr accountURL; AStr (AccAddress_String (addr c)); AErr]
    | GetOk resp =>
        if negb (StatusCode resp =? 200) then
          fail "failed to query account: HTTP %d: %s (account %s may not exist - run 'seed' command first)"
               [AInt (StatusCode resp); AStr (Body resp);
                AStr (AccAddress_String (addr c))]
        else
          accountResp <- try (json_account (Body resp))
                             "failed to decode account response: %w" [AErr] ;;
          accountNum <- try (Go.ParseUint (fst accountResp))
                            "failed to parse account number: %w" [AErr] ;;
          sequence <- try (Go.ParseUint (snd accountResp))
                          "failed to parse sequence: %w" [AErr] ;;
          modify (fun st => {| self := setAccount accountNum sequence (self st);
                               world := world st |})
    end.

(** [GenerateTx] generates a bank send transaction. *)
Definition GenerateTx : M State (list byte) :=
  ensureAccountQueried ;;;
  new <- AddUint64_sequence 1 ;;
  let seq := Go.uint64 (new - 1) in
  st <- get ;;
  let c := self st in
  msg <- wrapErr (pure (strategies.CreateMsg (strategy c)
                                             (AccAddress_String (addr c))))
                 "failed to create message: %w" ;;
  txBuilder <- try (SetMsgs [msg] NewTxBuilder)
                   "failed to set message: %w" [AErr] ;;
  let gasLimit := Go.uint64 200000 in
  let minGasPrice := 25000000000 in
  feeAmount <- pure (sdk.Mul minGasPrice (Go.int64 gasLimit)) ;;
  feeCoin <- pure (sdk.NewCoin ValidateDenom (strategies.denom (strategy c))
                               feeAmount) ;;
  feeCoins <- pure (sdk.NewCoins1 ValidateDenom feeCoin) ;;
  let txBuilder := SetGasLimit gasLimit (SetFeeAmount feeCoins txBuilder) in
  let sigV2Empty :=
    {| signing.PubKey := PrivKey_PubKey (privKey c);
       signing.Signature := None;
       signing.Sequence := seq |} in
  txBuilder <- try (SetSignatures sigV2Empty txBuilder)
                   "failed to set empty signature: %w" [AErr] ;;
  let signerData :=
    {| authsigning.Address := AccAddress_String (addr c);
       authsigning.ChainID := strategies.chainID (strategy c);
       authsigning.AccountNumber := accountNum c;
       authsigning.Sequence := seq;
       authsigning.PubKey := PrivKey_PubKey (privKey c) |} in
  inWorld (emit (EvSign signerData txBuilder seq)) ;;;
  sigV2 <- try (SignWithPrivKey signerData txBuilder (privKey c) seq)
               "failed to sign: %w" [AErr] ;;
  txBuilder <- try (SetSignatures sigV2 txBuilder)
                   "failed to set signature: %w" [AErr] ;;
  txBytes <- try (TxEncoder txBuilder)
                 "failed to encode transaction: %w" [AErr] ;;
  ret txBytes.

End Client.

(* ------------------------------------------------------------------ *)
(** ** pkg/client/factory.go *)

(** [PerpxBankClientFactory]: [workerCounter] assigns a unique,
    monotonically increasing ID to each client instance. *)
Record PerpxBankClientFactory : Type := { workerCounter : Z }.

Definition NewPerpxBankClientFactory : PerpxBankClientFactory :=
  {| workerCounter := 0 |}.

(** [atomic.AddInt64(&f.workerCounter, delta)]. *)
Definition AddInt64_workerCounter (delta : Z) : M PerpxBankClientFactory Z :=
  fun f =>
    let new := Go.int64 (workerCounter f + delta) in
    (Ok new, {| workerCounter := new |}).

Section Factory.

Context `{Library}.

(** The process environment: [os.Getenv], which is [""] for an unset
    variable. *)
Variable Getenv : string -> string.

Definition getEnv (key defaultValue : string) : string :=
  let val := Getenv key in
  if negb (String.eqb val "") then val else defaultValue.

Definition ValidateConfig (cfg : loadtest.Config) : Outcome unit :=
  if loadtest.Connections cfg <=? 0 then
    Fail (Errorf "connections must be > 0" [])
  else if (loadtest.Time cfg <=? 0) && (loadtest.Count cfg <=? 0) then
    Fail (Errorf "either time or count must be > 0" [])
  else if Z.of_nat (length (loadtest.Endpoints cfg)) =? 0 then
    Fail (Errorf "at least one endpoint must be specified" [])
  else Ok tt.

(** [NewClient] creates a new PerpX bank client. *)
Definition NewClient (cfg : loadtest.Config)
  : M PerpxBankClientFactory PerpxBankClient :=
  let chainID := getEnv "LOADTEST_CHAIN_ID" "localperpxprotocol" in
  let denom := getEnv "LOADTEST_DENOM" "aperpx" in
  let sinkAddr :=
    getEnv "LOADTEST_SINK_ADDRESS"
           "perpx1kyfmupa8z5jtxgf5f4gt285sepeg6eqnzvs25m" in
  let seedKey := getEnv "LOADTEST_SEED_KEY" "" in
  strategy <- wrapErr (pure (strategies.NewBankSendStrategy chainID denom
                                                            sinkAddr))
                      "failed to create bank send strategy: %w" ;;
  new <- AddInt64_workerCounter 1 ;;
  let workerID := Go.int64 (new - 1) in
  client <- wrapErr (pure (NewPerpxBankClient cfg strategy seedKey workerID))
                    "failed to create PerpX bank client: %w" ;;
  ret client.

End Factory.
End client.

(* ================================================================== *)
(** * A small library and a small node, to run the code on *)
(* ================================================================== *)

Module fixture.

(** The longest prefix of decimal digits of [s], and what follows it. *)
Fixpoint span_digits (s : string) : string * string :=
  match s with
  | EmptyString => (EmptyString, EmptyString)
  | String c s' =>
      match Go.digit c with
      | Some _ => let (ds, rest) := span_digits s' in (String c ds, rest)
      | None => (EmptyString, s)
      end
  end.

(** [s] up to the first [sep], and what follows that [sep]. *)
Fixpoint cut (sep : ascii) (s : string) : string * string :=
  match s with
  | EmptyString => (EmptyString, EmptyString)
  | String c s' =>
      if Ascii.eqb c sep then (EmptyString, s')
      else let (a, b) := cut sep s' in (String c a, b)
  end.

Definition number (s : string) : option Z :=
  match s with
  | EmptyString => None
  | _ => Go.digits s 0
  end.

Definition valid_denom (s : string) : bool := (3 <=? String.length s)%nat.

(** A coin is written as digits followed by its denomination. *)
Definition parse_coin (s : string) : option sdk.Coin :=
  let (ds, denom) := span_digits s in
  match number ds with
  | Some amount =>
      if valid_denom denom
      then Some {| sdk.Denom := denom; sdk.Amount := amount |}
      else None
  | None => None
  end.

(** A balances reply is empty, or one coin; an account reply is
    [number/sequence]; a transaction reply is [height/code].  The body
    [?] does not decode. *)
Definition decode_balances (body : string) : option (list (string * string)) :=
  if String.eqb body "?" then None
  else if String.eqb body "" then Some []
  else let (ds, denom) := span_digits body in Some [(denom, ds)].

Definition decode_account (body : string) : option (string * string) :=
  if String.eqb body "?" then None else Some (cut "/" body).

Definition decode_tx_response (body : string) : option TxResponse :=
  if String.eqb body "?" then None
  else
    let (height, code) := cut "/" body in
    Some {| Height := height; Code := default 1 (number code); RawLog := "" |}.

(** Keys, addresses and hashes are left as they are; a signature is the
    sequence number in decimal, and a transaction is encoded as the
    sequence number its signature carries. *)
#[local] Instance library : Library := {|
  sha256_Sum256 := fun b => b;
  btcec_PrivKeyFromBytes := fun b => b;
  PrivKey_PubKey := fun b => b;
  PubKey_Address := fun b => b;
  AccAddress_String := string_of_list_byte;
  AccAddressFromBech32 := fun s => Some (list_byte_of_string s);
  hex_DecodeString := fun s => Some (list_byte_of_string s);
  hd_path := "m/44'/118'/0'/0/0";
  hd_Derive := fun mnemonic _ _ => Some (list_byte_of_string mnemonic);
  hd_Generate := fun b => b;
  ParseCoinNormalized := parse_coin;
  NewIntFromString := number;
  ValidateDenom := valid_denom;
  json_balances := decode_balances;
  json_account := decode_account;
  json_tx_response := decode_tx_response;
  SetMsgs_ok := fun _ => true;
  SetSignatures_ok := fun _ => true;
  SignWithPrivKey := fun sd _ _ accSeq =>
    Some {| signing.PubKey := authsigning.PubKey sd;
            signing.Signature := Some (list_byte_of_string (Go.itoa accSeq));
            signing.Sequence := accSeq |};
  TxEncoder := fun b =>
    Some (list_byte_of_string
            (match Signatures b with
             | sig :: _ => Go.itoa (signing.Sequence sig)
             | [] => ""
             end))
|}.

(** A seed configuration: ten workers, batches of four. *)
Definition cfg : seed.Config := {|
  seed.Workers := 10;
  seed.SeedKey := "alice";
  seed.SeedPrivateKey := "";
  seed.RPC := "http://localhost:36657";
  seed.ChainID := "localperpxprotocol";
  seed.Denom := "aperpx";
  seed.FundAmount := "1000000aperpx";
  seed.BatchSize := 4
|}.

Definition seedAddrText : string := seed.alice_mnemonic.

(** A node on which the seed account holds [seedFunds], has account number
    7 and sequence 100; a worker's balance is [before] up to the [n]-th
    interaction and [after] from then on; every transaction is accepted
    and found in block 5 at the first poll. *)
Definition ledger (seedFunds before after : string) (n : nat) : Node := {|
  http_Get := fun t url =>
    if Go.Contains url "/balances/" then
      if Go.HasSuffix url seedAddrText
      then GetOk {| StatusCode := 200; Body := seedFunds |}
      else if (t <? n)%nat
           then GetOk {| StatusCode := 200; Body := before |}
           else GetOk {| StatusCode := 200; Body := after |}
    else if Go.Contains url "/accounts/" then
      GetOk {| StatusCode := 200; Body := "7/100" |}
    else GetOk {| StatusCode := 200; Body := "5/0" |};
  grpc_Dial := fun _ _ => false;
  grpc_BroadcastTx := fun _ _ => BroadcastResp 0 "" "HASH";
  elapsed := fun _ => 0%N
|}.

(** A node that does not know any account. *)
Definition emptyLedger : Node := {|
  http_Get := fun _ _ => GetOk {| StatusCode := 404; Body := "not found" |};
  grpc_Dial := fun _ _ => false;
  grpc_BroadcastTx := fun _ _ => BroadcastErr;
  elapsed := fun _ => 0%N
|}.

Definition start : World := {| tick := 0; now := 0; trace := [] |}.

Definition loadCfg : loadtest.Config := {|
  loadtest.Connections := 1;
  loadtest.Time := 10;
  loadtest.Count := 0;
  loadtest.Endpoints := ["ws://localhost:36657/websocket"]
|}.

(** No environment variable is set. *)
Definition noenv (key : string) : string := "".

Definition strategy : strategies.BankSendStrategy := {|
  strategies.chainID := "localperpxprotocol";
  strategies.denom := "aperpx";
  strategies.sinkAddr := "perpx1sink"
|}.

Definition fundCoin : sdk.Coin :=
  {| sdk.Denom := "aperpx"; sdk.Amount := 1000000 |}.

(** The seed key and address of [cfg], and the addresses of its ten bench
    workers. *)
Definition seedKey : list byte := list_byte_of_string seed.alice_mnemonic.

Definition workers : list (list byte) :=
  map (fun i : nat => snd (seed.benchKey (Z.of_nat i))) (seq 0 10).

End fixture.

(* ================================================================== *)
(** * Drivers: the code as its callers run it *)
(* ================================================================== *)

(** The events of [w'] that are not yet in [w], latest first. *)
Definition since (w w' : World) : list Event :=
  firstn (length (trace w') - length (trace w)) (trace w').

(** The arguments of the calls of [tx.SignWithPrivKey] among [evs]. *)
Definition sign_of (e : Event) : option (authsigning.SignerData * TxBuilder * Z) :=
  match e with
  | EvSign sd tx accSeq => Some (sd, tx, accSeq)
  | _ => None
  end.

Definition signs (evs : list Event) : list (authsigning.SignerData * TxBuilder * Z) :=
  omap sign_of evs.

Module driver.
Section Driver.

Context `{Library} (node : Node).

(** The load engine calls [GenerateTx] on one client [n] times in a row;
    for each call, its outcome and the events of that call. *)
Fixpoint generate (n : nat) (st : client.State)
  : list (Outcome (list byte) * list Event) * client.State :=
  match n with
  | O => ([], st)
  | S n' =>
      let (o, st1) := client.GenerateTx node st in
      let (rest, st2) := generate n' st1 in
      ((o, since (client.world st) (client.world st1)) :: rest, st2)
  end.

(** The load engine calls [NewClient] on one factory once per request,
    each with the environment and configuration of that time; a panic
    ends the process. *)
Fixpoint NewClients (reqs : list ((string -> string) * loadtest.Config))
  (f : client.PerpxBankClientFactory)
  : list (Outcome client.PerpxBankClient) * client.PerpxBankClientFactory :=
  match reqs with
  | [] => ([], f)
  | (Getenv, cfg) :: rest =>
      let (o, f1) := client.NewClient Getenv cfg f in
      match o with
      | Panic _ => ([o], f1)
      | _ => let (os, f2) := NewClients rest f1 in (o :: os, f2)
      end
  end.

End Driver.
End driver.

(** The value a call returned, if it returned one. *)
Definition returned {A} (o : Outcome A) : option A :=
  match o with Ok a => Some a | _ => None end.

(* ================================================================== *)
(** * Laws of the monads *)
(* ================================================================== *)

Section MonadLaws.

Context {S A B : Type}.

Lemma bind_ret (a : A) (k : A -> M S B) (s : S) : bind (ret a) k s = k a s.
Proof. reflexivity. Qed.

Lemma bind_pure_Ok (a : A) (k : A -> M S B) (s : S) :
  bind (pure (Ok a)) k s = k a s.
Proof. reflexivity. Qed.

Lemma bind_try_Some (a : A) fmt args (k : A -> M S B) (s : S) :
  bind (try (Some a) fmt args) k s = k a s.
Proof. reflexivity. Qed.

Lemma bind_must_Some (a : A) what (k : A -> M S B) (s : S) :
  bind (must (Some a) what) k s = k a s.
Proof. reflexivity. Qed.

Lemma bind_inv (m : M S A) (k : A -> M S B) (s s' : S) (o : Outcome B) :
  bind m k s = (o, s') ->
  (exists a s1, m s = (Ok a, s1) /\ k a s1 = (o, s'))
  \/ (m s = (match o with
             | Ok _ => OutOfFuel
             | Fail e => Fail e
             | Panic p => Panic p
             | OutOfFuel => OutOfFuel
             end, s') /\ is_Ok o = false).
Proof.
  unfold bind. destruct (m s) as [[a | e | p |] s1]; intros E.
  - left. eauto.
  - right. inversion E; subst. auto.
  - right. inversion E; subst. auto.
  - right. inversion E; subst. auto.
Qed.

End MonadLaws.

Lemma obind_Ok_inv {A B} (o : Outcome A) (k : A -> Outcome B) (b : B) :
  obind o k = Ok b -> exists a, o = Ok a /\ k a = Ok b.
Proof. destruct o; simpl; intros E; try discriminate. eauto. Qed.

Lemma orFail_Ok_inv {A} (o : option A) fmt args (a : A) :
  orFail o fmt args = Ok a -> o = Some a.
Proof. destruct o; simpl; intros E; congruence. Qed.

Lemma orPanic_Ok_inv {A} (o : option A) what (a : A) :
  orPanic o what = Ok a -> o = Some a.
Proof. destruct o; simpl; intros E; congruence. Qed.

(** Symbolic execution: case analysis on what the next step of the code
    in the goal depends on. *)
Ltac innermost x :=
  lazymatch x with
  | context [match ?y with _ => _ end] => innermost y
  | _ => destruct x eqn:?
  end.

Ltac case_step :=
  match goal with
  | |- context [match ?x with _ => _ end] => innermost x
  end.

(** The same, stopping in front of a call of [f]. *)
Ltac innermost_before f x :=
  lazymatch x with
  | context [match ?y with _ => _ end] => innermost_before f y
  | context [f] => fail
  | _ => destruct x eqn:?
  end.

Ltac case_step_before f :=
  match goal with
  | |- context [match ?x with _ => _ end] => innermost_before f x
  end.

Ltac unfold_monad :=
  cbv beta iota delta
      [bind ret pure fail panic out_of_fuel try must wrapErr get modify
       orFail orPanic obind].

(* ================================================================== *)
(** * Arithmetic of the fixed-width integers *)
(* ================================================================== *)

Lemma uint64_small (z : Z) : 0 <= z < 2 ^ 64 -> Go.uint64 z = z.
Proof. intros Hz. unfold Go.uint64. apply Z.mod_small. exact Hz. Qed.

Lemma uint64_range (z : Z) : 0 <= Go.uint64 z < 2 ^ 64.
Proof. unfold Go.uint64. apply Z.mod_pos_bound. lia. Qed.

Lemma uint64_add_l (a b : Z) : Go.uint64 (Go.uint64 a + b) = Go.uint64 (a + b).
Proof. unfold Go.uint64. apply Zplus_mod_idemp_l. Qed.

Lemma uint64_pred_succ (z : Z) :
  Go.uint64 (Go.uint64 (z + 1) - 1) = Go.uint64 z.
Proof.
  unfold Go.uint64. rewrite Zminus_mod_idemp_l. f_equal. lia.
Qed.

Lemma int64_small (z : Z) : - 2 ^ 63 <= z < 2 ^ 63 -> Go.int64 z = z.
Proof.
  intros Hz. unfold Go.int64. rewrite Z.mod_small; lia.
Qed.

Lemma div_None (a b : Z) : Go.div a b = None -> b = 0.
Proof.
  unfold Go.div. destruct (b =? 0) eqn:E; [| discriminate].
  intros _. apply Z.eqb_eq, E.
Qed.

Lemma ParseUint_range (s : string) (v : Z) :
  Go.ParseUint s = Some v -> Go.digits s 0 = Some v /\ v < 2 ^ 64.
Proof.
  unfold Go.ParseUint. destruct s as [| c s]; [discriminate |].
  destruct (Go.digits (String c s) 0) as [v' |]; [| discriminate].
  destruct (v' <? 2 ^ 64) eqn:E; [| discriminate].
  intros [= <-]. split; [reflexivity | lia].
Qed.

(* ================================================================== *)
(** * Account derivation *)
(* ================================================================== *)

Section Derivation.

Context `{Library}.

Lemma benchKeys_lookup (workers : Z) keys (i : Z) :
  seed.benchKeys workers = Ok keys ->
  0 <= i < workers ->
  keys !! Z.to_nat i = Some (seed.benchKey i).
Proof.
  unfold seed.benchKeys. destruct (workers <? 0) eqn:E; [discriminate |].
  intros [= <-] Hi.
  rewrite list_lookup_fmap, lookup_seq_lt by lia.
  simpl. f_equal. f_equal. lia.
Qed.

Lemma NewPerpxBankClient_key cfg strategy seedKey id c :
  client.NewPerpxBankClient cfg strategy seedKey id = Ok c ->
  (client.privKey c, client.addr c) = client.workerKey id
  /\ client.accountQueried c = false
  /\ client.sequence c = 0 /\ client.accountNum c = 0
  /\ client.strategy c = strategy.
Proof.
  unfold client.NewPerpxBankClient. intros E.
  apply obind_Ok_inv in E. destruct E as (ep & _ & E).
  injection E as <-. repeat split.
Qed.

(** C3.  The seed command and the load-test client derive a worker's
    account with the same function of the worker index alone: bench key
    [i] of the seed command is the key and address of the client created
    for worker [i], whatever the client's configuration, strategy and
    seed key are, and both are the value of one function at [i]. *)
Theorem account_derivation_agrees
  (workers : Z) (keys : list (list byte * list byte)) (i : Z)
  (cfg : loadtest.Config) (strategy : strategies.BankSendStrategy)
  (seedKey : string) (c : client.PerpxBankClient) :
  seed.benchKeys workers = Ok keys ->
  0 <= i < workers ->
  client.NewPerpxBankClient cfg strategy seedKey i = Ok c ->
  keys !! Z.to_nat i = Some (client.privKey c, client.addr c)
  /\ (client.privKey c, client.addr c) = client.workerKey i
  /\ (forall j : Z, seed.benchKey j = client.workerKey j).
Proof.
  intros Hkeys Hi Hc.
  apply NewPerpxBankClient_key in Hc. destruct Hc as (Hc & _).
  split; [| split].
  - rewrite Hc. erewrite benchKeys_lookup by eassumption. reflexivity.
  - exact Hc.
  - intros j. reflexivity.
Qed.

End Derivation.

(* ================================================================== *)
(** * The client factory *)
(* ================================================================== *)

Section FactoryFacts.

Context `{Library}.

(** What one call of [NewClient] does to the factory: an error of the
    strategy leaves the counter alone; otherwise the counter is taken and
    incremented, and the client, if one is returned, has the key of the
    worker the counter named. *)
Lemma NewBankSendStrategy_cases chainID denom sinkAddr :
  (exists s, strategies.NewBankSendStrategy chainID denom sinkAddr = Ok s)
  \/ (exists e, strategies.NewBankSendStrategy chainID denom sinkAddr = Fail e).
Proof.
  unfold strategies.NewBankSendStrategy.
  repeat match goal with
         | |- context [if ?b then _ else _] => destruct b; [right; eauto |]
         end.
  destruct (AccAddressFromBech32 _); simpl; eauto.
Qed.

Lemma NewPerpxBankClient_cases cfg strategy seedKey id :
  (exists c, client.NewPerpxBankClient cfg strategy seedKey id = Ok c)
  \/ (exists p, client.NewPerpxBankClient cfg strategy seedKey id = Panic p).
Proof.
  unfold client.NewPerpxBankClient.
  destruct (hd_error _); simpl; eauto.
Qed.

Lemma NewClient_cases Getenv cfg f o f' :
  client.NewClient Getenv cfg f = (o, f') ->
  (exists e, o = Fail e /\ f' = f)
  \/ (client.workerCounter f' = Go.int64 (client.workerCounter f + 1)
      /\ ((exists p, o = Panic p)
          \/ (exists c, o = Ok c
                /\ (client.privKey c, client.addr c)
                   = client.workerKey
                       (Go.int64 (Go.int64 (client.workerCounter f + 1) - 1))))).
Proof.
  unfold client.NewClient, bind, wrapErr, pure.
  destruct (NewBankSendStrategy_cases
              (client.getEnv Getenv "LOADTEST_CHAIN_ID" "localperpxprotocol")
              (client.getEnv Getenv "LOADTEST_DENOM" "aperpx")
              (client.getEnv Getenv "LOADTEST_SINK_ADDRESS"
                 "perpx1kyfmupa8z5jtxgf5f4gt285sepeg6eqnzvs25m"))
    as [(strategy & ->) | (e & ->)].
  - cbn [client.AddInt64_workerCounter client.workerCounter].
    match goal with
    | |- context [client.NewPerpxBankClient ?a ?b ?c ?d] =>
        destruct (NewPerpxBankClient_cases a b c d) as [(c1 & E) | (p & E)];
        rewrite E
    end; intros [= <- <-]; right; (split; [reflexivity |]).
    + right. exists c1. split; [reflexivity |].
      apply NewPerpxBankClient_key in E. apply E.
    + left. eauto.
  - intros [= <- <-]. left. eauto.
Qed.

Lemma NewClients_ids reqs :
  forall f outcomes f',
    driver.NewClients reqs f = (outcomes, f') ->
    0 <= client.workerCounter f ->
    client.workerCounter f + Z.of_nat (length reqs) < 2 ^ 63 ->
    forall (n : nat) c,
      omap returned outcomes !! n = Some c ->
      (client.privKey c, client.addr c)
      = client.workerKey (client.workerCounter f + Z.of_nat n).
Proof.
  induction reqs as [| [Getenv cfg] reqs IH]; intros f outcomes f' E H0 Hlt n c Hn.
  - injection E as <- <-. discriminate.
  - cbn [driver.NewClients] in E. cbn [length] in Hlt.
    destruct (client.NewClient Getenv cfg f) as [o f1] eqn:E1.
    apply NewClient_cases in E1.
    assert (Hw : Go.int64 (client.workerCounter f + 1)
                 = client.workerCounter f + 1)
      by (apply int64_small; lia).
    destruct E1 as [(e & -> & ->) | (Hf1 & [(p & ->) | (c1 & -> & Hk)])].
    + destruct (driver.NewClients reqs f) as [os f2] eqn:E2.
      injection E as <- <-. cbn [omap returned] in Hn.
      eapply IH in E2; [apply E2 | lia | lia | exact Hn].
    + injection E as <- <-. discriminate.
    + destruct (driver.NewClients reqs f1) as [os f2] eqn:E2.
      injection E as <- <-. cbn [omap returned] in Hn.
      rewrite Hw in Hf1, Hk.
      destruct n as [| n].
      * injection Hn as <-. rewrite Hk. f_equal.
        rewrite int64_small by lia. lia.
      * cbn in Hn. eapply IH in E2; [| lia | lia | exact Hn].
        rewrite E2, Hf1. f_equal. lia.
Qed.

End FactoryFacts.

(** C9.  The clients one factory creates get the worker IDs 0, 1, 2, ... in
    the order they are created: the [n]-th client created (counting from
    zero, and counting only calls that returned a client) has the key and
    address of worker [n].  Distinct clients therefore have distinct
    worker IDs, and distinct accounts wherever the derivation itself does
    not collide. *)
Theorem worker_ids_in_creation_order `{Library}
  (reqs : list ((string -> string) * loadtest.Config))
  (outcomes : list (Outcome client.PerpxBankClient))
  (f' : client.PerpxBankClientFactory) :
  driver.NewClients reqs client.NewPerpxBankClientFactory = (outcomes, f') ->
  Z.of_nat (length reqs) < 2 ^ 63 ->
  let created := omap returned outcomes in
  (forall (n : nat) c,
      created !! n = Some c ->
      (client.privKey c, client.addr c) = client.workerKey (Z.of_nat n))
  /\ ((forall i j : nat,
          (i < length created)%nat -> (j < length created)%nat ->
          snd (client.workerKey (Z.of_nat i))
          = snd (client.workerKey (Z.of_nat j)) ->
          i = j) ->
      NoDup (map client.addr created)).
Proof.
  intros E Hlen created.
  assert (Hids : forall (n : nat) c,
             created !! n = Some c ->
             (client.privKey c, client.addr c)
             = client.workerKey (Z.of_nat n)).
  { intros n c Hn.
    eapply NewClients_ids in E; [| simpl; lia | simpl; lia | exact Hn].
    exact E. }
  split; [exact Hids |].
  intros Hinj. apply NoDup_alt. intros i j a Hi Hj.
  rewrite list_lookup_fmap in Hi, Hj.
  destruct (created !! i) as [ci |] eqn:Ei; [| discriminate].
  destruct (created !! j) as [cj |] eqn:Ej; [| discriminate].
  injection Hi as Hi. injection Hj as Hj.
  pose proof (lookup_lt_Some _ _ _ Ei) as Li.
  pose proof (lookup_lt_Some _ _ _ Ej) as Lj.
  apply Hids in Ei. apply Hids in Ej.
  apply Hinj; [exact Li | exact Lj |].
  rewrite <- Ei, <- Ej. simpl. congruence.
Qed.

Lemma worker_ids_in_creation_order_witness :
  let reqs := [(fixture.noenv, fixture.loadCfg);
               (fixture.noenv, fixture.loadCfg);
               (fixture.noenv, fixture.loadCfg)] in
  let created :=
    omap returned
         (fst (driver.NewClients (H := fixture.library) reqs
                 client.NewPerpxBankClientFactory)) in
  length created = 3%nat
  /\ (forall (n : nat) c,
         created !! n = Some c ->
         (client.privKey c, client.addr c)
         = client.workerKey (H := fixture.library) (Z.of_nat n))
  /\ NoDup (map client.addr created).
Proof.
  intros reqs created. split; [reflexivity |].
  pose proof (worker_ids_in_creation_order (H := fixture.library) reqs
                (fst (driver.NewClients (H := fixture.library) reqs
                        client.NewPerpxBankClientFactory))
                (snd (driver.NewClients (H := fixture.library) reqs
                        client.NewPerpxBankClientFactory))
                eq_refl ltac:(simpl; lia)) as [Hids Hdistinct].
  split; [exact Hids |].
  apply Hdistinct. intros i j Hi Hj.
  change (length (omap returned
            (fst (driver.NewClients (H := fixture.library) reqs
                    client.NewPerpxBankClientFactory)))) with 3%nat in Hi, Hj.
  destruct i as [| [| [| i]]]; [| | | lia];
    (destruct j as [| [| [| j]]]; [| | | lia]);
    intros E; try reflexivity; vm_compute in E; discriminate E.
Defined.

(* ================================================================== *)
(** * The per-worker transaction generator *)
(* ================================================================== *)

Lemma since_app (w w' : World) (evs : list Event) :
  trace w' = (evs ++ trace w)%list -> since w w' = evs.
Proof.
  intros E. unfold since. rewrite E, length_app.
  replace (length evs + length (trace w) - length (trace w))%nat
    with (length evs) by lia.
  apply take_app_length.
Qed.

Section Generator.

Context `{Library} (node : Node).

(** The signer data [GenerateTx] signs with when it has reserved [seq]. *)
Definition signerDataOf (c : client.PerpxBankClient) (seq : Z)
  : authsigning.SignerData :=
  {| authsigning.Address := AccAddress_String (client.addr c);
     authsigning.ChainID := strategies.chainID (client.strategy c);
     authsigning.AccountNumber := client.accountNum c;
     authsigning.Sequence := seq;
     authsigning.PubKey := PrivKey_PubKey (client.privKey c) |}.

(** The ledger does not resolve the account: the query fails, or its
    status is not 200. *)
Definition unresolvable (r : GetResult) : Prop :=
  match r with
  | GetErr _ => True
  | GetOk resp => StatusCode resp <> 200
  end.

(** The ledger resolves the account to number [a] and sequence [s]. *)
Definition resolves (r : GetResult) (a s : Z) : Prop :=
  exists body account_number sequence,
    r = GetOk {| StatusCode := 200; Body := body |}
    /\ json_account body = Some (account_number, sequence)
    /\ Go.ParseUint account_number = Some a
    /\ Go.ParseUint sequence = Some s.

Lemma ensureAccountQueried_resolved st :
  client.accountQueried (client.self st) = true ->
  client.ensureAccountQueried node st = (Ok tt, st).
Proof.
  intros Hq. unfold client.ensureAccountQueried, bind, get.
  rewrite Hq. reflexivity.
Qed.

Lemma ensureAccountQueried_resolves st a s :
  client.accountQueried (client.self st) = false ->
  resolves (http_Get node (tick (client.world st))
              (client.accountURL (client.self st))) a s ->
  client.ensureAccountQueried node st
  = (Ok tt,
     {| client.self := client.setAccount a s (client.self st);
        client.world :=
          interact node (EvGet (client.accountURL (client.self st))) 0
                   (client.world st) |}).
Proof.
  intros Hq (body & an & sq & Hr & Hj & Ha & Hs).
  unfold client.ensureAccountQueried, bind, get. rewrite Hq.
  unfold client.inWorld, Get. rewrite Hr. cbn [StatusCode Body].
  change (negb (200 =? 200)) with false. cbn iota.
  rewrite Hj. cbn [try pure orFail fst snd]. rewrite Ha, Hs. reflexivity.
Qed.

Lemma ensureAccountQueried_unresolvable st :
  client.accountQueried (client.self st) = false ->
  unresolvable (http_Get node (tick (client.world st))
                  (client.accountURL (client.self st))) ->
  exists e,
    client.ensureAccountQueried node st
    = (Fail e,
       {| client.self := client.self st;
          client.world :=
            interact node (EvGet (client.accountURL (client.self st))) 0
                     (client.world st) |})
    /\ Go.Contains (err_format e) "run 'seed' command first" = true.
Proof.
  intros Hq Hr.
  unfold client.ensureAccountQueried, bind, get. rewrite Hq.
  unfold client.inWorld, Get.
  destruct (http_Get node _ _) as [resp | resp]; simpl in Hr.
  - apply Z.eqb_neq in Hr. rewrite Hr. cbn [negb].
    eexists. split; [reflexivity |]. vm_compute. reflexivity.
  - eexists. split; [reflexivity |]. vm_compute. reflexivity.
Qed.

(** C6.  When the ledger does not resolve a worker's account (the query
    fails, or its status is not 200), [GenerateTx] returns an error that
    tells to run the seed command first, and the client is left as it
    was: its sequence, its account number and its unresolved state. *)
Theorem unresolved_account_error (st : client.State) :
  client.accountQueried (client.self st) = false ->
  unresolvable (http_Get node (tick (client.world st))
                  (client.accountURL (client.self st))) ->
  exists e st',
    client.GenerateTx node st = (Fail e, st')
    /\ Go.Contains (err_format e) "run 'seed' command first" = true
    /\ client.self st' = client.self st
    /\ client.sequence (client.self st') = client.sequence (client.self st)
    /\ client.accountNum (client.self st') = client.accountNum (client.self st)
    /\ signs (since (client.world st) (client.world st')) = [].
Proof.
  intros Hq Hr.
  destruct (ensureAccountQueried_unresolvable st Hq Hr) as (e & He & Hadvice).
  exists e. eexists. unfold client.GenerateTx, bind. rewrite He.
  split; [reflexivity |]. split; [exact Hadvice |].
  cbn [client.self client.world]. repeat split.
  erewrite since_app with (evs := [EvGet _]); reflexivity.
Qed.

(** One call of [GenerateTx] on a client whose account is resolved: the
    sequence counter goes up by one whatever the outcome, nothing else of
    the client changes, the ledger is not contacted, and the only event
    is the signing, with the sequence the counter had. *)
Lemma GenerateTx_resolved st o st' :
  client.accountQueried (client.self st) = true ->
  client.GenerateTx node st = (o, st') ->
  let c := client.self st in
  let seq := Go.uint64 (client.sequence c) in
  client.self st' = client.setSequence (Go.uint64 (client.sequence c + 1)) c
  /\ tick (client.world st') = tick (client.world st)
  /\ (trace (client.world st') = trace (client.world st)
      \/ exists tx,
          trace (client.world st')
          = EvSign (signerDataOf c seq) tx seq :: trace (client.world st))
  /\ (forall txBytes, o = Ok txBytes ->
      exists tx sig,
        trace (client.world st')
        = EvSign (signerDataOf c seq) tx seq :: trace (client.world st)
        /\ SignWithPrivKey (signerDataOf c seq) tx (client.privKey c) seq
           = Some sig
        /\ TxEncoder (withSignatures [sig] tx) = Some txBytes).
Proof.
  intros Hq. unfold client.GenerateTx. unfold bind at 1.
  rewrite (ensureAccountQueried_resolved st Hq).
  unfold bind at 1. cbn [client.AddUint64_sequence].
  rewrite uint64_pred_succ.
  unfold bind at 1. unfold get at 1.
  cbn [client.self client.world client.setSequence client.strategy client.addr
       client.privKey client.accountNum].
  fold (signerDataOf (client.self st) (Go.uint64 (client.sequence (client.self st)))).
  set (c' := client.setSequence _ _).
  set (sd := signerDataOf _ _).
  set (seq := Go.uint64 (client.sequence (client.self st))).
  unfold client.inWorld, emit, modify.
  repeat (unfold_monad; case_step);
    unfold_monad; intros E; injection E as <- <-;
    cbn [client.self client.world tick trace];
    (split; [reflexivity |]); (split; [reflexivity |]);
    (split; [first [left; reflexivity | right; eexists; reflexivity] |]);
    intros txBytes' E'; try discriminate E'.
  injection E' as <-.
  match goal with
  | Hsig : SetSignatures ?sig ?tx = Some ?tx1, Henc : TxEncoder ?tx1 = Some _
    |- _ =>
      exists tx, sig; unfold SetSignatures in Hsig;
      destruct (SetSignatures_ok sig); [| discriminate Hsig];
      injection Hsig as <-
  end.
  repeat split; assumption.
Qed.

(** The account number and the two sequence numbers of each signing
    among [evs]: the one in the signer data and the one given to
    [tx.SignWithPrivKey] as [accSeq]. *)
Definition signed_with (evs : list Event) : list (Z * Z * Z) :=
  map (fun s : authsigning.SignerData * TxBuilder * Z =>
         let '(sd, _, accSeq) := s in
         (authsigning.AccountNumber sd, authsigning.Sequence sd, accSeq))
      (signs evs).

(** The client's account is resolved, with number [a], and its sequence
    counter is at [s]. *)
Definition resolved_at (st : client.State) (a s : Z) : Prop :=
  client.accountQueried (client.self st) = true
  /\ client.accountNum (client.self st) = a
  /\ client.sequence (client.self st) = s
  /\ 0 <= s < 2 ^ 64.

(** The account resolution of the client has succeeded, or succeeds at
    the next call, with number [a] and starting sequence [s0]. *)
Definition starts_at (st : client.State) (a s0 : Z) : Prop :=
  resolved_at st a s0
  \/ (client.accountQueried (client.self st) = false
      /\ resolves (http_Get node (tick (client.world st))
                     (client.accountURL (client.self st))) a s0).

Lemma digits_ge (s : string) : forall acc v,
  Go.digits s acc = Some v -> 0 <= acc -> 0 <= v.
Proof.
  induction s as [| c s IH]; intros acc v; simpl.
  - intros [= <-]. auto.
  - unfold Go.digit at 1.
    destruct (_ && _) eqn:E; [| discriminate].
    intros Hd Hacc. eapply IH; [exact Hd |].
    apply andb_true_iff in E. destruct E as [E1 E2].
    apply Z.leb_le in E1. lia.
Qed.

Lemma ParseUint_uint64 (s : string) (v : Z) :
  Go.ParseUint s = Some v -> 0 <= v < 2 ^ 64.
Proof.
  intros E. apply ParseUint_range in E. destruct E as [E Hlt].
  apply digits_ge in E; lia.
Qed.

Lemma GenerateTx_call st a s o st' :
  starts_at st a s ->
  client.GenerateTx node st = (o, st') ->
  resolved_at st' a (Go.uint64 (s + 1))
  /\ (signed_with (since (client.world st) (client.world st')) = []
      \/ signed_with (since (client.world st) (client.world st')) = [(a, s, s)])
  /\ (is_Ok o = true ->
      signed_with (since (client.world st) (client.world st')) = [(a, s, s)]).
Proof.
  assert (Hres : forall st o st' (evs0 : list Event) w0,
             resolved_at st a s ->
             trace (client.world st) = (evs0 ++ trace w0)%list ->
             signed_with evs0 = [] ->
             client.GenerateTx node st = (o, st') ->
             resolved_at st' a (Go.uint64 (s + 1))
             /\ (signed_with (since w0 (client.world st')) = []
                 \/ signed_with (since w0 (client.world st')) = [(a, s, s)])
             /\ (is_Ok o = true ->
                 signed_with (since w0 (client.world st')) = [(a, s, s)])).
  { clear st o st'. intros st o st' evs0 w0 (Hq & Ha & Hs & Hrange) Ht Hevs0 E.
    apply GenerateTx_resolved in E; [| exact Hq].
    cbv zeta in E. rewrite Hs in E. rewrite (uint64_small s Hrange) in E.
    destruct E as (Hself & _ & Htrace & Hok).
    split.
    - unfold resolved_at. rewrite Hself.
      cbn [client.self client.setSequence client.accountQueried
           client.accountNum client.sequence].
      repeat split; try assumption; apply uint64_range.
    - assert (Hsigned : forall tx,
                 trace (client.world st')
                 = EvSign (signerDataOf (client.self st) s) tx s
                     :: trace (client.world st) ->
                 signed_with (since w0 (client.world st')) = [(a, s, s)]).
      { intros tx Etr.
        rewrite (since_app w0 (client.world st')
                   (EvSign (signerDataOf (client.self st) s) tx s :: evs0))
          by (rewrite Etr, Ht; reflexivity).
        unfold signed_with in *. apply map_eq_nil in Hevs0.
        change (signs (EvSign (signerDataOf (client.self st) s) tx s :: evs0))
          with ((signerDataOf (client.self st) s, tx, s) :: signs evs0).
        rewrite Hevs0. cbn. rewrite Ha. reflexivity. }
      split.
      + destruct Htrace as [Etr | (tx & Etr)].
        * left. rewrite (since_app w0 (client.world st') evs0)
            by (rewrite Etr, Ht; reflexivity).
          exact Hevs0.
        * right. eapply Hsigned, Etr.
      + intros Hisok. destruct o as [txBytes | | |]; try discriminate Hisok.
        destruct (Hok txBytes eq_refl) as (tx & sig & Etr & _).
        eapply Hsigned, Etr. }
  intros [Hr | (Hq & Hr)] E.
  - eapply (Hres st o st' [] (client.world st)); eauto.
  - pose proof (ensureAccountQueried_resolves st a s Hq Hr) as He.
    set (st1 := {| client.self := client.setAccount a s (client.self st);
                   client.world :=
                     interact node (EvGet (client.accountURL (client.self st)))
                              0 (client.world st) |}) in *.
    assert (E1 : client.GenerateTx node st1 = (o, st')).
    { rewrite <- E. unfold client.GenerateTx, bind.
      rewrite He. rewrite (ensureAccountQueried_resolved st1 eq_refl).
      reflexivity. }
    eapply (Hres st1 o st' [EvGet _] (client.world st)); eauto.
    destruct Hr as (body & an & sq & _ & _ & _ & Hs).
    apply ParseUint_uint64 in Hs.
    repeat split; auto; lia.
Qed.

Lemma starts_at_range st a s : starts_at st a s -> 0 <= s < 2 ^ 64.
Proof.
  intros [(_ & _ & _ & Hr) | (_ & body & an & sq & _ & _ & _ & Hs)].
  - exact Hr.
  - eapply ParseUint_uint64, Hs.
Qed.

Lemma generate_length n : forall st,
  length (fst (driver.generate node n st)) = n.
Proof.
  induction n as [| n IH]; intros st; [reflexivity |].
  cbn [driver.generate].
  destruct (client.GenerateTx node st) as [o st1].
  specialize (IH st1). destruct (driver.generate node n st1) as [rest st2].
  simpl in *. congruence.
Qed.

Lemma generate_calls (a : Z) (n : nat) :
  forall st s calls st',
    starts_at st a s ->
    driver.generate node n st = (calls, st') ->
    (forall (k : nat) o evs,
        calls !! k = Some (o, evs) ->
        let sk := Go.uint64 (s + Z.of_nat k) in
        (signed_with evs = [] \/ signed_with evs = [(a, sk, sk)])
        /\ (is_Ok o = true -> signed_with evs = [(a, sk, sk)]))
    /\ ((0 < n)%nat -> resolved_at st' a (Go.uint64 (s + Z.of_nat n))).
Proof.
  induction n as [| n IH]; intros st s calls st' Hst E.
  - injection E as <- <-. split; [intros k o evs Hk; discriminate Hk | lia].
  - cbn [driver.generate] in E.
    destruct (client.GenerateTx node st) as [o st1] eqn:E1.
    destruct (driver.generate node n st1) as [rest st2] eqn:E2.
    injection E as <- <-.
    pose proof (starts_at_range st a s Hst) as Hs.
    destruct (GenerateTx_call st a s o st1 Hst E1) as (Hst1 & Hsig & Hok).
    destruct (IH st1 (Go.uint64 (s + 1)) rest st2 (or_introl Hst1) E2)
      as (IHcalls & IHend).
    split.
    + intros [| k] o' evs Hk; cbn in Hk.
      * injection Hk as <- <-. cbv zeta.
        replace (s + Z.of_nat 0) with s by lia.
        rewrite (uint64_small s Hs). auto.
      * specialize (IHcalls k o' evs Hk). cbv zeta in IHcalls |- *.
        rewrite uint64_add_l in IHcalls.
        replace (s + Z.of_nat (S k)) with (s + 1 + Z.of_nat k) by lia.
        exact IHcalls.
    + intros _. destruct n as [| n].
      * injection E2 as <- <-.
        replace (s + Z.of_nat 1) with (s + 1) by lia. exact Hst1.
      * specialize (IHend ltac:(lia)). rewrite uint64_add_l in IHend.
        replace (s + Z.of_nat (S (S n))) with (s + 1 + Z.of_nat (S n)) by lia.
        exact IHend.
Qed.

Lemma flat_map_singletons {A B} (f : A -> list B) (g : nat -> B) (l : list A) :
  forall start : nat,
    (forall (k : nat) x, l !! k = Some x -> f x = [g (start + k)%nat]) ->
    flat_map f l = map g (seq start (length l)).
Proof.
  induction l as [| x l IH]; intros start Hf; [reflexivity |].
  cbn [flat_map length seq map].
  rewrite (Hf 0%nat x eq_refl). rewrite Nat.add_0_r. cbn [app]. f_equal.
  apply IH. intros k y Hk. rewrite (Hf (S k) y Hk). f_equal. f_equal. lia.
Qed.

(** C1.  On a generator whose account resolution succeeded (or succeeds at
    the first call) with account number [a] and starting sequence [s0],
    the [k]-th call of [GenerateTx] (counting from zero) signs with the
    sequence number [s0 + k] in 64-bit arithmetic, that is, one more than
    the call before it, and signs at most once; a successful call signs
    exactly once.  The local counter is at [s0 + n] after [n] calls.  So
    when [n] calls in a row all succeed and the counter does not pass
    2^64, the sequence numbers signed with are exactly
    [s0, s0+1, ..., s0+n-1], without a duplicate. *)
Theorem generated_sequences_are_consecutive
  (st : client.State) (a s0 : Z) (n : nat)
  (calls : list (Outcome (list byte) * list Event)) (st' : client.State) :
  starts_at st a s0 ->
  driver.generate node n st = (calls, st') ->
  let sequences :=
    flat_map (fun call => map snd (signed_with (snd call))) calls in
  (forall (k : nat) o evs,
      calls !! k = Some (o, evs) ->
      let sk := Go.uint64 (s0 + Z.of_nat k) in
      (signed_with evs = [] \/ signed_with evs = [(a, sk, sk)])
      /\ (is_Ok o = true -> signed_with evs = [(a, sk, sk)]))
  /\ ((0 < n)%nat ->
      client.sequence (client.self st') = Go.uint64 (s0 + Z.of_nat n)
      /\ client.accountNum (client.self st') = a)
  /\ (Forall (fun call => is_Ok (fst call) = true) calls ->
      s0 + Z.of_nat n <= 2 ^ 64 ->
      sequences = map (fun k : nat => s0 + Z.of_nat k) (seq 0 n)
      /\ NoDup sequences).
Proof.
  intros Hst E sequences.
  pose proof (starts_at_range st a s0 Hst) as Hs0.
  destruct (generate_calls a n st s0 calls st' Hst E) as (Hcalls & Hend).
  split; [exact Hcalls |]. split.
  - intros Hn. destruct (Hend Hn) as (_ & Ha & Hs & _). auto.
  - intros Hok Hwrap.
    assert (Hlen : length calls = n).
    { pose proof (generate_length n st) as L. rewrite E in L. exact L. }
    assert (Hseq : sequences = map (fun k : nat => s0 + Z.of_nat k) (seq 0 n)).
    { unfold sequences. rewrite <- Hlen.
      apply flat_map_singletons. intros k [o evs] Hk. cbn [snd].
      destruct (Hcalls k o evs Hk) as (_ & Hsigned).
      rewrite Forall_lookup in Hok. specialize (Hok k (o, evs) Hk).
      rewrite (Hsigned Hok). cbn [map snd]. f_equal.
      apply uint64_small. apply lookup_lt_Some in Hk. lia. }
    split; [exact Hseq |].
    rewrite Hseq. apply NoDup_fmap_2; [| apply NoDup_seq].
    intros i j Hij. lia.
Qed.

End Generator.

(* ================================================================== *)
(** * Code that neither signs nor broadcasts *)
(* ================================================================== *)

(** An event other than a signing and a broadcast. *)
Definition quiet_event (e : Event) : bool :=
  match e with
  | EvBroadcast _ | EvSign _ _ _ => false
  | _ => true
  end.

(** Run from [w], [m] adds only quiet events to the trace. *)
Definition quiet_at {A} (m : M World A) (w : World) : Prop :=
  exists evs,
    trace (snd (m w)) = (evs ++ trace w)%list
    /\ forallb quiet_event evs = true.

Lemma quiet_at_here {A} (m : M World A) (w : World) :
  trace (snd (m w)) = trace w -> quiet_at m w.
Proof. intros E. exists []. split; [exact E | reflexivity]. Qed.

Lemma quiet_at_event {A} (m : M World A) (w : World) (e : Event) :
  trace (snd (m w)) = e :: trace w -> quiet_event e = true -> quiet_at m w.
Proof.
  intros E He. exists [e]. split; [exact E |]. simpl. rewrite He. reflexivity.
Qed.

Lemma quiet_at_bind {A B} (m : M World A) (k : A -> M World B) (w : World) :
  quiet_at m w ->
  (forall a w1, m w = (Ok a, w1) -> quiet_at (k a) w1) ->
  quiet_at (bind m k) w.
Proof.
  intros (evs & Em & Hevs) Hk. unfold quiet_at, bind.
  destruct (m w) as [[a | e | p |] w1] eqn:E; cbn [snd] in *;
    try (exists evs; split; [exact Em | exact Hevs]).
  destruct (Hk a w1 eq_refl) as (evs' & Ek & Hevs').
  exists (evs' ++ evs)%list. split.
  - rewrite Ek, Em. apply app_assoc.
  - rewrite forallb_app, Hevs, Hevs'. reflexivity.
Qed.

Lemma quiet_at_pure {A} (o : Outcome A) (w : World) : quiet_at (pure o) w.
Proof. apply quiet_at_here. reflexivity. Qed.

Lemma quiet_at_ret {A} (a : A) (w : World) : quiet_at (ret a) w.
Proof. apply quiet_at_here. reflexivity. Qed.

Lemma quiet_at_Printf fmt args (w : World) : quiet_at (Printf fmt args) w.
Proof. eapply quiet_at_event; reflexivity. Qed.

Lemma quiet_at_Get node url (w : World) : quiet_at (Get node url) w.
Proof. eapply quiet_at_event; reflexivity. Qed.

Lemma quiet_at_silent {A} (m : M World A) (w w' : World) :
  quiet_at m w ->
  snd (m w) = w' ->
  broadcasts w' = broadcasts w /\ signs (since w w') = [].
Proof.
  intros (evs & E & Hevs) <-. rewrite (since_app _ _ _ E).
  unfold broadcasts. rewrite E, filter_app. clear E.
  induction evs as [| e evs IH]; [split; reflexivity |].
  cbn [forallb] in Hevs. apply andb_true_iff in Hevs.
  destruct Hevs as [He Hevs]. destruct (IH Hevs) as [IHb IHs].
  destruct e; try discriminate He; split; cbn; assumption.
Qed.

Lemma quiet_at_fail {A} fmt args (w : World) :
  quiet_at (fail fmt args : M World A) w.
Proof. apply quiet_at_here. reflexivity. Qed.

Lemma quiet_at_try {A} (o : option A) fmt args (w : World) :
  quiet_at (try o fmt args) w.
Proof. apply quiet_at_here. reflexivity. Qed.

Create HintDb quiet.
#[local] Hint Resolve quiet_at_pure quiet_at_ret quiet_at_Printf quiet_at_Get
  quiet_at_fail quiet_at_try : quiet.

(** Goes through code that only prints, queries and computes. *)
Ltac quiet :=
  repeat first
    [ solve [auto with quiet]
    | apply quiet_at_bind; [| intros ? ? _]
    | match goal with
      | |- quiet_at (match ?x with _ => _ end) _ => destruct x
      end ].

(* ================================================================== *)
(** * Coins *)
(* ================================================================== *)

Section CoinFacts.

Variable ValidateDenom : string -> bool.

Lemma NewCoin_Ok_inv denom amount c :
  sdk.NewCoin ValidateDenom denom amount = Ok c ->
  c = {| sdk.Denom := denom; sdk.Amount := amount |}
  /\ ValidateDenom denom = true /\ 0 <= amount.
Proof.
  unfold sdk.NewCoin.
  destruct (ValidateDenom denom); cbn [negb]; [| discriminate].
  destruct (amount <? 0) eqn:E; [discriminate |].
  intros [= <-]. repeat split. lia.
Qed.

Lemma NewCoins1_amount c coins denom :
  sdk.NewCoins1 ValidateDenom c = Ok coins ->
  sdk.amount_of coins denom
  = if String.eqb (sdk.Denom c) denom then sdk.Amount c else 0.
Proof.
  unfold sdk.NewCoins1, sdk.amount_of.
  destruct (sdk.Amount c =? 0) eqn:E0.
  - intros [= <-]. rewrite lookup_empty. apply Z.eqb_eq in E0.
    destruct (String.eqb _ _); simpl; congruence.
  - destruct (negb _); [discriminate |].
    destruct (sdk.Amount c <? 0); [discriminate |].
    intros [= <-].
    destruct (String.eqb_spec (sdk.Denom c) denom) as [-> | Hne].
    + rewrite lookup_singleton_eq. reflexivity.
    + rewrite lookup_singleton_ne by exact Hne. reflexivity.
Qed.

Lemma AmountOf_Ok_inv coins denom v :
  sdk.AmountOf ValidateDenom coins denom = Ok v ->
  ValidateDenom denom = true /\ v = sdk.amount_of coins denom.
Proof.
  unfold sdk.AmountOf. destruct (ValidateDenom denom); [| discriminate].
  intros [= <-]. auto.
Qed.

Lemma AmountOf_valid coins denom :
  ValidateDenom denom = true ->
  sdk.AmountOf ValidateDenom coins denom = Ok (sdk.amount_of coins denom).
Proof. intros Hv. unfold sdk.AmountOf. rewrite Hv. reflexivity. Qed.

Lemma Int_checked_Ok_inv z v : sdk.Int_checked z = Ok v -> v = z.
Proof.
  unfold sdk.Int_checked. destruct (sdk.fits z); [| discriminate].
  intros [= <-]. reflexivity.
Qed.

Lemma CoinsAdd_amount coins c coins' denom :
  sdk.CoinsAdd coins c = Ok coins' ->
  sdk.amount_of coins' denom
  = sdk.amount_of coins denom
    + (if String.eqb (sdk.Denom c) denom then sdk.Amount c else 0).
Proof.
  unfold sdk.CoinsAdd, sdk.Add. intros E.
  apply obind_Ok_inv in E. destruct E as (sum & Hsum & E).
  apply Int_checked_Ok_inv in Hsum. injection E as <-.
  unfold sdk.amount_of in *.
  destruct (String.eqb_spec (sdk.Denom c) denom) as [<- | Hne].
  - destruct (sum =? 0) eqn:E0.
    + rewrite lookup_delete_eq. apply Z.eqb_eq in E0. simpl. lia.
    + rewrite lookup_insert_eq. simpl. lia.
  - destruct (sum =? 0).
    + rewrite lookup_delete_ne by exact Hne. lia.
    + rewrite lookup_insert_ne by exact Hne. lia.
Qed.

End CoinFacts.

(* ================================================================== *)
(** * The funding planner: balances and classification *)
(* ================================================================== *)

Section Classification.

Context `{Library} (node : Node).

(** The balance a balances reply reports in [denom]: the sum of the
    amounts of that denomination that parse. *)
Definition reported_balance (denom : string) (balances : list (string * string))
  : Z :=
  foldr (fun (bal : string * string) (acc : Z) =>
           match NewIntFromString (snd bal) with
           | Some amount =>
               if String.eqb (fst bal) denom then amount + acc else acc
           | None => acc
           end)
        0 balances.

(** The classification as the design document words it: an account needs
    funding if its balance query fails (network error, a status other than
    200, or a body that does not decode) or if the balance it reports in
    the configured denomination is below the fund amount. *)
Definition needs_funding_spec (cfg : seed.Config) (fundCoin : sdk.Coin)
  (reply : GetResult) : bool :=
  match reply with
  | GetErr _ => true
  | GetOk resp =>
      if negb (StatusCode resp =? 200) then true
      else
        match json_balances (Body resp) with
        | None => true
        | Some balances =>
            reported_balance (seed.Denom cfg) balances <? sdk.Amount fundCoin
        end
  end.

(** The accounts among [addrs] that need funding by that wording, when
    the [k]-th of them is queried at interaction [t + k]. *)
Fixpoint classify_spec (cfg : seed.Config) (fundCoin : sdk.Coin)
  (restURL : string) (t : nat) (addrs : list (list byte)) : list (list byte) :=
  match addrs with
  | [] => []
  | addr :: rest =>
      let others := classify_spec cfg fundCoin restURL (S t) rest in
      if needs_funding_spec cfg fundCoin
           (http_Get node t (seed.balanceURL restURL addr))
      then addr :: others
      else others
  end.

Lemma balanceOf_from (balances : list (string * string)) :
  forall (acc balance : Coins) (denom : string),
    ofoldM (fun (balance : Coins) (bal : string * string) =>
              match NewIntFromString (snd bal) with
              | Some amount =>
                  coin <~ sdk.NewCoin ValidateDenom (fst bal) amount ;;
                  sdk.CoinsAdd balance coin
              | None => Ok balance
              end)
           balances acc = Ok balance ->
    sdk.amount_of balance denom
    = sdk.amount_of acc denom + reported_balance denom balances.
Proof.
  induction balances as [| bal balances IH]; intros acc balance denom E.
  - injection E as <-. simpl. lia.
  - cbn [ofoldM] in E. apply obind_Ok_inv in E.
    destruct E as (acc' & Hstep & E).
    rewrite (IH acc' balance denom E). cbn [reported_balance foldr].
    fold (reported_balance denom balances).
    destruct (NewIntFromString (snd bal)) as [amount |].
    + apply obind_Ok_inv in Hstep. destruct Hstep as (coin & Hcoin & Hadd).
      apply NewCoin_Ok_inv in Hcoin. destruct Hcoin as (-> & _ & _).
      rewrite (CoinsAdd_amount _ _ _ denom Hadd). cbn [sdk.Denom sdk.Amount].
      destruct (String.eqb (fst bal) denom); lia.
    + injection Hstep as <-. lia.
Qed.

(** What [balanceOf] computes is the reported balance. *)
Lemma balanceOf_amount balances balance denom :
  seed.balanceOf balances = Ok balance ->
  sdk.amount_of balance denom = reported_balance denom balances.
Proof.
  intros E. unfold seed.balanceOf in E.
  rewrite (balanceOf_from balances ∅ balance denom E).
  unfold sdk.amount_of. rewrite lookup_empty. simpl. lia.
Qed.

Lemma balanceOf_cases balances :
  (exists balance, seed.balanceOf balances = Ok balance)
  \/ (exists p, seed.balanceOf balances = Panic p).
Proof.
  unfold seed.balanceOf. generalize (∅ : Coins).
  induction balances as [| bal balances IH]; intros acc; [left; eauto |].
  cbn [ofoldM].
  destruct (NewIntFromString (snd bal)) as [amount |]; cbn [obind].
  - unfold sdk.NewCoin.
    destruct (negb _); [right; eauto |].
    destruct (amount <? 0); [right; eauto |]. cbn [obind].
    unfold sdk.CoinsAdd, sdk.Add, sdk.Int_checked.
    destruct (sdk.fits _); cbn [obind]; [apply IH | right; eauto].
  - apply IH.
Qed.

(** One pass of the classification loop: the account is classified as
    the design document says, unless a library call panics on the
    reply. *)
Lemma needsFunding1_spec cfg fundCoin restURL addr w o w' :
  seed.needsFunding1 node cfg fundCoin restURL addr w = (o, w') ->
  w' = interact node (EvGet (seed.balanceURL restURL addr)) 0 w
  /\ (o = Ok (needs_funding_spec cfg fundCoin
                (http_Get node (tick w) (seed.balanceURL restURL addr)))
      \/ exists p, o = Panic p).
Proof.
  unfold seed.needsFunding1, needs_funding_spec, Get.
  unfold bind at 1.
  destruct (http_Get node (tick w) _) as [resp | resp];
    [| intros [= <- <-]; auto].
  destruct (negb (StatusCode resp =? 200)); [intros [= <- <-]; auto |].
  destruct (json_balances (Body resp)) as [balances |];
    [| intros [= <- <-]; auto].
  unfold bind, pure.
  destruct (balanceOf_cases balances) as [(balance & E) | (p & E)]; rewrite E.
  - unfold sdk.AmountOf.
    destruct (ValidateDenom (seed.Denom cfg)); intros [= <- <-]; [| eauto].
    rewrite (balanceOf_amount _ _ (seed.Denom cfg) E). auto.
  - intros [= <- <-]. eauto.
Qed.

Lemma needsFunding_from cfg fundCoin restURL keys :
  forall (acc : list (list byte)) w o w',
    foldM (fun (needsFunding : list (list byte)) (bk : list byte * list byte) =>
             needs <- seed.needsFunding1 node cfg fundCoin restURL (snd bk) ;;
             ret (if needs : bool then (needsFunding ++ [snd bk])%list
                  else needsFunding))
          keys acc w = (o, w') ->
    (o = Ok (acc ++ classify_spec cfg fundCoin restURL (tick w) (map snd keys))%list
     /\ tick w' = (tick w + length keys)%nat)
    \/ exists p, o = Panic p.
Proof.
  induction keys as [| bk keys IH]; intros acc w o w' E.
  - injection E as <- <-. left. cbn. rewrite app_nil_r. auto.
  - cbn [foldM] in E. unfold bind at 1 in E. unfold bind at 1 in E.
    destruct (seed.needsFunding1 node cfg fundCoin restURL (snd bk) w)
      as [o1 w1] eqn:E1.
    apply needsFunding1_spec in E1. destruct E1 as (-> & [-> | (p & ->)]).
    + cbn [ret] in E. apply IH in E.
      destruct E as [(-> & Htick) | Hp]; [left | right; exact Hp].
      cbn [map classify_spec interact tick length] in *.
      split; [| lia].
      destruct (needs_funding_spec _ _ _); [| reflexivity].
      rewrite <- app_assoc. reflexivity.
    + injection E as <- <-. right. eauto.
Qed.

(** C10.  An account whose reported balance in the configured
    denomination equals the fund amount counts as funded: the pre-check
    does not classify it as needing funding, and the verification after
    funding prints no warning for it and leaves [allFunded] as it is; in
    both, all that happens is the balance query. *)
Theorem exact_balance_is_funded
  (cfg : seed.Config) (fundCoin : sdk.Coin) (restURL : string)
  (addr : list byte) (w : World) (body : string)
  (balances : list (string * string)) (balance : Coins) :
  http_Get node (tick w) (seed.balanceURL restURL addr)
  = GetOk {| StatusCode := 200; Body := body |} ->
  json_balances body = Some balances ->
  seed.balanceOf balances = Ok balance ->
  ValidateDenom (seed.Denom cfg) = true ->
  sdk.amount_of balance (seed.Denom cfg) = sdk.Amount fundCoin ->
  let w' := interact node (EvGet (seed.balanceURL restURL addr)) 0 w in
  seed.needsFunding1 node cfg fundCoin restURL addr w = (Ok false, w')
  /\ (forall (allFunded : bool) (i : Z),
         seed.verify1 node cfg fundCoin restURL allFunded i addr w
         = (Ok allFunded, w'))
  /\ needs_funding_spec cfg fundCoin
       (http_Get node (tick w) (seed.balanceURL restURL addr)) = false.
Proof.
  intros Hget Hjson Hbal Hdenom Heq. cbv zeta.
  assert (Hlt : (sdk.amount_of balance (seed.Denom cfg) <? sdk.Amount fundCoin)
                = false) by (apply Z.ltb_ge; lia).
  split; [| split].
  - unfold seed.needsFunding1, bind, Get, pure. rewrite Hget.
    cbn [StatusCode Body]. change (negb (200 =? 200)) with false. cbn iota.
    rewrite Hjson, Hbal, (AmountOf_valid _ _ _ Hdenom). cbn [ret].
    rewrite Hlt. reflexivity.
  - intros allFunded i.
    unfold seed.verify1, bind, Get, pure. rewrite Hget.
    cbn [StatusCode Body]. change (negb (200 =? 200)) with false. cbn iota.
    rewrite Hjson, Hbal, (AmountOf_valid _ _ _ Hdenom).
    rewrite Hlt. reflexivity.
  - unfold needs_funding_spec. rewrite Hget. cbn [StatusCode Body].
    change (negb (200 =? 200)) with false. cbn iota. rewrite Hjson.
    rewrite <- (balanceOf_amount _ _ _ Hbal). exact Hlt.
Qed.

End Classification.

(* ================================================================== *)
(** * The funding planner: the pre-flight on the seed account *)
(* ================================================================== *)

Section Preflight.

Context `{Library} (node : Node).

(** The estimated fee reserve of line 177. *)
Definition feeReserve (cfg : seed.Config) : Z :=
  Go.int64 (Go.int64 (seed.Workers cfg) * 10000).

(** The total required is the fund amount times the number of workers,
    plus the fee reserve, in the configured denomination, which is valid
    once the total has been computed. *)
Lemma totalRequired_amount cfg fundCoin required :
  seed.totalRequired cfg fundCoin = Ok required ->
  ValidateDenom (seed.Denom cfg) = true
  /\ sdk.amount_of required (seed.Denom cfg)
     = sdk.Amount fundCoin * Go.int64 (seed.Workers cfg) + feeReserve cfg.
Proof.
  unfold seed.totalRequired, sdk.Mul, sdk.Add. intros E.
  apply obind_Ok_inv in E. destruct E as (totalNeeded & Hn & E).
  apply Int_checked_Ok_inv in Hn.
  apply obind_Ok_inv in E. destruct E as (feeCoin & Hfc & E).
  apply NewCoin_Ok_inv in Hfc. destruct Hfc as (-> & Hdenom & _).
  apply obind_Ok_inv in E. destruct E as (estimatedFees & Hef & E).
  apply obind_Ok_inv in E. destruct E as (fees & Hfees & E).
  apply AmountOf_Ok_inv in Hfees. destruct Hfees as (_ & ->).
  rewrite (NewCoins1_amount _ _ _ (seed.Denom cfg) Hef) in E.
  cbn [sdk.Denom sdk.Amount] in E. rewrite String.eqb_refl in E.
  apply obind_Ok_inv in E. destruct E as (total & Ht & E).
  apply Int_checked_Ok_inv in Ht.
  apply obind_Ok_inv in E. destruct E as (totalCoin & Htc & E).
  apply NewCoin_Ok_inv in Htc. destruct Htc as (-> & _ & _).
  rewrite (NewCoins1_amount _ _ _ (seed.Denom cfg) E).
  cbn [sdk.Denom sdk.Amount]. rewrite String.eqb_refl.
  split; [exact Hdenom |]. unfold feeReserve. lia.
Qed.

(** The seed account's pre-flight has gone through up to the funds check:
    the fund amount parses to [fundCoin], the total required is
    [required], the seed key resolves to the address [seedAddr], and the
    node, asked at interaction [t], reports the balance [seedBalance]. *)
Definition seed_balance_known (cfg : seed.Config) (t : nat)
  (fundCoin : sdk.Coin) (required : Coins) (seedPrivKey seedAddr : list byte)
  (seedBalance : Coins) : Prop :=
  ParseCoinNormalized (seed.FundAmount cfg) = Some fundCoin
  /\ seed.totalRequired cfg fundCoin = Ok required
  /\ seed.seedIdentity cfg = Ok (seedPrivKey, seedAddr)
  /\ exists body balances,
      http_Get node t
        (seed.balanceURL (seed.restURL_of (seed.RPC cfg)) seedAddr)
      = GetOk {| StatusCode := 200; Body := body |}
      /\ json_balances body = Some balances
      /\ seed.seedBalanceOf balances = Ok seedBalance.

(** C4.  When the seed account's balance in the configured denomination
    is strictly below the total required, which is the fund amount times
    the number of workers plus the fee reserve, the planner returns the
    insufficient-funds error, and all it has done by then is to query the
    seed balance and print: no transaction is signed or broadcast. *)
Theorem insufficient_funds_before_any_broadcast
  (cfg : seed.Config) (w : World) (fundCoin : sdk.Coin) (required : Coins)
  (seedPrivKey seedAddr : list byte) (seedBalance : Coins) :
  seed_balance_known cfg (tick w) fundCoin required seedPrivKey seedAddr
                     seedBalance ->
  sdk.amount_of seedBalance (seed.Denom cfg)
  < sdk.amount_of required (seed.Denom cfg) ->
  let have := sdk.amount_of seedBalance (seed.Denom cfg) in
  let need := sdk.amount_of required (seed.Denom cfg) in
  let run := seed.seedAccounts node cfg w in
  fst run = Fail (Errorf "insufficient funds: seed has %s, needs %s"
                         [AInt have; AInt need])
  /\ need = sdk.Amount fundCoin * Go.int64 (seed.Workers cfg) + feeReserve cfg
  /\ broadcasts (snd run) = broadcasts w
  /\ signs (since w (snd run)) = []
  /\ since w (snd run)
     = [EvPrintf "Seed balance: %s\n" [ACoins seedBalance];
        EvGet (seed.balanceURL (seed.restURL_of (seed.RPC cfg)) seedAddr);
        EvPrintf "Seed address: %s\n" [AStr (AccAddress_String seedAddr)];
        EvPrintf "Total required: %s\n" [ACoins required]].
Proof.
  intros (Hparse & Htotal & Hid & body & balances & Hget & Hjson & Hbal) Hlt.
  cbv zeta.
  destruct (totalRequired_amount cfg fundCoin required Htotal) as (Hdenom & Hneed).
  apply Z.ltb_lt in Hlt.
  assert (E : seed.seedAccounts node cfg w
              = (Fail (Errorf "insufficient funds: seed has %s, needs %s"
                         [AInt (sdk.amount_of seedBalance (seed.Denom cfg));
                          AInt (sdk.amount_of required (seed.Denom cfg))]),
                 {| tick := S (tick w);
                    now := now w + 0 + Z.of_N (elapsed node (tick w));
                    trace :=
                      [EvPrintf "Seed balance: %s\n" [ACoins seedBalance];
                       EvGet (seed.balanceURL (seed.restURL_of (seed.RPC cfg))
                                              seedAddr);
                       EvPrintf "Seed address: %s\n"
                                [AStr (AccAddress_String seedAddr)];
                       EvPrintf "Total required: %s\n" [ACoins required]]
                      ++ trace w |})).
  { unfold seed.seedAccounts.
    unfold bind at 1. rewrite Hparse. cbn [try pure orFail].
    unfold bind at 1. rewrite Htotal. cbn [pure].
    unfold bind at 1. cbn [Printf emit modify].
    unfold bind at 1. rewrite Hid. cbn [pure fst snd].
    unfold bind at 1. cbn [Printf emit modify].
    unfold bind at 1. unfold seed.querySeedBalance at 1.
    unfold bind at 1. cbn [Get tick now trace interact]. rewrite Hget.
    cbn [StatusCode Body]. change (negb (200 =? 200)) with false. cbn iota.
    unfold bind at 1. rewrite Hjson. cbn [try pure orFail].
    unfold bind at 1. rewrite Hbal. cbn [pure].
    unfold bind at 1. cbn [Printf emit modify ret tick now trace].
    unfold bind at 1. unfold seed.checkFunds.
    unfold bind at 1. rewrite (AmountOf_valid _ _ _ Hdenom). cbn [pure].
    unfold bind at 1. rewrite (AmountOf_valid _ _ _ Hdenom). cbn [pure].
    rewrite Hlt. reflexivity. }
  rewrite E. cbn [fst snd].
  split; [reflexivity |]. split; [exact Hneed |].
  split; [reflexivity |].
  erewrite (since_app w); [| cbn [trace]; reflexivity].
  split; reflexivity.
Qed.

End Preflight.

(* ================================================================== *)
(** * The funding planner: accounts that are funded already *)
(* ================================================================== *)

Section Idempotence.

Context `{Library} (node : Node).

Lemma quiet_querySeedBalance restURL seedAddr w :
  quiet_at (seed.querySeedBalance node restURL seedAddr) w.
Proof. unfold seed.querySeedBalance. quiet. Qed.

Lemma quiet_checkFunds cfg seedBalance required w :
  quiet_at (seed.checkFunds cfg seedBalance required) w.
Proof. unfold seed.checkFunds. quiet. Qed.

Lemma quiet_querySeedAccount restURL seedAddr w :
  quiet_at (seed.querySeedAccount node restURL seedAddr) w.
Proof. unfold seed.querySeedAccount. quiet. Qed.

(** The account's balance query, answered by [reply], succeeds and shows
    at least the fund amount in the configured denomination. *)
Definition funded (cfg : seed.Config) (fundCoin : sdk.Coin) (reply : GetResult)
  : Prop :=
  exists body balances balance,
    reply = GetOk {| StatusCode := 200; Body := body |}
    /\ json_balances body = Some balances
    /\ seed.balanceOf balances = Ok balance
    /\ sdk.Amount fundCoin <= sdk.amount_of balance (seed.Denom cfg).

(** Every bench worker's account is funded, whenever it is asked for. *)
Definition all_funded (cfg : seed.Config) (fundCoin : sdk.Coin) : Prop :=
  forall (i : Z) (t : nat),
    0 <= i < seed.Workers cfg ->
    funded cfg fundCoin
      (http_Get node t
         (seed.balanceURL (seed.restURL_of (seed.RPC cfg))
                          (snd (seed.benchKey i)))).

Lemma needsFunding1_funded cfg fundCoin restURL addr w :
  ValidateDenom (seed.Denom cfg) = true ->
  funded cfg fundCoin (http_Get node (tick w) (seed.balanceURL restURL addr)) ->
  seed.needsFunding1 node cfg fundCoin restURL addr w
  = (Ok false, interact node (EvGet (seed.balanceURL restURL addr)) 0 w).
Proof.
  intros Hdenom (body & balances & balance & Hget & Hjson & Hbal & Hle).
  unfold seed.needsFunding1, bind, Get, pure. rewrite Hget.
  cbn [StatusCode Body]. change (negb (200 =? 200)) with false. cbn iota.
  rewrite Hjson, Hbal, (AmountOf_valid _ _ _ Hdenom). cbn [ret].
  replace (sdk.amount_of balance (seed.Denom cfg) <? sdk.Amount fundCoin)
    with false by (symmetry; apply Z.ltb_ge; lia).
  reflexivity.
Qed.

(** When every account asked about is funded, the classification loop
    adds no account, and only queries. *)
Lemma needsFunding_all_funded cfg fundCoin restURL keys :
  ValidateDenom (seed.Denom cfg) = true ->
  (forall bk (t : nat),
      In bk keys ->
      funded cfg fundCoin (http_Get node t (seed.balanceURL restURL (snd bk)))) ->
  forall (acc : list (list byte)) w,
    exists w',
      foldM (fun (needsFunding : list (list byte)) (bk : list byte * list byte) =>
               needs <- seed.needsFunding1 node cfg fundCoin restURL (snd bk) ;;
               ret (if needs : bool then (needsFunding ++ [snd bk])%list
                    else needsFunding))
            keys acc w = (Ok acc, w')
      /\ exists evs, trace w' = (evs ++ trace w)%list
                     /\ forallb quiet_event evs = true.
Proof.
  intros Hdenom. induction keys as [| bk keys IH]; intros Hf acc w.
  - exists w. split; [reflexivity |]. exists []. auto.
  - cbn [foldM]. unfold bind at 1. unfold bind at 1.
    rewrite (needsFunding1_funded cfg fundCoin restURL (snd bk) w Hdenom)
      by (apply Hf; left; reflexivity).
    cbn [ret].
    destruct (IH (fun bk' t Hin => Hf bk' t (or_intror Hin)) acc
                 (interact node (EvGet (seed.balanceURL restURL (snd bk))) 0 w))
      as (w' & E & evs & Et & Hq).
    exists w'. split; [exact E |].
    exists (evs ++ [EvGet (seed.balanceURL restURL (snd bk))])%list. split.
    + rewrite Et. cbn [interact trace]. rewrite <- app_assoc. reflexivity.
    + rewrite forallb_app, Hq. reflexivity.
Qed.

Lemma benchKeys_In workers keys bk :
  seed.benchKeys workers = Ok keys ->
  In bk keys ->
  exists i, 0 <= i < workers /\ bk = seed.benchKey i.
Proof.
  unfold seed.benchKeys. destruct (workers <? 0) eqn:E; [discriminate |].
  intros [= <-] Hin. apply in_map_iff in Hin.
  destruct Hin as (i & <- & Hi). apply in_seq in Hi.
  exists (Z.of_nat i). split; [lia | reflexivity].
Qed.

(** The seed account's number and sequence are known: the node, asked at
    interaction [t], resolves the account. *)
Definition seed_account_known (cfg : seed.Config) (t : nat)
  (seedAddr : list byte) (accountNum sequence : Z) : Prop :=
  exists body account_number sequence_text,
    http_Get node t
      (seed.accountURL (seed.restURL_of (seed.RPC cfg)) seedAddr)
    = GetOk {| StatusCode := 200; Body := body |}
    /\ json_account body = Some (account_number, sequence_text)
    /\ Go.ParseUint account_number = Some accountNum
    /\ Go.ParseUint sequence_text = Some sequence.

(** What [seedAccounts] does after the bench keys are derived, given that
    all accounts are funded. *)
Lemma classification_all_funded cfg fundCoin keys w :
  ValidateDenom (seed.Denom cfg) = true ->
  all_funded cfg fundCoin ->
  seed.benchKeys (seed.Workers cfg) = Ok keys ->
  exists w',
    seed.needsFunding node cfg fundCoin (seed.restURL_of (seed.RPC cfg)) keys w
    = (Ok [], w')
    /\ exists evs, trace w' = (evs ++ trace w)%list
                   /\ forallb quiet_event evs = true.
Proof.
  intros Hdenom Hall Hkeys. unfold seed.needsFunding.
  apply needsFunding_all_funded; [exact Hdenom |].
  intros bk t Hin.
  destruct (benchKeys_In _ _ _ Hkeys Hin) as (i & Hi & ->).
  apply Hall, Hi.
Qed.

(** With every account funded, the whole run only prints, queries and
    computes. *)
Lemma quiet_seedAccounts_all_funded cfg fundCoin w :
  ParseCoinNormalized (seed.FundAmount cfg) = Some fundCoin ->
  all_funded cfg fundCoin ->
  quiet_at (seed.seedAccounts node cfg) w.
Proof.
  intros Hparse Hall. unfold seed.seedAccounts. rewrite Hparse.
  apply quiet_at_bind; [auto with quiet | intros fundCoin' w1 E1].
  injection E1 as <- <-.
  apply quiet_at_bind; [auto with quiet | intros required w2 E2].
  injection E2 as E2 <-.
  destruct (totalRequired_amount cfg fundCoin required E2) as (Hdenom & _).
  apply quiet_at_bind; [auto with quiet | intros _ w3 _].
  apply quiet_at_bind; [auto with quiet | intros identity w4 _].
  apply quiet_at_bind; [auto with quiet | intros _ w5 _].
  apply quiet_at_bind; [apply quiet_querySeedBalance | intros seedBalance w6 _].
  apply quiet_at_bind; [apply quiet_checkFunds | intros _ w7 _].
  apply quiet_at_bind; [apply quiet_querySeedAccount | intros account w8 _].
  apply quiet_at_bind; [auto with quiet | intros keys w9 E9].
  injection E9 as E9 <-.
  destruct (classification_all_funded cfg fundCoin keys w8 Hdenom Hall E9)
    as (w10 & E10 & evs & Et & Hq).
  apply quiet_at_bind.
  - exists evs. rewrite E10. auto.
  - intros needs w11 E11. rewrite E10 in E11. injection E11 as <- <-.
    cbn [length]. change (Z.of_nat 0 =? 0) with true. cbn iota.
    auto with quiet.
Qed.

(** C7, as the code has it.  When every bench worker's account is funded,
    a run of the planner signs nothing and broadcasts nothing, whatever
    else happens; and it returns success as soon as the pre-flight on the
    seed account goes through: the seed balance is known and covers the
    total required, the seed account resolves, and the number of workers
    is not negative. *)
Theorem funded_accounts_are_left_alone
  (cfg : seed.Config) (fundCoin : sdk.Coin) (w : World) :
  ParseCoinNormalized (seed.FundAmount cfg) = Some fundCoin ->
  all_funded cfg fundCoin ->
  let run := seed.seedAccounts node cfg w in
  broadcasts (snd run) = broadcasts w
  /\ signs (since w (snd run)) = []
  /\ (forall (required : Coins) (seedPrivKey seedAddr : list byte)
             (seedBalance : Coins) (accountNum sequence : Z),
         seed_balance_known node cfg (tick w) fundCoin required
                            seedPrivKey seedAddr seedBalance ->
         sdk.amount_of required (seed.Denom cfg)
         <= sdk.amount_of seedBalance (seed.Denom cfg) ->
         seed_account_known cfg (S (tick w)) seedAddr accountNum sequence ->
         0 <= seed.Workers cfg ->
         fst run = Ok tt).
Proof.
  intros Hparse Hall. cbv zeta.
  destruct (quiet_at_silent _ w _
              (quiet_seedAccounts_all_funded cfg fundCoin w Hparse Hall)
              eq_refl) as (Hb & Hs).
  split; [exact Hb |]. split; [exact Hs |].
  intros required seedPrivKey seedAddr seedBalance accountNum sequence
         (_ & Htotal & Hid & body & balances & Hget & Hjson & Hbal) Hle
         (body2 & an & sq & Hget2 & Hjson2 & Han & Hsq) Hworkers.
  destruct (totalRequired_amount cfg fundCoin required Htotal) as (Hdenom & _).
  assert (Hkeys : exists keys, seed.benchKeys (seed.Workers cfg) = Ok keys).
  { unfold seed.benchKeys.
    replace (seed.Workers cfg <? 0) with false
      by (symmetry; apply Z.ltb_ge; lia).
    eauto. }
  destruct Hkeys as (keys & Hkeys).
  unfold seed.seedAccounts.
  unfold bind at 1. rewrite Hparse. cbn [try pure orFail].
  unfold bind at 1. rewrite Htotal. cbn [pure].
  unfold bind at 1. cbn [Printf emit modify].
  unfold bind at 1. rewrite Hid. cbn [pure fst snd].
  unfold bind at 1. cbn [Printf emit modify].
  unfold bind at 1. unfold seed.querySeedBalance at 1.
  unfold bind at 1. cbn [Get tick now trace interact]. rewrite Hget.
  cbn [StatusCode Body]. change (negb (200 =? 200)) with false. cbn iota.
  unfold bind at 1. rewrite Hjson. cbn [try pure orFail].
  unfold bind at 1. rewrite Hbal. cbn [pure].
  unfold bind at 1. cbn [Printf emit modify ret tick now trace].
  unfold bind at 1. unfold seed.checkFunds.
  unfold bind at 1. rewrite (AmountOf_valid _ _ _ Hdenom). cbn [pure].
  unfold bind at 1. rewrite (AmountOf_valid _ _ _ Hdenom). cbn [pure].
  replace (sdk.amount_of seedBalance (seed.Denom cfg)
           <? sdk.amount_of required (seed.Denom cfg))
    with false by (symmetry; apply Z.ltb_ge; lia).
  cbn [ret].
  unfold bind at 1. unfold seed.querySeedAccount at 1.
  unfold bind at 1. cbn [Get tick now trace interact]. rewrite Hget2.
  cbn [StatusCode Body]. change (negb (200 =? 200)) with false. cbn iota.
  unfold bind at 1. rewrite Hjson2. cbn [try pure orFail fst snd].
  unfold bind at 1. rewrite Han. cbn [try pure orFail].
  unfold bind at 1. rewrite Hsq. cbn [try pure orFail].
  unfold bind at 1. cbn [Printf emit modify ret tick now trace].
  unfold bind at 1. rewrite Hkeys. cbn [pure].
  unfold bind at 1.
  match goal with
  | |- context [seed.needsFunding node cfg fundCoin ?r keys ?w0] =>
      destruct (classification_all_funded cfg fundCoin keys w0 Hdenom Hall
                  Hkeys) as (w' & E & _)
  end.
  rewrite E. reflexivity.
Qed.

End Idempotence.

(** The ten workers of the example are funded, whatever the seed account
    holds. *)
Lemma fixture_workers_funded (seedFunds : string) :
  all_funded (H := fixture.library)
    (fixture.ledger seedFunds "1000000aperpx" "1000000aperpx" 0)
    fixture.cfg fixture.fundCoin.
Proof.
  intros i t Hi.
  exists "1000000aperpx", [("aperpx", "1000000")],
         ({[ "aperpx" := 1000000 ]} : Coins).
  assert (Hcases : i = 0 \/ i = 1 \/ i = 2 \/ i = 3 \/ i = 4 \/ i = 5
                   \/ i = 6 \/ i = 7 \/ i = 8 \/ i = 9)
    by (change (seed.Workers fixture.cfg) with 10 in Hi; lia).
  repeat split; try reflexivity.
  decompose [or] Hcases; subst i; vm_compute; reflexivity.
Qed.

(** C7, as it is worded, fails: all ten accounts of the example are
    funded, and the planner still returns an error, because the seed
    account itself holds less than the total it requires before it looks
    at any worker. *)
Lemma all_funded_without_success :
  let node := fixture.ledger "5aperpx" "1000000aperpx" "1000000aperpx" 0 in
  ParseCoinNormalized (Library := fixture.library)
    (seed.FundAmount fixture.cfg) = Some fixture.fundCoin
  /\ all_funded (H := fixture.library) node fixture.cfg fixture.fundCoin
  /\ fst (seed.seedAccounts (H := fixture.library) node fixture.cfg
                            fixture.start)
     = Fail (Errorf "insufficient funds: seed has %s, needs %s"
                    [AInt 5; AInt 10100000])
  /\ fst (seed.seedAccounts (H := fixture.library) node fixture.cfg
                            fixture.start)
     <> Ok tt.
Proof.
  cbv zeta. split; [reflexivity |].
  split; [apply fixture_workers_funded |].
  split; [vm_compute; reflexivity |].
  vm_compute. discriminate.
Qed.

(* ================================================================== *)
(** * The funding planner: one batch *)
(* ================================================================== *)

(** The events of a funding run that matter for its order: a transaction
    is signed, it is broadcast, it is reported as included in a block. *)
Inductive Key : Type :=
| KSign (signerData : authsigning.SignerData) (tx : TxBuilder) (accSeq : Z)
| KBroadcast (txBytes : list byte)
| KIncluded.

Definition included_format : string :=
  "  Batch %d/%d: transaction included in block %s\n".

Definition key_of (e : Event) : option Key :=
  match e with
  | EvSign sd tx accSeq => Some (KSign sd tx accSeq)
  | EvBroadcast txBytes => Some (KBroadcast txBytes)
  | EvPrintf fmt _ => if String.eqb fmt included_format then Some KIncluded else None
  | _ => None
  end.

(** The key events among [evs], in the order of [evs]. *)
Definition keys (evs : list Event) : list Key := omap key_of evs.

Lemma keys_app (evs1 evs2 : list Event) :
  keys (evs1 ++ evs2) = (keys evs1 ++ keys evs2)%list.
Proof. unfold keys. apply omap_app. Qed.

(** What a step of the planner did: the events it added, latest first,
    with their key events, and the clock does not go back. *)
Definition did (w w' : World) (ks : list Key) : Prop :=
  exists evs,
    trace w' = (evs ++ trace w)%list /\ keys evs = ks /\ now w <= now w'.

Lemma did_refl (w : World) : did w w [].
Proof. exists []. repeat split. lia. Qed.

Lemma did_trans (w w1 w2 : World) (ks1 ks2 : list Key) :
  did w w1 ks1 -> did w1 w2 ks2 -> did w w2 (ks2 ++ ks1).
Proof.
  intros (evs1 & E1 & K1 & N1) (evs2 & E2 & K2 & N2).
  exists (evs2 ++ evs1)%list. split; [| split].
  - rewrite E2, E1. apply app_assoc.
  - rewrite keys_app, K1, K2. reflexivity.
  - lia.
Qed.

Lemma did_interact node (e : Event) (took : Z) (w : World) :
  0 <= took ->
  did w (interact node e took w) (keys [e]).
Proof.
  intros Ht. exists [e]. repeat split. cbn [interact now]. lia.
Qed.

Lemma did_emit (e : Event) (w : World) :
  did w {| tick := tick w; now := now w; trace := e :: trace w |} (keys [e]).
Proof. exists [e]. repeat split. cbn [now]. lia. Qed.

Section Batch.

Context `{Library} (node : Node).

Lemma pollOnce_did cfg restURL txHash n i w o w' :
  seed.pollOnce node cfg restURL txHash n i w = (o, w') ->
  (o = Ok true /\ did w w' [KIncluded])
  \/ (o <> Ok true /\ o <> OutOfFuel /\ did w w' []
      /\ forall p, o = Panic p -> seed.BatchSize cfg = 0).
Proof.
  unfold seed.pollOnce, seed.totalBatches, seed.batchNumber.
  unfold bind at 1. cbn [Get].
  set (w1 := interact node _ 0 w).
  assert (D1 : did w w1 []) by (apply (did_interact node), Z.le_refl).
  assert (Hother : forall resp o w',
             match resp with
             | Some resp =>
                 if StatusCode resp =? 404 then ret false
                 else
                   Printf "  Warning: error querying tx status: HTTP %d: %s\n"
                          [AInt (StatusCode resp); AStr (Body resp)] ;;;
                   ret false
             | None => ret false
             end w1 = (o, w') ->
             (o = Ok true /\ did w w' [KIncluded])
             \/ (o <> Ok true /\ o <> OutOfFuel /\ did w w' []
                 /\ forall p, o = Panic p -> seed.BatchSize cfg = 0)).
  { intros [resp |] o0 w0.
    - destruct (StatusCode resp =? 404); intros [= <- <-]; right;
        (split; [discriminate |]); (split; [discriminate |]);
        (split; [| discriminate]).
      + exact D1.
      + apply (did_trans w w1 _ [] []); [exact D1 | apply did_emit].
    - intros [= <- <-]. right. repeat split; try discriminate. exact D1. }
  destruct (http_Get node (tick w) _) as [resp | resp]; [| apply Hother].
  destruct (StatusCode resp =? 200); [| apply (Hother (Some resp))].
  destruct (json_tx_response (Body resp)) as [txr |];
    [| intros [= <- <-]; right; repeat split; try discriminate; exact D1].
  destruct (negb (String.eqb (Height txr) "")
            && negb (String.eqb (Height txr) "0"));
    [| intros [= <- <-]; right; repeat split; try discriminate; exact D1].
  destruct (negb (Code txr =? 0));
    [intros [= <- <-]; right; repeat split; try discriminate; exact D1 |].
  unfold bind, must, pure, orPanic.
  destruct (Go.div _ (seed.BatchSize cfg)) eqn:Ed1;
    [| intros [= <- <-]; right; repeat split; try discriminate;
       [exact D1 | intros _ _; eapply div_None, Ed1]].
  destruct (Go.div i (seed.BatchSize cfg)) eqn:Ed2;
    [| intros [= <- <-]; right; repeat split; try discriminate;
       [exact D1 | intros _ _; eapply div_None, Ed2]].
  intros [= <- <-]. left. split; [reflexivity |].
  apply (did_trans w w1 _ [] [KIncluded]); [exact D1 | apply did_emit].
Qed.

(** The polling loop: it reports inclusion exactly when it has printed
    that the transaction is included, and it is left before its fuel is
    used up, because every pass sleeps. *)
Lemma pollLoop_did cfg restURL txHash n i startTime (fuel : nat) :
  forall w o w',
    (0 < fuel)%nat ->
    seed.maxWait - (now w - startTime) <= seed.pollInterval * (Z.of_nat fuel - 1) ->
    seed.pollLoop node fuel cfg restURL txHash n i startTime w = (o, w') ->
    o <> OutOfFuel
    /\ ((o = Ok true /\ did w w' [KIncluded])
        \/ (o <> Ok true /\ did w w' []
            /\ forall p, o = Panic p -> seed.BatchSize cfg = 0)).
Proof.
  unfold seed.maxWait, seed.pollInterval.
  induction fuel as [| fuel IH]; intros w o w' Hpos Hfuel; [lia |].
  - cbn [seed.pollLoop]. unfold bind at 1. unfold Now at 1.
    unfold seed.maxWait.
    destruct (now w - startTime <? 30000) eqn:Et.
    + apply Z.ltb_lt in Et. unfold bind at 1.
      destruct (seed.pollOnce node cfg restURL txHash n i w) as [o1 w1] eqn:E1.
      apply pollOnce_did in E1.
      destruct E1 as [(-> & D1) | (Hno & Hnf & D1 & Hp1)].
      * intros [= <- <-]. split; [discriminate |]. left. auto.
      * destruct o1 as [[|] | e | p |]; try congruence.
        -- unfold bind at 1. unfold Sleep at 1. unfold seed.pollInterval.
           set (w2 := interact node (EvSleep 500) 500 w1).
           assert (D2 : did w1 w2 [])
             by (apply (did_interact node (EvSleep 500) 500); lia).
           assert (Hnow : now w + 500 <= now w2).
           { destruct D1 as (_ & _ & _ & N1).
             unfold w2. cbn [interact now]. lia. }
           intros E. apply IH in E; [| lia | lia].
           destruct E as (Hf & [(-> & D) | (Hno' & D & Hp)]);
             (split; [exact Hf |]).
           ++ left. split; [reflexivity |].
              apply (did_trans w w2 w' [] [KIncluded]); [| exact D].
              apply (did_trans w w1 w2 [] []); assumption.
           ++ right. split; [exact Hno' |]. split; [| exact Hp].
              apply (did_trans w w2 w' [] []); [| exact D].
              apply (did_trans w w1 w2 [] []); assumption.
        -- intros [= <- <-]. split; [discriminate |]. right.
           split; [discriminate |]. split; [exact D1 | discriminate].
        -- intros [= <- <-]. split; [discriminate |]. right.
           split; [discriminate |]. split; [exact D1 | exact Hp1].
    + intros [= <- <-]. split; [discriminate |]. right.
      split; [discriminate |]. split; [apply did_refl | discriminate].
Qed.

(** The placeholder signature, and the signer data, of the seed account
    at sequence [seq]. *)
Definition sigV2Empty (seedPrivKey : list byte) (seq : Z) : signing.SignatureV2 :=
  {| signing.PubKey := PrivKey_PubKey seedPrivKey;
     signing.Signature := None;
     signing.Sequence := seq |}.

Definition seedSignerData (cfg : seed.Config) (seedPrivKey seedAddr : list byte)
  (accountNum seq : Z) : authsigning.SignerData :=
  {| authsigning.Address := AccAddress_String seedAddr;
     authsigning.ChainID := seed.ChainID cfg;
     authsigning.AccountNumber := accountNum;
     authsigning.Sequence := seq;
     authsigning.PubKey := PrivKey_PubKey seedPrivKey |}.

(** The batch that starts at [i]: [needsFunding[i:end]]. *)
Definition batch_at (cfg : seed.Config) (needsFunding : list (list byte)) (i : Z)
  : option (list (list byte)) :=
  let n := Z.of_nat (length needsFunding) in
  let end_ := Go.int64 (i + seed.BatchSize cfg) in
  Go.slice needsFunding i (if end_ >? n then n else end_).

(** [tx] is the transaction built for [batch], as it is when it is
    signed at sequence [seq]. *)
Definition batch_tx (cfg : seed.Config) (fundCoin : sdk.Coin)
  (seedPrivKey seedAddr : list byte) (batch : list (list byte)) (seq : Z)
  (tx : TxBuilder) : Prop :=
  exists msgs feeAmount feeCoin feeCoins,
    let gasLimit := Go.uint64 (100000 * Go.uint64 (Z.of_nat (length batch))) in
    seed.fundMsgs fundCoin seedAddr batch = Ok msgs
    /\ sdk.Mul 25000000000 (Go.int64 gasLimit) = Ok feeAmount
    /\ sdk.NewCoin ValidateDenom (seed.Denom cfg) feeAmount = Ok feeCoin
    /\ sdk.NewCoins1 ValidateDenom feeCoin = Ok feeCoins
    /\ tx = withSignatures [sigV2Empty seedPrivKey seq]
              (SetGasLimit gasLimit
                 (SetFeeAmount feeCoins (withMsgs msgs NewTxBuilder))).

(** [k] is the signing of the batch that starts at [i], at sequence
    [seq]. *)
Definition signed_batch (cfg : seed.Config) (fundCoin : sdk.Coin)
  (seedPrivKey seedAddr : list byte) (accountNum : Z)
  (needsFunding : list (list byte)) (i seq : Z) (k : Key) : Prop :=
  exists batch tx,
    batch_at cfg needsFunding i = Some batch
    /\ batch_tx cfg fundCoin seedPrivKey seedAddr batch seq tx
    /\ k = KSign (seedSignerData cfg seedPrivKey seedAddr accountNum seq) tx seq.

Lemma Int_checked_cases z :
  sdk.Int_checked z = Ok z \/ exists p, sdk.Int_checked z = Panic p.
Proof. unfold sdk.Int_checked. destruct (sdk.fits z); eauto. Qed.

Lemma NewCoin_cases denom amount :
  (exists c, sdk.NewCoin ValidateDenom denom amount = Ok c)
  \/ exists p, sdk.NewCoin ValidateDenom denom amount = Panic p.
Proof.
  unfold sdk.NewCoin. destruct (negb _); [eauto |].
  destruct (amount <? 0); eauto.
Qed.

Lemma NewCoins1_cases c :
  (exists coins, sdk.NewCoins1 ValidateDenom c = Ok coins)
  \/ exists p, sdk.NewCoins1 ValidateDenom c = Panic p.
Proof.
  unfold sdk.NewCoins1. destruct (sdk.Amount c =? 0); [eauto |].
  destruct (negb _); [eauto |]. destruct (sdk.Amount c <? 0); eauto.
Qed.

(** The messages of a batch: one per address, in order, each sending the
    fund amount from the seed account. *)
Definition fundMsg (seedAddr : list byte) (amount : Coins) (addr : list byte)
  : banktypes.MsgSend :=
  {| banktypes.FromAddress := AccAddress_String seedAddr;
     banktypes.ToAddress := AccAddress_String addr;
     banktypes.Amount := amount |}.

Lemma fundMsgs_Ok fundCoin seedAddr batch amount :
  sdk.NewCoins1 ValidateDenom fundCoin = Ok amount ->
  seed.fundMsgs fundCoin seedAddr batch = Ok (map (fundMsg seedAddr amount) batch).
Proof.
  intros E. unfold seed.fundMsgs. rewrite E. cbn [obind].
  assert (Hacc : forall acc : list banktypes.MsgSend,
             ofoldM (fun (msgs : list banktypes.MsgSend) (addr : list byte) =>
                       Ok (msgs ++ [{| banktypes.FromAddress :=
                                         AccAddress_String seedAddr;
                                       banktypes.ToAddress :=
                                         AccAddress_String addr;
                                       banktypes.Amount := amount |}])%list)
                    batch acc
             = Ok (acc ++ map (fundMsg seedAddr amount) batch)%list).
  { induction batch as [| addr batch IH]; intros acc.
    - cbn. rewrite app_nil_r. reflexivity.
    - cbn [ofoldM obind map]. rewrite IH, <- app_assoc. reflexivity. }
  apply Hacc.
Qed.

Lemma fundMsgs_Panic fundCoin seedAddr addr batch p :
  sdk.NewCoins1 ValidateDenom fundCoin = Panic p ->
  seed.fundMsgs fundCoin seedAddr (addr :: batch) = Panic p.
Proof. intros E. unfold seed.fundMsgs. cbn [ofoldM]. rewrite E. reflexivity. Qed.

Lemma fundMsgs_cases fundCoin seedAddr batch :
  (exists msgs, seed.fundMsgs fundCoin seedAddr batch = Ok msgs)
  \/ exists p, seed.fundMsgs fundCoin seedAddr batch = Panic p.
Proof.
  destruct batch as [| addr batch]; [left; eexists; reflexivity |].
  destruct (NewCoins1_cases fundCoin) as [(amount & E) | (p & E)].
  - left. eexists. apply fundMsgs_Ok, E.
  - right. exists p. apply fundMsgs_Panic, E.
Qed.

(** A library call that only returns or panics did neither. *)
Ltac impossible :=
  exfalso;
  match goal with
  | E : sdk.Mul ?a ?b = _ |- _ =>
      unfold sdk.Mul in E;
      destruct (Int_checked_cases (a * b)) as [E' | (? & E')];
      rewrite E' in E; discriminate E
  | E : sdk.NewCoin _ ?d ?a = _ |- _ =>
      destruct (NewCoin_cases d a) as [(? & E') | (? & E')];
      rewrite E' in E; discriminate E
  | E : sdk.NewCoins1 _ ?c = _ |- _ =>
      destruct (NewCoins1_cases c) as [(? & E') | (? & E')];
      rewrite E' in E; discriminate E
  | E : seed.fundMsgs ?f ?s ?b = _ |- _ =>
      destruct (fundMsgs_cases f s b) as [(? & E') | (? & E')];
      rewrite E' in E; discriminate E
  end.

(** The events [w'] has on top of [w], given how many they are. *)
Ltac added t base :=
  lazymatch t with
  | base => constr:(@nil Event)
  | ?e :: ?t' => let r := added t' base in constr:(e :: r)
  end.

Ltac show_did :=
  lazymatch goal with
  | |- did ?w ?w' _ =>
      let t := eval cbn [trace interact] in (trace w') in
      let evs := added t (trace w) in
      exists evs; split; [reflexivity |]; split; [reflexivity |];
      cbn [now interact]; lia
  end.

Ltac signed_here :=
  unfold signed_batch;
  eexists _, _; split; [eassumption |]; split; [| reflexivity];
  unfold batch_tx; eexists _, _, _, _; cbv zeta;
  repeat (split; [eassumption |]); reflexivity.

Lemma fundBatch_did cfg fundCoin restURL seedPrivKey seedAddr accountNum
  needsFunding i seq w o w' :
  seed.fundBatch node cfg fundCoin restURL seedPrivKey seedAddr accountNum
                 needsFunding i seq w = (o, w') ->
  let signed := signed_batch cfg fundCoin seedPrivKey seedAddr accountNum
                             needsFunding i seq in
  (o = Ok tt
   /\ exists sign txBytes,
       signed sign /\ did w w' [KIncluded; KBroadcast txBytes; sign])
  \/ (is_Ok o = false /\ o <> OutOfFuel
      /\ (did w w' []
          \/ exists sign,
              signed sign
              /\ (did w w' [sign]
                  \/ exists txBytes,
                      did w w' [KBroadcast txBytes; sign]
                      /\ forall p, o = Panic p -> seed.BatchSize cfg = 0))).
Proof.
  unfold seed.fundBatch, seed.batchNumber, seed.totalBatches,
    SetMsgs, SetSignatures.
  fold (batch_at cfg needsFunding i).
  fold (sigV2Empty seedPrivKey seq).
  fold (seedSignerData cfg seedPrivKey seedAddr accountNum seq).
  cbv zeta.
  repeat (cbv beta iota delta
              [bind ret pure fail panic out_of_fuel try must wrapErr get modify
               orFail orPanic obind Dial BroadcastTx Now Printf emit];
          case_step_before seed.pollLoop).
  all: try (intros E; injection E as <- <-).
  all: try solve [impossible].
  all: try solve [right; split; [reflexivity |]; split; [discriminate |];
                  left; show_did].
  all: try solve [right; split; [reflexivity |]; split; [discriminate |];
                  right; eexists; (split; [idtac | left; show_did]);
                  signed_here].
  all: try solve [right; split; [reflexivity |]; split; [discriminate |];
                  right; eexists;
                  (split; [idtac
                          | right; eexists;
                            (split;
                             [show_did
                             | intros ? Hp; try discriminate Hp;
                               eapply div_None; eassumption])]);
                  signed_here].
  match goal with
  | |- context [seed.pollLoop node ?f cfg ?r ?h ?n ?j ?st ?W] =>
      assert (D : exists sign,
                 signed_batch cfg fundCoin seedPrivKey seedAddr accountNum
                              needsFunding i seq sign
                 /\ did w W [KBroadcast l0; sign])
        by (eexists; (split; [idtac | show_did]); signed_here);
      destruct (seed.pollLoop node f cfg r h n j st W) as [o1 w3] eqn:Ep;
      apply pollLoop_did in Ep;
      [| unfold seed.pollFuel; lia
       | unfold seed.maxWait, seed.pollInterval, seed.pollFuel; lia]
  end.
  destruct D as (sign & Hsign & D).
  destruct Ep as (Hfuel & [(-> & Dp) | (Hno & Dp & Hp)]).
  - intros [= <- <-]. left. split; [reflexivity |].
    exists sign, l0. split; [exact Hsign |].
    apply (did_trans _ _ _ _ _ D Dp).
  - assert (Dw : did w w3 [KBroadcast l0; sign])
      by apply (did_trans _ _ _ _ _ D Dp).
    destruct o1 as [[|] | e | p |]; try congruence;
      intros [= <- <-]; right; (split; [reflexivity |]);
      (split; [discriminate |]); right; exists sign; (split; [exact Hsign |]);
      right; exists l0; (split; [exact Dw |]);
      intros p' Hp'; try discriminate Hp'.
    injection Hp' as <-. eapply Hp. reflexivity.
Qed.

(** A run of the funding loop from index [i] and sequence [seq], by its
    key events in the order they happened and its outcome.  Each batch
    that is confirmed leaves a signing, a broadcast and an inclusion,
    and only then does the loop go on, with the next index and the next
    sequence; a batch that is not confirmed ends the run, with an
    outcome that is not a success, after at most a signing and a
    broadcast. *)
Inductive funding_run (cfg : seed.Config) (fundCoin : sdk.Coin)
  (seedPrivKey seedAddr : list byte) (accountNum : Z)
  (needsFunding : list (list byte))
  : Z -> Z -> list Key -> Outcome unit -> Prop :=
| run_end i seq :
    Z.of_nat (length needsFunding) <= i ->
    funding_run cfg fundCoin seedPrivKey seedAddr accountNum needsFunding
                i seq [] (Ok tt)
| run_out_of_fuel i seq :
    funding_run cfg fundCoin seedPrivKey seedAddr accountNum needsFunding
                i seq [] OutOfFuel
| run_confirmed i seq sign txBytes ks o :
    i < Z.of_nat (length needsFunding) ->
    signed_batch cfg fundCoin seedPrivKey seedAddr accountNum needsFunding
                 i seq sign ->
    funding_run cfg fundCoin seedPrivKey seedAddr accountNum needsFunding
                (Go.int64 (i + seed.BatchSize cfg)) (Go.uint64 (seq + 1)) ks o ->
    funding_run cfg fundCoin seedPrivKey seedAddr accountNum needsFunding
                i seq (sign :: KBroadcast txBytes :: KIncluded :: ks) o
| run_failed i seq o :
    i < Z.of_nat (length needsFunding) ->
    is_Ok o = false -> o <> OutOfFuel ->
    funding_run cfg fundCoin seedPrivKey seedAddr accountNum needsFunding
                i seq [] o
| run_failed_signed i seq sign o :
    i < Z.of_nat (length needsFunding) ->
    is_Ok o = false -> o <> OutOfFuel ->
    signed_batch cfg fundCoin seedPrivKey seedAddr accountNum needsFunding
                 i seq sign ->
    funding_run cfg fundCoin seedPrivKey seedAddr accountNum needsFunding
                i seq [sign] o
| run_failed_broadcast i seq sign txBytes o :
    i < Z.of_nat (length needsFunding) ->
    is_Ok o = false -> o <> OutOfFuel ->
    (forall p, o = Panic p -> seed.BatchSize cfg = 0) ->
    signed_batch cfg fundCoin seedPrivKey seedAddr accountNum needsFunding
                 i seq sign ->
    funding_run cfg fundCoin seedPrivKey seedAddr accountNum needsFunding
                i seq [sign; KBroadcast txBytes] o.

(** The funding loop runs as [funding_run] says. *)
Lemma fundLoop_run cfg fundCoin restURL seedPrivKey seedAddr accountNum
  needsFunding (fuel : nat) :
  forall i seq w o w',
    seed.fundLoop node fuel cfg fundCoin restURL seedPrivKey seedAddr
                  accountNum needsFunding i seq w = (o, w') ->
    exists ks,
      did w w' ks
      /\ funding_run cfg fundCoin seedPrivKey seedAddr accountNum needsFunding
                     i seq (rev ks) o.
Proof.
  induction fuel as [| fuel IH]; intros i seq w o w'.
  - intros [= <- <-]. exists []. split; [apply did_refl | apply run_out_of_fuel].
  - cbn [seed.fundLoop].
    destruct (i <? Z.of_nat (length needsFunding)) eqn:Ei.
    + apply Z.ltb_lt in Ei. unfold bind.
      destruct (seed.fundBatch node cfg fundCoin restURL seedPrivKey seedAddr
                  accountNum needsFunding i seq w) as [o1 w1] eqn:E1.
      apply fundBatch_did in E1. cbv zeta in E1.
      destruct E1 as [(-> & sign & txBytes & Hsign & D1)
                     | (Hno & Hnf
                        & [D1 | (sign & Hsign & [D1 | (txBytes & D1 & Hp)])])].
      * intros E. apply IH in E. destruct E as (ks & D & Hrun).
        exists (ks ++ [KIncluded; KBroadcast txBytes; sign])%list. split.
        -- apply (did_trans _ _ _ _ _ D1 D).
        -- rewrite rev_app_distr. cbn [rev app].
           apply run_confirmed; assumption.
      * assert (E : (o1, w1) = (o, w') -> o1 = o /\ w1 = w')
          by (intros [= -> ->]; auto).
        destruct o1; try discriminate Hno; intros E'; apply E in E';
          destruct E' as [<- <-]; exists []; (split; [exact D1 |]);
          apply run_failed; auto.
      * assert (E : (o1, w1) = (o, w') -> o1 = o /\ w1 = w')
          by (intros [= -> ->]; auto).
        destruct o1; try discriminate Hno; intros E'; apply E in E';
          destruct E' as [<- <-]; exists [sign]; (split; [exact D1 |]);
          apply run_failed_signed; auto.
      * assert (E : (o1, w1) = (o, w') -> o1 = o /\ w1 = w')
          by (intros [= -> ->]; auto).
        destruct o1; try discriminate Hno; intros E'; apply E in E';
          destruct E' as [<- <-]; exists [KBroadcast txBytes; sign];
          (split; [exact D1 |]); apply run_failed_broadcast; auto.
    + apply Z.ltb_ge in Ei. intros [= <- <-]. exists [].
      split; [apply did_refl | apply run_end; exact Ei].
Qed.

End Batch.

(* ================================================================== *)
(** * The funding planner: the loop is left *)
(* ================================================================== *)

Section Termination.

Context `{Library} (node : Node).

Lemma batch_at_negative cfg needsFunding i :
  - 2 ^ 63 <= seed.BatchSize cfg < 0 ->
  0 <= i < Z.of_nat (length needsFunding) ->
  Z.of_nat (length needsFunding) < 2 ^ 62 ->
  batch_at cfg needsFunding i = None.
Proof.
  intros HB Hi Hn. unfold batch_at. cbv zeta.
  rewrite (int64_small (i + seed.BatchSize cfg)) by lia.
  replace (i + seed.BatchSize cfg >? Z.of_nat (length needsFunding)) with false
    by (symmetry; rewrite Z.gtb_ltb; apply Z.ltb_ge; lia).
  unfold Go.slice.
  replace (i <=? i + seed.BatchSize cfg) with false
    by (symmetry; apply Z.leb_gt; lia).
  rewrite andb_false_r. reflexivity.
Qed.

(** With a batch size that is not positive no batch is ever confirmed:
    slicing panics on a negative one, and a zero one makes the progress
    message divide by zero. *)
Lemma fundBatch_no_progress cfg fundCoin restURL seedPrivKey seedAddr
  accountNum needsFunding i seq w o w' :
  - 2 ^ 63 <= seed.BatchSize cfg <= 0 ->
  0 <= i < Z.of_nat (length needsFunding) ->
  Z.of_nat (length needsFunding) < 2 ^ 62 ->
  seed.fundBatch node cfg fundCoin restURL seedPrivKey seedAddr accountNum
                 needsFunding i seq w = (o, w') ->
  is_Ok o = false.
Proof.
  intros HB Hi Hn.
  assert (Hcases : batch_at cfg needsFunding i = None
                   \/ Go.div i (seed.BatchSize cfg) = None).
  { destruct (Z.eq_dec (seed.BatchSize cfg) 0) as [E0 | Hne].
    - right. unfold Go.div. rewrite E0. reflexivity.
    - left. apply batch_at_negative; lia. }
  unfold seed.fundBatch, seed.batchNumber, seed.totalBatches,
    SetMsgs, SetSignatures.
  fold (batch_at cfg needsFunding i). cbv zeta.
  repeat (cbv beta iota delta
              [bind ret pure fail panic out_of_fuel try must wrapErr get modify
               orFail orPanic obind Dial BroadcastTx Now Printf emit];
          case_step_before seed.pollLoop).
  all: try (intros E; injection E as <- <-; reflexivity).
  exfalso. destruct Hcases; congruence.
Qed.

(** The funding loop is left before its fuel is used up. *)
Lemma fundLoop_terminates cfg fundCoin restURL seedPrivKey seedAddr accountNum
  needsFunding (fuel : nat) :
  - 2 ^ 63 <= seed.BatchSize cfg < 2 ^ 63 ->
  Z.of_nat (length needsFunding) < 2 ^ 62 ->
  forall i seq w o w',
    0 <= i ->
    i = 0 \/ seed.BatchSize cfg <= i ->
    (0 < fuel)%nat ->
    Z.of_nat (length needsFunding) - i < Z.of_nat fuel ->
    seed.fundLoop node fuel cfg fundCoin restURL seedPrivKey seedAddr
                  accountNum needsFunding i seq w = (o, w') ->
    o <> OutOfFuel.
Proof.
  intros HB Hn.
  induction fuel as [| fuel IH]; intros i seq w o w' Hi Hinv Hpos Hfuel; [lia |].
  cbn [seed.fundLoop].
  destruct (i <? Z.of_nat (length needsFunding)) eqn:Ei;
    [| intros [= <- <-]; discriminate].
  apply Z.ltb_lt in Ei. unfold bind.
  destruct (seed.fundBatch node cfg fundCoin restURL seedPrivKey seedAddr
              accountNum needsFunding i seq w) as [o1 w1] eqn:E1.
  destruct o1 as [[] | e | p |].
  - assert (HBpos : 0 < seed.BatchSize cfg).
    { destruct (Z.lt_ge_cases 0 (seed.BatchSize cfg)) as [Hlt | Hge];
        [exact Hlt |].
      eapply fundBatch_no_progress in E1; [discriminate E1 | lia | lia | lia]. }
    rewrite (int64_small (i + seed.BatchSize cfg)) by lia.
    apply IH; lia.
  - intros [= <- <-]. discriminate.
  - intros [= <- <-]. discriminate.
  - apply fundBatch_did in E1. cbv zeta in E1.
    destruct E1 as [(E & _) | (_ & E & _)]; congruence.
Qed.

End Termination.

(* ================================================================== *)
(** * The funding planner: the batches *)
(* ================================================================== *)

(** The partition the design document describes: in order, batches of
    size [B], the last one possibly smaller. *)
Fixpoint batches_from {A} (fuel B : nat) (l : list A) : list (list A) :=
  match fuel, l with
  | O, _ => []
  | _, [] => []
  | S fuel', _ => firstn B l :: batches_from fuel' B (skipn B l)
  end.

Definition batches {A} (B : nat) (l : list A) : list (list A) :=
  batches_from (length l) B l.

Section BatchesFacts.

Context {A : Type} (B : nat) (HB : (0 < B)%nat).

Lemma batches_from_enough (fuel1 : nat) :
  forall (fuel2 : nat) (l : list A),
    (length l <= fuel1)%nat -> (length l <= fuel2)%nat ->
    batches_from fuel1 B l = batches_from fuel2 B l.
Proof.
  induction fuel1 as [| fuel1 IH]; intros fuel2 l H1 H2.
  - destruct l; [| simpl in H1; lia]. destruct fuel2; reflexivity.
  - destruct l as [| x l]; [destruct fuel2; reflexivity |].
    destruct fuel2 as [| fuel2]; [simpl in H2; lia |].
    cbn [batches_from]. f_equal.
    apply IH; rewrite length_skipn; simpl in *; lia.
Qed.

Lemma batches_cons (x : A) (l : list A) :
  batches B (x :: l) = firstn B (x :: l) :: batches B (skipn B (x :: l)).
Proof.
  unfold batches at 1. cbn [length batches_from]. f_equal.
  apply batches_from_enough; rewrite length_skipn; simpl; lia.
Qed.

Lemma batches_nil : batches B (@nil A) = [].
Proof. reflexivity. Qed.

(** Strong induction along the batches. *)
Lemma batches_ind (P : list A -> Prop) :
  P [] ->
  (forall x l, P (skipn B (x :: l)) -> P (x :: l)) ->
  forall l, P l.
Proof.
  intros Hnil Hcons l.
  remember (length l) as n eqn:Hn.
  revert l Hn. induction n as [n IH] using lt_wf_ind. intros l Hn.
  destruct l as [| x l]; [exact Hnil |].
  apply Hcons. eapply IH; [| reflexivity].
  rewrite length_skipn. subst n. simpl. lia.
Qed.

Lemma batches_concat (l : list A) : concat (batches B l) = l.
Proof.
  induction l as [| x l IH] using batches_ind; [reflexivity |].
  rewrite batches_cons. cbn [concat]. rewrite IH. apply firstn_skipn.
Qed.

Lemma batches_count (l : list A) :
  Z.of_nat (length (batches B l))
  = (Z.of_nat (length l) + Z.of_nat B - 1) / Z.of_nat B.
Proof.
  induction l as [| x l IH] using batches_ind.
  - rewrite batches_nil. cbn [length]. symmetry.
    apply Z.div_small. lia.
  - rewrite batches_cons. cbn [length]. rewrite Nat2Z.inj_succ, IH.
    rewrite length_skipn.
    destruct (Nat.le_gt_cases (length (x :: l)) B) as [Hle | Hgt].
    + replace (length (x :: l) - B)%nat with 0%nat by lia.
      rewrite (Z.div_small (Z.of_nat 0 + Z.of_nat B - 1)) by lia.
      cbn [length] in *.
      apply Z.div_unique with (r := Z.of_nat (S (length l)) - 1); lia.
    + rewrite Nat2Z.inj_sub by lia.
      remember (Z.of_nat (length (x :: l)) - Z.of_nat B + Z.of_nat B - 1)
        as a eqn:Ha.
      pose proof (Z.div_mod a (Z.of_nat B) ltac:(lia)) as Hdm.
      pose proof (Z.mod_pos_bound a (Z.of_nat B) ltac:(lia)) as Hmb.
      cbn [length] in *.
      apply Z.div_unique with (r := a mod Z.of_nat B); lia.
Qed.

Lemma batches_lookup (l : list A) :
  forall (k : nat) (batch : list A),
    batches B l !! k = Some batch ->
    batch = firstn B (skipn (k * B) l)
    /\ length batch = Nat.min B (length l - k * B)
    /\ (0 < length batch)%nat.
Proof.
  induction l as [| x l IH] using batches_ind; intros k batch Hk.
  - rewrite batches_nil in Hk. discriminate Hk.
  - rewrite batches_cons in Hk. destruct k as [| k].
    + injection Hk as <-. cbn [Nat.mul skipn]. rewrite Nat.sub_0_r.
      split; [reflexivity |]. rewrite length_firstn.
      split; [reflexivity |]. simpl length. lia.
    + cbn [lookup list_lookup] in Hk. apply IH in Hk.
      destruct Hk as (-> & Hlen & Hpos).
      rewrite skipn_skipn in *. rewrite length_skipn in Hlen.
      replace (k * B + B)%nat with (S k * B)%nat in * by lia.
      split; [reflexivity |]. split; [| exact Hpos].
      rewrite Hlen. lia.
Qed.

End BatchesFacts.

Section Partition.

Context `{Library} (node : Node).

(** The transactions signed among [ks], in the order of [ks]. *)
Definition signed_txs (ks : list Key) : list TxBuilder :=
  omap (fun k => match k with KSign _ tx _ => Some tx | _ => None end) ks.

(** [tx] funds [batch]: it holds one message per account of the batch, in
    order, each sending the fund amount from the seed account; its gas
    limit is 100000 per message, and its fee is the gas limit times the
    minimum gas price, in the configured denomination. *)
Definition funds (cfg : seed.Config) (fundCoin : sdk.Coin) (seedAddr : list byte)
  (tx : TxBuilder) (batch : list (list byte)) : Prop :=
  (exists amount,
      sdk.NewCoins1 ValidateDenom fundCoin = Ok amount
      /\ Msgs tx = map (fundMsg seedAddr amount) batch)
  /\ length (Msgs tx) = length batch
  /\ GasLimit tx = Z.of_nat (length batch) * 100000
  /\ FeeAmount tx
     = {[ seed.Denom cfg := Z.of_nat (length batch) * 100000 * 25000000000 ]}.

Lemma batch_at_spec cfg needsFunding i :
  0 < seed.BatchSize cfg ->
  0 <= i < Z.of_nat (length needsFunding) ->
  i + seed.BatchSize cfg < 2 ^ 63 ->
  batch_at cfg needsFunding i
  = Some (firstn (Z.to_nat (seed.BatchSize cfg))
                 (skipn (Z.to_nat i) needsFunding)).
Proof.
  intros HB Hi Hwrap. unfold batch_at. cbv zeta.
  rewrite (int64_small (i + seed.BatchSize cfg)) by lia.
  unfold Go.slice.
  destruct (i + seed.BatchSize cfg >? Z.of_nat (length needsFunding)) eqn:E.
  - rewrite Z.gtb_ltb in E. apply Z.ltb_lt in E.
    replace ((0 <=? i) && (i <=? Z.of_nat (length needsFunding))
             && (Z.of_nat (length needsFunding)
                 <=? Z.of_nat (length needsFunding)))
      with true
      by (symmetry; rewrite !andb_true_iff, !Z.leb_le; lia).
    f_equal.
    rewrite !firstn_all2; [reflexivity | |]; rewrite length_skipn; lia.
  - rewrite Z.gtb_ltb in E. apply Z.ltb_ge in E.
    replace ((0 <=? i) && (i <=? i + seed.BatchSize cfg)
             && (i + seed.BatchSize cfg <=? Z.of_nat (length needsFunding)))
      with true
      by (symmetry; rewrite !andb_true_iff, !Z.leb_le; lia).
    do 2 f_equal. lia.
Qed.

Lemma batch_tx_funds cfg fundCoin seedPrivKey seedAddr batch seq tx :
  batch_tx cfg fundCoin seedPrivKey seedAddr batch seq tx ->
  (0 < length batch)%nat ->
  Z.of_nat (length batch) * 100000 < 2 ^ 63 ->
  funds cfg fundCoin seedAddr tx batch.
Proof.
  intros (msgs & feeAmount & feeCoin & feeCoins & Hb) Hpos Hsmall.
  cbv zeta in Hb. destruct Hb as (Hmsgs & Hmul & Hcoin & Hcoins & ->).
  rewrite (uint64_small (Z.of_nat (length batch))) in * by lia.
  rewrite (uint64_small (100000 * Z.of_nat (length batch))) in * by lia.
  rewrite (int64_small (100000 * Z.of_nat (length batch))) in * by lia.
  unfold sdk.Mul in Hmul. apply Int_checked_Ok_inv in Hmul. subst feeAmount.
  apply NewCoin_Ok_inv in Hcoin. destruct Hcoin as (-> & Hdenom & _).
  unfold sdk.NewCoins1 in Hcoins. cbn [sdk.Denom sdk.Amount] in Hcoins.
  rewrite Hdenom in Hcoins. cbn [negb] in Hcoins.
  replace (25000000000 * (100000 * Z.of_nat (length batch)) =? 0) with false
    in Hcoins by (symmetry; apply Z.eqb_neq; lia).
  replace (25000000000 * (100000 * Z.of_nat (length batch)) <? 0) with false
    in Hcoins by (symmetry; apply Z.ltb_ge; lia).
  injection Hcoins as <-.
  assert (Hamount : exists amount,
             sdk.NewCoins1 ValidateDenom fundCoin = Ok amount).
  { destruct (NewCoins1_cases fundCoin) as [Hok | (p & Hp)]; [exact Hok |].
    destruct batch as [| addr batch]; [simpl in Hpos; lia |].
    rewrite (fundMsgs_Panic _ _ _ _ _ Hp) in Hmsgs. discriminate Hmsgs. }
  destruct Hamount as (amount & Hamount).
  rewrite (fundMsgs_Ok _ seedAddr batch _ Hamount) in Hmsgs.
  injection Hmsgs as <-.
  unfold funds. cbn [Msgs GasLimit FeeAmount withSignatures SetGasLimit
                     SetFeeAmount withMsgs].
  split; [eauto |]. split; [apply length_map |].
  split; [lia |]. f_equal. lia.
Qed.

(** A run of the funding loop signs the transactions of the planned
    batches, one after the other from the first one, and all of them when
    it succeeds. *)
Lemma funding_run_batches cfg fundCoin seedPrivKey seedAddr accountNum
  needsFunding i seq ks o :
  funding_run cfg fundCoin seedPrivKey seedAddr accountNum needsFunding
              i seq ks o ->
  0 < seed.BatchSize cfg < 2 ^ 63 ->
  Z.of_nat (length needsFunding) * 100000 < 2 ^ 63 ->
  0 <= i -> i = 0 \/ seed.BatchSize cfg <= i ->
  let planned := batches (Z.to_nat (seed.BatchSize cfg))
                         (skipn (Z.to_nat i) needsFunding) in
  exists done : nat,
    Forall2 (funds cfg fundCoin seedAddr) (signed_txs ks) (firstn done planned)
    /\ (o = Ok tt -> done = length planned).
Proof.
  intros Hrun HB Hn. cbv zeta.
  assert (HBnat : (0 < Z.to_nat (seed.BatchSize cfg))%nat) by lia.
  assert (Hsigned : forall i seq sign,
             signed_batch cfg fundCoin seedPrivKey seedAddr accountNum
                          needsFunding i seq sign ->
             0 <= i < Z.of_nat (length needsFunding) ->
             i = 0 \/ seed.BatchSize cfg <= i ->
             exists tx,
               (forall rest, signed_txs (sign :: rest) = tx :: signed_txs rest)
               /\ batches (Z.to_nat (seed.BatchSize cfg))
                          (skipn (Z.to_nat i) needsFunding)
                  = firstn (Z.to_nat (seed.BatchSize cfg))
                           (skipn (Z.to_nat i) needsFunding)
                    :: batches (Z.to_nat (seed.BatchSize cfg))
                               (skipn (Z.to_nat (i + seed.BatchSize cfg))
                                      needsFunding)
               /\ funds cfg fundCoin seedAddr tx
                        (firstn (Z.to_nat (seed.BatchSize cfg))
                                (skipn (Z.to_nat i) needsFunding))).
  { clear Hrun i seq ks o. intros i seq sign (batch & tx & Hat & Htx & ->) Hi Hinv.
    rewrite batch_at_spec in Hat by lia. injection Hat as <-.
    exists tx. split; [reflexivity |].
    assert (Hlen : (0 < length (skipn (Z.to_nat i) needsFunding))%nat)
      by (rewrite length_skipn; lia).
    destruct (skipn (Z.to_nat i) needsFunding) as [| x l] eqn:Es;
      [simpl in Hlen; lia |].
    split.
    - rewrite (batches_cons _ HBnat). f_equal. f_equal.
      rewrite <- Es, skipn_skipn. f_equal. lia.
    - apply (batch_tx_funds _ _ _ _ _ _ _ Htx).
      + rewrite length_firstn. simpl length. lia.
      + rewrite length_firstn.
        assert (length (x :: l) <= length needsFunding)%nat
          by (rewrite <- Es, length_skipn; lia).
        lia. }
  induction Hrun as [i seq Hi | i seq | i seq sign txBytes ks o Hi Hsign Hrun IH
                    | i seq o Hi Hno Hnf | i seq sign o Hi Hno Hnf Hsign
                    | i seq sign txBytes o Hi Hno Hnf Hp Hsign];
    intros Hi0 Hinv.
  - exists 0%nat. split; [constructor |]. intros _.
    rewrite skipn_all2 by lia. reflexivity.
  - exists 0%nat. split; [constructor | discriminate].
  - destruct (Hsigned i seq sign Hsign ltac:(lia) Hinv)
      as (tx & Htx & Hplanned & Hfunds).
    rewrite (int64_small (i + seed.BatchSize cfg)) in IH by lia.
    destruct (IH ltac:(lia) ltac:(lia)) as (done & Hall & Hok).
    exists (S done). rewrite Hplanned. cbn [firstn length].
    rewrite Htx. change (signed_txs (KBroadcast txBytes :: KIncluded :: ks))
      with (signed_txs ks).
    split; [constructor; assumption |].
    intros Ho. rewrite (Hok Ho). reflexivity.
  - exists 0%nat. split; [constructor |]. intros ->. discriminate Hno.
  - destruct (Hsigned i seq sign Hsign ltac:(lia) Hinv)
      as (tx & Htx & Hplanned & Hfunds).
    exists 1%nat. rewrite Hplanned, Htx. cbn [firstn].
    split; [constructor; [assumption | constructor] |].
    intros ->. discriminate Hno.
  - destruct (Hsigned i seq sign Hsign ltac:(lia) Hinv)
      as (tx & Htx & Hplanned & Hfunds).
    exists 1%nat. rewrite Hplanned, Htx. cbn [firstn].
    split; [constructor; [assumption | constructor] |].
    intros ->. discriminate Hno.
Qed.

(** C5.  With [N] accounts to fund and a batch size [B > 0], the funding
    loop works through the partition of the accounts, in order, into
    [ceil (N / B)] batches, each of size [B] but the last, which may be
    smaller: the transactions it signs are, one after the other, those of
    the planned batches (all of them when the loop succeeds), and the
    transaction of a batch holds one transfer message per account of the
    batch, has gas limit [size * 100000] and fee
    [size * 100000 * 25000000000] in the configured denomination. *)
Theorem funding_batches_partition
  (cfg : seed.Config) (fundCoin : sdk.Coin) (restURL : string)
  (seedPrivKey seedAddr : list byte) (accountNum sequence : Z)
  (needsFunding : list (list byte)) (w : World) :
  0 < seed.BatchSize cfg < 2 ^ 63 ->
  Z.of_nat (length needsFunding) * 100000 < 2 ^ 63 ->
  let N := length needsFunding in
  let B := Z.to_nat (seed.BatchSize cfg) in
  let planned := batches B needsFunding in
  let run := seed.fundLoop node (seed.fundFuel needsFunding) cfg fundCoin
                           restURL seedPrivKey seedAddr accountNum
                           needsFunding 0 sequence w in
  let signed := signed_txs (rev (keys (since w (snd run)))) in
  Z.of_nat (length planned) = (Z.of_nat N + Z.of_nat B - 1) / Z.of_nat B
  /\ concat planned = needsFunding
  /\ (forall (k : nat) (batch : list (list byte)),
         planned !! k = Some batch ->
         batch = firstn B (skipn (k * B) needsFunding)
         /\ length batch = Nat.min B (N - k * B)
         /\ (0 < length batch)%nat)
  /\ fst run <> OutOfFuel
  /\ exists done : nat,
      Forall2 (funds cfg fundCoin seedAddr) signed (firstn done planned)
      /\ (fst run = Ok tt -> done = length planned).
Proof.
  intros HB Hn. cbv zeta.
  assert (HBnat : (0 < Z.to_nat (seed.BatchSize cfg))%nat) by lia.
  split; [apply batches_count; exact HBnat |].
  split; [apply batches_concat; exact HBnat |].
  split; [intros k batch; apply batches_lookup; exact HBnat |].
  destruct (seed.fundLoop node (seed.fundFuel needsFunding) cfg fundCoin
              restURL seedPrivKey seedAddr accountNum needsFunding 0
              sequence w) as [o w'] eqn:E.
  cbn [fst snd]. split.
  - eapply fundLoop_terminates in E; try eassumption; try lia.
    + unfold seed.fundFuel. lia.
    + unfold seed.fundFuel. lia.
  - apply fundLoop_run in E. destruct E as (ks & (evs & Et & Hk & _) & Hrun).
    rewrite (since_app _ _ _ Et), Hk.
    apply funding_run_batches in Hrun; [| lia | lia | lia | lia].
    exact Hrun.
Qed.

End Partition.

(* ================================================================== *)
(** * The example: ten workers, batches of four *)
(* ================================================================== *)

(** Three calls in a row on worker 0, whose account the ledger resolves to
    number 7 and sequence 100, sign with 100, 101 and 102. *)
Lemma generated_sequences_are_consecutive_witness :
  exists c,
    client.NewPerpxBankClient (H := fixture.library) fixture.loadCfg
      fixture.strategy "alice" 0 = Ok c
    /\ let run :=
         driver.generate (H := fixture.library)
           (fixture.ledger "" "" "" 0) 3
           {| client.self := c; client.world := fixture.start |} in
       flat_map (fun call => map snd (signed_with (snd call))) (fst run)
       = [100; 101; 102]
       /\ NoDup (flat_map (fun call => map snd (signed_with (snd call)))
                          (fst run))
       /\ client.sequence (client.self (snd run)) = 103.
Proof.
  eexists. split; [reflexivity |]. cbv zeta.
  match goal with
  | |- context [driver.generate ?node ?n ?st] =>
      destruct (generated_sequences_are_consecutive (H := fixture.library)
                  node st 7 100 n
                  (fst (driver.generate (H := fixture.library) node n st))
                  (snd (driver.generate (H := fixture.library) node n st)))
        as (_ & Hcounter & Hall)
  end.
  - right. split; [reflexivity |]. exists "7/100", "7", "100".
    repeat split; vm_compute; reflexivity.
  - apply surjective_pairing.
  - destruct Hall as [Hseqs Hnodup].
    + vm_compute. repeat constructor.
    + vm_compute. discriminate.
    + split; [exact Hseqs |]. split; [exact Hnodup |].
      apply Hcounter. lia.
Defined.

(** Bench key 3 of ten is the key of the client of worker 3. *)
Lemma account_derivation_agrees_witness :
  exists keys c,
    seed.benchKeys (H := fixture.library) 10 = Ok keys
    /\ client.NewPerpxBankClient (H := fixture.library) fixture.loadCfg
         fixture.strategy "alice" 3 = Ok c
    /\ keys !! 3%nat = Some (client.privKey c, client.addr c).
Proof.
  eexists _, _. split; [reflexivity |]. split; [reflexivity |].
  apply (account_derivation_agrees (H := fixture.library) 10 _ 3
           fixture.loadCfg fixture.strategy "alice" _ eq_refl
           ltac:(lia) eq_refl).
Defined.

(** A seed account that holds 5 where 10100000 are required: the planner
    stops with nothing signed or broadcast. *)
Lemma insufficient_funds_before_any_broadcast_witness :
  let node := fixture.ledger "5aperpx" "" "" 0 in
  let run := seed.seedAccounts (H := fixture.library) node fixture.cfg
                               fixture.start in
  fst run = Fail (Errorf "insufficient funds: seed has %s, needs %s"
                         [AInt 5; AInt 10100000])
  /\ broadcasts (snd run) = []
  /\ signs (since fixture.start (snd run)) = [].
Proof.
  cbv zeta.
  destruct (insufficient_funds_before_any_broadcast (H := fixture.library)
              (fixture.ledger "5aperpx" "" "" 0) fixture.cfg fixture.start
              fixture.fundCoin ({[ "aperpx" := 10100000 ]} : Coins)
              fixture.seedKey fixture.seedKey
              ({[ "aperpx" := 5 ]} : Coins))
    as (Hrun & _ & Hb & Hs & _).
  - split; [reflexivity |]. split; [vm_compute; reflexivity |].
    split; [vm_compute; reflexivity |].
    exists "5aperpx", [("aperpx", "5")].
    repeat split; vm_compute; reflexivity.
  - vm_compute. reflexivity.
  - split; [exact Hrun |]. split; [exact Hb | exact Hs].
Defined.

(** Ten accounts in batches of four: three batches, of sizes 4, 4 and 2,
    and the transactions signed are theirs. *)
Lemma funding_batches_partition_witness :
  let node := fixture.ledger "" "" "" 0 in
  let run := seed.fundLoop (H := fixture.library) node
               (seed.fundFuel fixture.workers) fixture.cfg fixture.fundCoin
               (seed.restURL_of (seed.RPC fixture.cfg))
               fixture.seedKey fixture.seedKey 7 fixture.workers 0 100
               fixture.start in
  let planned := batches 4 fixture.workers in
  map length planned = [4; 4; 2]%nat
  /\ Z.of_nat (length planned) = (10 + 4 - 1) / 4
  /\ Forall2 (funds (H := fixture.library) fixture.cfg fixture.fundCoin
                    fixture.seedKey)
             (signed_txs (rev (keys (since fixture.start (snd run)))))
             planned.
Proof.
  cbv zeta. split; [reflexivity |].
  destruct (funding_batches_partition (H := fixture.library)
              (fixture.ledger "" "" "" 0) fixture.cfg fixture.fundCoin
              (seed.restURL_of (seed.RPC fixture.cfg))
              fixture.seedKey fixture.seedKey 7 100 fixture.workers
              fixture.start ltac:(simpl; lia) ltac:(simpl; lia))
    as (Hcount & _ & _ & _ & done & Hall & Hok).
  split; [exact Hcount |].
  rewrite (Hok ltac:(vm_compute; reflexivity)) in Hall.
  rewrite firstn_all in Hall. exact Hall.
Defined.

(** On a ledger that knows no account, the first call of worker 0 fails
    and leaves the client as it was. *)
Lemma unresolved_account_error_witness :
  exists c,
    client.NewPerpxBankClient (H := fixture.library) fixture.loadCfg
      fixture.strategy "alice" 0 = Ok c
    /\ exists e st',
        client.GenerateTx (H := fixture.library) fixture.emptyLedger
          {| client.self := c; client.world := fixture.start |}
        = (Fail e, st')
        /\ Go.Contains (err_format e) "run 'seed' command first" = true
        /\ client.self st' = c.
Proof.
  eexists. split; [reflexivity |].
  match goal with
  | |- context [client.GenerateTx ?node ?st] =>
      destruct (unresolved_account_error (H := fixture.library) node st
                  eq_refl ltac:(vm_compute; discriminate))
        as (e & st' & Hrun & Hmsg & Hself & _)
  end.
  exists e, st'. split; [exact Hrun |]. split; [exact Hmsg | exact Hself].
Defined.

(** All ten workers funded and a seed account that covers the total: the
    planner succeeds with nothing signed or broadcast. *)
Lemma funded_accounts_are_left_alone_witness :
  let node := fixture.ledger "99999999999999999999aperpx" "1000000aperpx"
                             "1000000aperpx" 0 in
  let run := seed.seedAccounts (H := fixture.library) node fixture.cfg
                               fixture.start in
  broadcasts (snd run) = []
  /\ signs (since fixture.start (snd run)) = []
  /\ fst run = Ok tt.
Proof.
  cbv zeta.
  destruct (funded_accounts_are_left_alone (H := fixture.library)
              (fixture.ledger "99999999999999999999aperpx" "1000000aperpx"
                              "1000000aperpx" 0)
              fixture.cfg fixture.fundCoin fixture.start eq_refl
              (fixture_workers_funded "99999999999999999999aperpx"))
    as (Hb & Hs & Hok).
  split; [exact Hb |]. split; [exact Hs |].
  apply (Hok ({[ "aperpx" := 10100000 ]} : Coins) fixture.seedKey
             fixture.seedKey ({[ "aperpx" := 99999999999999999999 ]} : Coins)
             7 100).
  - split; [reflexivity |]. split; [vm_compute; reflexivity |].
    split; [vm_compute; reflexivity |].
    exists "99999999999999999999aperpx", [("aperpx", "99999999999999999999")].
    repeat split; vm_compute; reflexivity.
  - vm_compute. discriminate.
  - exists "7/100", "7", "100". repeat split; vm_compute; reflexivity.
  - vm_compute. discriminate.
Defined.

(** Worker 0 holds exactly the fund amount: it is funded for the pre-check
    and for the verification. *)
Lemma exact_balance_is_funded_witness :
  let node := fixture.ledger "" "1000000aperpx" "1000000aperpx" 0 in
  let restURL := seed.restURL_of (seed.RPC fixture.cfg) in
  let addr := snd (seed.benchKey (H := fixture.library) 0) in
  fst (seed.needsFunding1 (H := fixture.library) node fixture.cfg
         fixture.fundCoin restURL addr fixture.start) = Ok false
  /\ fst (seed.verify1 (H := fixture.library) node fixture.cfg
            fixture.fundCoin restURL true 0 addr fixture.start) = Ok true.
Proof.
  cbv zeta.
  destruct (exact_balance_is_funded (H := fixture.library)
              (fixture.ledger "" "1000000aperpx" "1000000aperpx" 0)
              fixture.cfg fixture.fundCoin
              (seed.restURL_of (seed.RPC fixture.cfg))
              (snd (seed.benchKey (H := fixture.library) 0)) fixture.start
              "1000000aperpx" [("aperpx", "1000000")]
              ({[ "aperpx" := 1000000 ]} : Coins))
    as (Hpre & Hpost & _).
  - vm_compute. reflexivity.
  - reflexivity.
  - vm_compute. reflexivity.
  - reflexivity.
  - vm_compute. reflexivity.
  - rewrite Hpre, Hpost. split; reflexivity.
Defined.

(* ================================================================== *)
(** * Endpoints: from the WebSocket URL to the REST URL *)
(* ================================================================== *)

Lemma String_length_drop (n : nat) : forall s : string,
  String.length (Go.drop n s) = (String.length s - n)%nat.
Proof.
  induction n as [| n IH]; intros s; [simpl; lia |].
  destruct s as [| c s]; [reflexivity |]. simpl. apply IH.
Qed.

Lemma String_length_take (n : nat) : forall s : string,
  String.length (Go.take n s) = Nat.min n (String.length s).
Proof.
  induction n as [| n IH]; intros s; [reflexivity |].
  destruct s as [| c s]; [reflexivity |]. simpl. rewrite IH. reflexivity.
Qed.

Lemma String_length_app (a b : string) :
  String.length (a ++ b) = (String.length a + String.length b)%nat.
Proof.
  induction a as [| c a IH]; simpl; [reflexivity | rewrite IH; reflexivity].
Qed.

Lemma String_eqb_length (s t : string) :
  String.eqb s t = true -> String.length s = String.length t.
Proof. intros E. apply String.eqb_eq in E. subst. reflexivity. Qed.

Lemma String_drop_app (a b : string) :
  Go.drop (String.length a) (a ++ b) = b.
Proof. induction a as [| c a IH]; [destruct b; reflexivity | exact IH]. Qed.

Lemma String_take_app (a b : string) :
  Go.take (String.length a) (a ++ b) = a.
Proof.
  induction a as [| c a IH]; [destruct b; reflexivity |].
  simpl. f_equal. exact IH.
Qed.

Lemma HasPrefix_app (p s : string) : Go.HasPrefix (p ++ s) p = true.
Proof.
  induction p as [| c p IH]; [destruct s; reflexivity |].
  simpl. rewrite Ascii.eqb_refl. exact IH.
Qed.

(** [s[:len(p)] == p] is [strings.HasPrefix(s, p)]. *)
Lemma take_HasPrefix (p : string) : forall s : string,
  String.eqb (Go.take (String.length p) s) p = Go.HasPrefix s p.
Proof.
  induction p as [| c p IH]; intros s; [destruct s; reflexivity |].
  destruct s as [| d s]; [reflexivity |].
  cbn [String.length Go.take Go.HasPrefix String.eqb].
  rewrite IH, (Ascii.eqb_sym d c).
  destruct (Ascii.eqb c d); reflexivity.
Qed.

Lemma Contains_nil (sub : string) :
  Go.Contains "" sub = Go.HasPrefix "" sub.
Proof. cbn [Go.Contains]. apply orb_false_r. Qed.

Lemma Contains_cons (c : ascii) (s sub : string) :
  Go.Contains (String c s) sub
  = Go.HasPrefix (String c s) sub || Go.Contains s sub.
Proof. reflexivity. Qed.

Lemma Contains_HasPrefix (s sub : string) :
  Go.HasPrefix s sub = true -> Go.Contains s sub = true.
Proof.
  intros E. destruct s; [rewrite Contains_nil; exact E |].
  cbn [Go.Contains]. rewrite E. reflexivity.
Qed.

(** Replacing something that does not occur changes nothing. *)
Lemma Replace1_absent (old new : string) : forall s : string,
  Go.Contains s old = false -> Go.Replace1 s old new = s.
Proof.
  induction s as [| c s IH]; intros E.
  - rewrite Contains_nil in E. cbn [Go.Replace1]. rewrite E. reflexivity.
  - rewrite Contains_cons in E. apply orb_false_iff in E. destruct E as [E1 E2].
    cbn [Go.Replace1]. rewrite E1. f_equal. apply IH, E2.
Qed.

(** After the replacement of an occurrence, the new text occurs. *)
Lemma Replace1_present (old new : string) : forall s : string,
  Go.Contains s old = true -> Go.Contains (Go.Replace1 s old new) new = true.
Proof.
  induction s as [| c s IH]; intros E.
  - rewrite Contains_nil in E. cbn [Go.Replace1]. rewrite E.
    apply Contains_HasPrefix, HasPrefix_app.
  - cbn [Go.Replace1]. destruct (Go.HasPrefix (String c s) old) eqn:Ep.
    + apply Contains_HasPrefix, HasPrefix_app.
    + rewrite Contains_cons, Ep in E. simpl in E.
      rewrite Contains_cons, (IH E). apply orb_true_r.
Qed.

Lemma ReplaceAll_absent (old new : string) : forall s : string,
  Go.Contains s old = false -> Go.ReplaceAll s old new = s.
Proof.
  unfold Go.ReplaceAll.
  induction s as [| c s IH]; intros E; [reflexivity |].
  rewrite Contains_cons in E. apply orb_false_iff in E. destruct E as [E1 E2].
  cbn [Go.ReplaceAll_from]. rewrite E1. f_equal. apply IH, E2.
Qed.

Lemma TrimSuffix_app (a suf : string) : Go.TrimSuffix (a ++ suf) suf = a.
Proof.
  unfold Go.TrimSuffix, Go.HasSuffix. rewrite String_length_app.
  replace (String.length a + String.length suf - String.length suf)%nat
    with (String.length a) by lia.
  rewrite String_drop_app, String_take_app, String.eqb_refl, andb_true_r.
  replace (String.length suf <=? String.length a + String.length suf)%nat
    with true by (symmetry; apply Nat.leb_le; lia).
  reflexivity.
Qed.

(** The suffix test of [convertWebSocketToHTTP] compares the last eleven
    bytes of the URL with a string of ten, so it never holds. *)
Lemma websocket_suffix_never (httpURL : string) :
  (Go.len httpURL >? 11)
  && String.eqb (Go.drop (String.length httpURL - 11) httpURL) "/websocket"
  = false.
Proof.
  destruct (Go.len httpURL >? 11) eqn:El; [| reflexivity].
  rewrite Z.gtb_ltb in El. apply Z.ltb_lt in El. unfold Go.len in El.
  destruct (String.eqb _ _) eqn:E; [| reflexivity].
  apply String_eqb_length in E. rewrite String_length_drop in E.
  simpl in E. lia.
Qed.

(** What [convertWebSocketToHTTP] comes to: the scheme is rewritten and
    the rest of the URL is kept. *)
Definition scheme_only (wsURL : string) : string :=
  if (Go.len wsURL >? 5) && Go.HasPrefix wsURL "ws://" then
    "http://" ++ Go.drop 5 wsURL
  else if (Go.len wsURL >? 6) && Go.HasPrefix wsURL "wss://" then
    "https://" ++ Go.drop 6 wsURL
  else wsURL.

Lemma convertWebSocketToHTTP_scheme_only (wsURL : string) :
  client.convertWebSocketToHTTP wsURL = scheme_only wsURL.
Proof.
  unfold client.convertWebSocketToHTTP, scheme_only.
  rewrite !websocket_suffix_never.
  rewrite <- (take_HasPrefix "ws://" wsURL), <- (take_HasPrefix "wss://" wsURL).
  reflexivity.
Qed.

Lemma convertWebSocketToHTTP_ws (host : string) :
  client.convertWebSocketToHTTP ("ws://" ++ host ++ "/websocket")
  = "http://" ++ host ++ "/websocket".
Proof.
  rewrite convertWebSocketToHTTP_scheme_only. unfold scheme_only, Go.len.
  rewrite HasPrefix_app, andb_true_r.
  replace (_ >? 5) with true; [reflexivity |].
  symmetry. rewrite Z.gtb_ltb. apply Z.ltb_lt.
  rewrite !String_length_app. simpl. lia.
Qed.

(** X1.  [convertWebSocketToHTTP] rewrites the scheme ([ws://] to
    [http://], [wss://] to [https://]) of a URL that has something after
    the scheme, and returns any other string as it is.  It never removes
    a trailing [/websocket], although it is written to: a URL
    [ws://host/websocket] becomes [http://host/websocket]. *)
Theorem convertWebSocketToHTTP_keeps_path (wsURL : string) :
  client.convertWebSocketToHTTP wsURL = scheme_only wsURL
  /\ (forall host : string,
         client.convertWebSocketToHTTP ("ws://" ++ host ++ "/websocket")
         = "http://" ++ host ++ "/websocket")
  /\ (forall host : string,
         client.convertWebSocketToHTTP ("wss://" ++ host ++ "/websocket")
         = "https://" ++ host ++ "/websocket").
Proof.
  split; [apply convertWebSocketToHTTP_scheme_only |].
  split; [apply convertWebSocketToHTTP_ws |].
  intros host. rewrite convertWebSocketToHTTP_scheme_only.
  unfold scheme_only, Go.len.
  replace (Go.HasPrefix ("wss://" ++ host ++ "/websocket") "ws://")
    with false by reflexivity.
  rewrite andb_false_r, HasPrefix_app, andb_true_r.
  replace (_ >? 6) with true; [reflexivity |].
  symmetry. rewrite Z.gtb_ltb. apply Z.ltb_lt.
  rewrite !String_length_app. simpl. lia.
Qed.

(** X2.  The REST URL the seed command infers from the RPC URL: the first
    [:36657] becomes [:31317]; failing that, a URL that already names
    [:31317] is kept; failing that, the first [:26657] becomes [:1317];
    failing that, a URL that already names [:1317] is kept; and any other
    URL is dropped for [http://localhost:31317].  So the REST URL always
    names port 31317 or port 1317. *)
Theorem restURL_of_cases (rpc : string) :
  seed.restURL_of rpc
  = (if Go.Contains rpc ":36657" then Go.Replace1 rpc ":36657" ":31317"
     else if Go.Contains rpc ":31317" then rpc
     else if Go.Contains rpc ":26657" then Go.Replace1 rpc ":26657" ":1317"
     else if Go.Contains rpc ":1317" then rpc
     else "http://localhost:31317")
  /\ (Go.Contains (seed.restURL_of rpc) ":31317" = true
      \/ Go.Contains (seed.restURL_of rpc) ":1317" = true).
Proof.
  unfold seed.restURL_of.
  destruct (Go.Contains rpc ":36657") eqn:E1.
  - rewrite (Replace1_present _ ":31317" _ E1). cbn [negb].
    split; [reflexivity | left; apply Replace1_present, E1].
  - rewrite (Replace1_absent _ ":31317" _ E1).
    destruct (Go.Contains rpc ":31317") eqn:E2; cbn [negb]; [auto |].
    destruct (Go.Contains rpc ":26657") eqn:E3.
    + rewrite (Replace1_present _ ":1317" _ E3). cbn [negb].
      split; [reflexivity | right; apply Replace1_present, E3].
    + rewrite (Replace1_absent _ ":1317" _ E3).
      destruct (Go.Contains rpc ":1317") eqn:E4; cbn [negb]; auto.
Qed.

Section Agreement.

Context `{Library}.

(** X3.  A load-test client given the WebSocket endpoint
    [ws://host/websocket] queries the same REST URL as the seed command
    given the RPC URL [http://host], as long as the URL does not contain
    [127.0.0.1], which the client alone rewrites to [localhost]; and it
    asks for the account of its worker at the address the seed command
    derives for that worker. *)
Theorem client_and_seed_use_the_same_rest_url
  (cfg : loadtest.Config) (strategy : strategies.BankSendStrategy)
  (seedKey : string) (id : Z) (host : string) (others : list string) :
  loadtest.Endpoints cfg = ("ws://" ++ host ++ "/websocket") :: others ->
  Go.Contains ("http://" ++ host) "127.0.0.1" = false ->
  exists c,
    client.NewPerpxBankClient cfg strategy seedKey id = Ok c
    /\ client.restURL c = seed.restURL_of ("http://" ++ host)
    /\ client.accountURL c
       = seed.accountURL (seed.restURL_of ("http://" ++ host))
                         (snd (seed.benchKey id)).
Proof.
  intros He Hlocal. unfold client.NewPerpxBankClient. rewrite He.
  cbn [head orPanic obind]. eexists. split; [reflexivity |].
  assert (Hrest :
    (if Go.len ("ws://" ++ host ++ "/websocket") >? 0
     then Go.ReplaceAll
            (Go.TrimSuffix
               (client.convertWebSocketToHTTP ("ws://" ++ host ++ "/websocket"))
               "/websocket") "127.0.0.1" "localhost"
     else "http://localhost:36657") = "http://" ++ host).
  { replace (Go.len ("ws://" ++ host ++ "/websocket") >? 0) with true
      by reflexivity.
    rewrite convertWebSocketToHTTP_ws.
    change ("http://" ++ host ++ "/websocket")
      with (("http://" ++ host) ++ "/websocket").
    rewrite TrimSuffix_app. apply ReplaceAll_absent, Hlocal. }
  unfold client.accountURL, seed.accountURL.
  cbn [client.restURL client.addr]. rewrite Hrest.
  split; reflexivity.
Qed.

End Agreement.

Lemma client_and_seed_use_the_same_rest_url_witness :
  exists c,
    client.NewPerpxBankClient (H := fixture.library) fixture.loadCfg
      fixture.strategy "alice" 3 = Ok c
    /\ client.restURL c = "http://localhost:31317"
    /\ seed.restURL_of (seed.RPC fixture.cfg) = "http://localhost:31317".
Proof.
  destruct (client_and_seed_use_the_same_rest_url (H := fixture.library)
              fixture.loadCfg fixture.strategy "alice" 3 "localhost:36657" []
              eq_refl eq_refl) as (c & Hc & Hrest & _).
  exists c. split; [exact Hc |]. split; [rewrite Hrest |]; reflexivity.
Defined.

(* ================================================================== *)
(** * The factory's checks, and the strategy's messages *)
(* ================================================================== *)

Section FactoryChecks.

Context `{Library}.

(** X4.  [ValidateConfig] accepts a configuration exactly when it has a
    positive number of connections, a positive time or a positive count,
    and at least one endpoint; otherwise it returns an error, and it
    never panics.  On a configuration it accepts, [NewClient] does not
    panic, whatever the environment and the state of the factory. *)
Theorem validated_config_never_panics (cfg : loadtest.Config) :
  (client.ValidateConfig cfg = Ok tt
   <-> 0 < loadtest.Connections cfg
       /\ (0 < loadtest.Time cfg \/ 0 < loadtest.Count cfg)
       /\ loadtest.Endpoints cfg <> [])
  /\ (client.ValidateConfig cfg = Ok tt
      \/ exists e, client.ValidateConfig cfg = Fail e)
  /\ (client.ValidateConfig cfg = Ok tt ->
      forall (Getenv : string -> string) (f : client.PerpxBankClientFactory)
             (p : string),
        fst (client.NewClient Getenv cfg f) <> Panic p).
Proof.
  assert (Hiff : client.ValidateConfig cfg = Ok tt
                 <-> 0 < loadtest.Connections cfg
                     /\ (0 < loadtest.Time cfg \/ 0 < loadtest.Count cfg)
                     /\ loadtest.Endpoints cfg <> []).
  { unfold client.ValidateConfig.
    destruct (loadtest.Connections cfg <=? 0) eqn:E1.
    { apply Z.leb_le in E1. split; [discriminate | lia]. }
    apply Z.leb_gt in E1.
    destruct (loadtest.Time cfg <=? 0) eqn:E2;
      destruct (loadtest.Count cfg <=? 0) eqn:E3; cbn [andb];
      try apply Z.leb_le in E2; try apply Z.leb_gt in E2;
      try apply Z.leb_le in E3; try apply Z.leb_gt in E3.
    { split; [discriminate | lia]. }
    all: destruct (loadtest.Endpoints cfg) as [| ep eps];
      cbn [length Z.of_nat Z.eqb];
      (split; [try discriminate; intros _; repeat split; try lia; discriminate
              | try reflexivity; intros (_ & _ & Hne); congruence]). }
  split; [exact Hiff |]. split.
  - unfold client.ValidateConfig.
    repeat match goal with
           | |- context [if ?b then _ else _] => destruct b; [eauto |]
           end.
    auto.
  - intros Hok Getenv f p. apply Hiff in Hok. destruct Hok as (_ & _ & Hne).
    destruct (client.NewClient Getenv cfg f) as [o f'] eqn:E. cbn [fst].
    intros ->. revert E.
    unfold client.NewClient, bind, wrapErr, pure.
    match goal with
    | |- context [strategies.NewBankSendStrategy ?a ?b ?c] =>
        destruct (NewBankSendStrategy_cases a b c) as [(s & ->) | (e & ->)]
    end; [| discriminate].
    cbn [client.AddInt64_workerCounter]. unfold client.NewPerpxBankClient.
    destruct (loadtest.Endpoints cfg); [congruence |].
    cbn [head orPanic obind ret]. discriminate.
Qed.

(** X5.  How [NewClient] fails.  Its only error is the one of the
    strategy (an empty chain ID, denomination or sink address, or a sink
    address that does not decode), and it leaves the factory's counter as
    it was; the error about the client itself is never returned.  It
    panics only on a configuration with no endpoint, and the worker ID
    is taken by then.  A client it returns carries the configuration and
    the strategy of the environment, and its account is not resolved. *)
Theorem NewClient_failure_modes
  (Getenv : string -> string) (cfg : loadtest.Config)
  (f : client.PerpxBankClientFactory) :
  let run := client.NewClient Getenv cfg f in
  let chainID := client.getEnv Getenv "LOADTEST_CHAIN_ID" "localperpxprotocol" in
  let denom := client.getEnv Getenv "LOADTEST_DENOM" "aperpx" in
  let sinkAddr :=
    client.getEnv Getenv "LOADTEST_SINK_ADDRESS"
                  "perpx1kyfmupa8z5jtxgf5f4gt285sepeg6eqnzvs25m" in
  let taken := Go.int64 (client.workerCounter f + 1) in
  fst run <> OutOfFuel
  /\ (forall e, fst run = Fail e ->
        e = Errorf "failed to create bank send strategy: %w" [AErr]
        /\ snd run = f
        /\ (chainID = "" \/ denom = "" \/ sinkAddr = ""
            \/ AccAddressFromBech32 sinkAddr = None))
  /\ (forall p, fst run = Panic p ->
        loadtest.Endpoints cfg = []
        /\ client.workerCounter (snd run) = taken)
  /\ (forall c, fst run = Ok c ->
        client.workerCounter (snd run) = taken
        /\ client.config c = cfg
        /\ client.strategy c
           = {| strategies.chainID := chainID; strategies.denom := denom;
                strategies.sinkAddr := sinkAddr |}
        /\ client.accountQueried c = false).
Proof.
  cbv zeta. unfold client.NewClient, bind, wrapErr, pure.
  unfold strategies.NewBankSendStrategy.
  destruct (String.eqb (client.getEnv Getenv "LOADTEST_CHAIN_ID" _) "") eqn:E1.
  { apply String.eqb_eq in E1. cbn [fst snd].
    split; [discriminate |]. split; [| split; discriminate].
    intros e [= <-]. repeat split; auto. }
  destruct (String.eqb (client.getEnv Getenv "LOADTEST_DENOM" _) "") eqn:E2.
  { apply String.eqb_eq in E2. cbn [fst snd].
    split; [discriminate |]. split; [| split; discriminate].
    intros e [= <-]. repeat split; auto. }
  destruct (String.eqb (client.getEnv Getenv "LOADTEST_SINK_ADDRESS" _) "")
    eqn:E3.
  { apply String.eqb_eq in E3. cbn [fst snd].
    split; [discriminate |]. split; [| split; discriminate].
    intros e [= <-]. repeat split; auto. }
  destruct (AccAddressFromBech32 _) as [sink |] eqn:E4; cbn [orFail obind].
  2: { cbn [fst snd].
       split; [discriminate |]. split; [| split; discriminate].
       intros e [= <-]. repeat split; auto 6. }
  cbn [client.AddInt64_workerCounter]. unfold client.NewPerpxBankClient.
  destruct (loadtest.Endpoints cfg) as [| ep eps];
    cbn [head orPanic obind ret fst snd client.workerCounter].
  - split; [discriminate |]. split; [discriminate |].
    split; [intros; split; reflexivity | discriminate].
  - split; [discriminate |]. split; [discriminate |].
    split; [discriminate |]. intros c [= <-]. repeat split.
Qed.

(** X6.  A strategy that [NewBankSendStrategy] returns holds the chain
    ID, the denomination and the sink address it was given, all three
    non-empty and the sink address decodable.  Its [CreateMsg] returns an
    error on a sender address that does not decode, and otherwise a
    transfer of exactly one base unit of the denomination from the sender
    to the sink; since the denomination was only checked for emptiness,
    [CreateMsg] panics when the SDK does not accept it. *)
Theorem CreateMsg_of_new_strategy
  (chainID denom sinkAddr : string) (s : strategies.BankSendStrategy) :
  strategies.NewBankSendStrategy chainID denom sinkAddr = Ok s ->
  s = {| strategies.chainID := chainID; strategies.denom := denom;
         strategies.sinkAddr := sinkAddr |}
  /\ chainID <> "" /\ denom <> "" /\ sinkAddr <> ""
  /\ AccAddressFromBech32 sinkAddr <> None
  /\ forall fromAddr : string,
      strategies.CreateMsg s fromAddr
      = match AccAddressFromBech32 fromAddr with
        | None => Fail (Errorf "invalid from address: %w" [AErr])
        | Some _ =>
            if ValidateDenom denom
            then Ok {| banktypes.FromAddress := fromAddr;
                       banktypes.ToAddress := sinkAddr;
                       banktypes.Amount := {[ denom := 1 ]} |}
            else Panic "invalid denom"
        end.
Proof.
  unfold strategies.NewBankSendStrategy.
  destruct (String.eqb chainID "") eqn:E1; [discriminate |].
  destruct (String.eqb denom "") eqn:E2; [discriminate |].
  destruct (String.eqb sinkAddr "") eqn:E3; [discriminate |].
  destruct (AccAddressFromBech32 sinkAddr) eqn:E4; [| discriminate].
  cbn [orFail obind]. intros [= <-].
  apply String.eqb_neq in E1, E2, E3.
  repeat split; try assumption; try discriminate.
  intros fromAddr. unfold strategies.CreateMsg.
  cbn [strategies.denom strategies.sinkAddr].
  destruct (AccAddressFromBech32 fromAddr); cbn [orFail obind]; [| reflexivity].
  unfold sdk.NewCoin, sdk.NewCoins1.
  destruct (ValidateDenom denom) eqn:Ed; cbn [negb obind]; [| reflexivity].
  change (1 <? 0) with false. cbn iota. cbn [obind sdk.Amount sdk.Denom].
  change (1 =? 0) with false. cbn iota. rewrite Ed. reflexivity.
Qed.

End FactoryChecks.

Lemma CreateMsg_of_new_strategy_witness :
  strategies.NewBankSendStrategy (H := fixture.library)
    "localperpxprotocol" "aperpx" "perpx1sink" = Ok fixture.strategy
  /\ strategies.CreateMsg (H := fixture.library) fixture.strategy "perpx1from"
     = Ok {| banktypes.FromAddress := "perpx1from";
             banktypes.ToAddress := "perpx1sink";
             banktypes.Amount := {[ "aperpx" := 1 ]} |}.
Proof.
  split; [reflexivity |].
  destruct (CreateMsg_of_new_strategy (H := fixture.library)
              "localperpxprotocol" "aperpx" "perpx1sink" fixture.strategy
              eq_refl) as (_ & _ & _ & _ & _ & Hmsg).
  rewrite Hmsg. reflexivity.
Defined.

(* ================================================================== *)
(** * The generator: the transaction, and the account resolution *)
(* ================================================================== *)

Section GeneratorMore.

Context `{Library} (node : Node).

(** X7.  What a successful [GenerateTx] builds, on a client whose
    account is resolved: one transaction, with a single message that
    sends one base unit of the strategy's denomination from the worker's
    address to the sink, gas limit 200000, fee 200000 times 25000000000
    in that denomination, and the placeholder signature of the worker's
    public key at the sequence number reserved; it is signed once, with
    the worker's key, and what is returned is the encoding of that
    transaction with the signature in place of the placeholder. *)
Theorem generated_transaction_content
  (st st' : client.State) (txBytes : list byte) :
  client.accountQueried (client.self st) = true ->
  client.GenerateTx node st = (Ok txBytes, st') ->
  let c := client.self st in
  let seq := Go.uint64 (client.sequence c) in
  let denom := strategies.denom (client.strategy c) in
  exists tx sig,
    since (client.world st) (client.world st')
    = [EvSign (signerDataOf c seq) tx seq]
    /\ Msgs tx
       = [{| banktypes.FromAddress := AccAddress_String (client.addr c);
             banktypes.ToAddress := strategies.sinkAddr (client.strategy c);
             banktypes.Amount := {[ denom := 1 ]} |}]
    /\ GasLimit tx = 200000
    /\ FeeAmount tx = {[ denom := 200000 * 25000000000 ]}
    /\ Signatures tx
       = [{| signing.PubKey := PrivKey_PubKey (client.privKey c);
             signing.Signature := None;
             signing.Sequence := seq |}]
    /\ SignWithPrivKey (signerDataOf c seq) tx (client.privKey c) seq = Some sig
    /\ TxEncoder (withSignatures [sig] tx) = Some txBytes.
Proof.
  intros Hq. unfold client.GenerateTx. unfold bind at 1.
  rewrite (ensureAccountQueried_resolved node st Hq).
  unfold bind at 1. cbn [client.AddUint64_sequence].
  rewrite uint64_pred_succ.
  unfold bind at 1. unfold get at 1.
  cbn [client.self client.world client.setSequence client.strategy client.addr
       client.privKey client.accountNum].
  fold (signerDataOf (client.self st) (Go.uint64 (client.sequence (client.self st)))).
  unfold client.inWorld, emit, modify.
  repeat (unfold_monad; case_step);
    unfold_monad; intros E; try discriminate E.
  injection E as <- <-. cbn [client.self client.world].
  repeat match goal with
         | Hs : SetMsgs _ _ = Some _ |- _ =>
             unfold SetMsgs in Hs; destruct (SetMsgs_ok _); [| discriminate Hs];
             injection Hs as <-
         | Hs : SetSignatures _ _ = Some _ |- _ =>
             unfold SetSignatures in Hs; destruct (SetSignatures_ok _);
             [| discriminate Hs]; injection Hs as <-
         end.
  match goal with
  | Hm : sdk.Mul _ _ = Ok _ |- _ =>
      unfold sdk.Mul in Hm; apply Int_checked_Ok_inv in Hm; subst
  end.
  match goal with
  | Hc : sdk.NewCoin _ _ _ = Ok _ |- _ =>
      apply NewCoin_Ok_inv in Hc; destruct Hc as (-> & Hdenom & _)
  end.
  match goal with
  | Hc : sdk.NewCoins1 _ _ = Ok _ |- _ =>
      unfold sdk.NewCoins1 in Hc; cbn [sdk.Amount sdk.Denom] in Hc;
      rewrite Hdenom in Hc;
      change (Go.int64 (Go.uint64 200000)) with 200000 in Hc;
      cbn in Hc; injection Hc as <-
  end.
  match goal with
  | Hc : strategies.CreateMsg _ _ = Ok _ |- _ =>
      unfold strategies.CreateMsg in Hc;
      destruct (AccAddressFromBech32 _); [| discriminate Hc];
      cbn [orFail obind] in Hc; unfold sdk.NewCoin, sdk.NewCoins1 in Hc;
      rewrite Hdenom in Hc; cbn in Hc; rewrite Hdenom in Hc; cbn in Hc;
      injection Hc as <-
  end.
  match goal with
  | Hsig : SignWithPrivKey _ _ _ _ = Some ?s |- _ => eexists _, s
  end.
  split.
  { erewrite since_app; [reflexivity |]. cbn [trace]. reflexivity. }
  cbn [Msgs GasLimit FeeAmount Signatures withSignatures SetGasLimit
       SetFeeAmount withMsgs NewTxBuilder].
  repeat split; try reflexivity; assumption.
Qed.

(** X8.  [ensureAccountQueried] on a resolved client does nothing, so
    the ledger is asked about the account at most once after it has
    answered.  On an unresolved client it makes exactly one query; when
    the reply resolves the account (status 200, a body that decodes, a
    number and a sequence that parse as unsigned 64-bit decimals) the
    client takes them and is resolved; on any other reply it returns an
    error and leaves the client as it was, unresolved, so that the next
    call asks again.  It never panics. *)
Theorem account_resolution_outcomes (st : client.State) :
  let run := client.ensureAccountQueried node st in
  let c := client.self st in
  let reply := http_Get node (tick (client.world st)) (client.accountURL c) in
  (client.accountQueried c = true -> run = (Ok tt, st))
  /\ (client.accountQueried c = false ->
      client.world (snd run)
      = interact node (EvGet (client.accountURL c)) 0 (client.world st)
      /\ ((exists a s,
              fst run = Ok tt /\ resolves reply a s
              /\ client.self (snd run) = client.setAccount a s c)
          \/ (exists e,
                fst run = Fail e /\ client.self (snd run) = c
                /\ forall a s, ~ resolves reply a s))).
Proof.
  cbv zeta. split; [apply ensureAccountQueried_resolved |].
  intros Hq. unfold client.ensureAccountQueried, bind, get. rewrite Hq.
  unfold client.inWorld, Get, resolves.
  destruct (http_Get node _ _) as [resp | resp] eqn:Hr.
  2: { cbn [fst snd client.self client.world]. split; [reflexivity |].
       right. eexists. repeat split.
       intros a s (body & an & sq & Hr' & _). discriminate Hr'. }
  destruct (StatusCode resp =? 200) eqn:Est; cbn [negb].
  2: { cbn [fst snd client.self client.world]. split; [reflexivity |].
       right. eexists. repeat split.
       intros a s (body & an & sq & Hr' & _). injection Hr' as ->.
       discriminate Est. }
  apply Z.eqb_eq in Est. destruct resp as [code body]. cbn in Est. subst code.
  cbn [Body]. unfold try, pure, modify.
  destruct (json_account body) as [[an sq] |] eqn:Hj; cbn [orFail fst snd].
  2: { cbn [fst snd client.self client.world]. split; [reflexivity |].
       right. eexists. repeat split.
       intros a s (body' & an & sq & Hr' & Hj' & _). injection Hr' as <-.
       congruence. }
  destruct (Go.ParseUint an) as [a |] eqn:Ha; cbn [orFail].
  2: { cbn [fst snd client.self client.world]. split; [reflexivity |].
       right. eexists. repeat split.
       intros a s (body' & an' & sq' & Hr' & Hj' & Ha' & _).
       injection Hr' as <-. congruence. }
  destruct (Go.ParseUint sq) as [s |] eqn:Hs; cbn [orFail].
  2: { cbn [fst snd client.self client.world]. split; [reflexivity |].
       right. eexists. repeat split.
       intros a' s (body' & an' & sq' & Hr' & Hj' & _ & Hs').
       injection Hr' as <-. congruence. }
  cbn [fst snd client.self client.world]. split; [reflexivity |].
  left. exists a, s. repeat split. exists body, an, sq. auto.
Qed.

End GeneratorMore.

Lemma generated_transaction_content_witness :
  exists c,
    client.NewPerpxBankClient (H := fixture.library) fixture.loadCfg
      fixture.strategy "alice" 0 = Ok c
    /\ let st := {| client.self := client.setAccount 7 100 c;
                    client.world := fixture.start |} in
       let run := client.GenerateTx (H := fixture.library)
                    fixture.emptyLedger st in
       exists tx,
         map fst (map fst (signs (since fixture.start (client.world (snd run)))))
         = [signerDataOf (H := fixture.library) (client.self st) 100]
         /\ since fixture.start (client.world (snd run))
            = [EvSign (signerDataOf (H := fixture.library) (client.self st) 100)
                      tx 100]
         /\ length (Msgs tx) = 1%nat
         /\ GasLimit tx = 200000
         /\ FeeAmount tx = {[ "aperpx" := 5000000000000000 ]}.
Proof.
  eexists. split; [reflexivity |]. cbv zeta.
  match goal with
  | |- context [client.GenerateTx ?node ?st] =>
      destruct (client.GenerateTx (H := fixture.library) node st)
        as [o st'] eqn:E;
      assert (Ho : o = Ok (list_byte_of_string "100"))
        by (apply (f_equal fst) in E; cbn [fst] in E; rewrite <- E;
            vm_compute; reflexivity);
      subst o;
      destruct (generated_transaction_content (H := fixture.library)
                  node st st' (list_byte_of_string "100") eq_refl E)
        as (tx & sig & Hsince & Hmsgs & Hgas & Hfee & _)
  end.
  exists tx. cbn [snd]. cbn [client.world] in Hsince.
  split; [rewrite Hsince; reflexivity |]. split; [exact Hsince |].
  split; [rewrite Hmsgs; reflexivity |].
  split; [exact Hgas | exact Hfee].
Defined.

(* ================================================================== *)
(** * The seed command: its options *)
(* ================================================================== *)

Section ArgsFacts.

Variable Getenv : string -> string.
Variable Atoi : string -> Z.

(** What is left of [cfg0] in [cfg] when an option does not occur among
    [args]. *)
Definition kept (args : list string) (cfg0 cfg : seed.Config) : Prop :=
  (~ In "--workers" args -> ~ In "-w" args ->
   seed.Workers cfg = seed.Workers cfg0)
  /\ (~ In "--seed-key" args -> ~ In "-k" args ->
      seed.SeedKey cfg = seed.SeedKey cfg0)
  /\ (~ In "--seed-private-key" args -> ~ In "--private-key" args ->
      ~ In "-p" args ->
      seed.SeedPrivateKey cfg = seed.SeedPrivateKey cfg0)
  /\ (~ In "--rpc" args -> ~ In "-r" args -> seed.RPC cfg = seed.RPC cfg0)
  /\ (~ In "--chain-id" args -> seed.ChainID cfg = seed.ChainID cfg0)
  /\ (~ In "--denom" args -> seed.Denom cfg = seed.Denom cfg0)
  /\ (~ In "--fund-amount" args -> seed.FundAmount cfg = seed.FundAmount cfg0)
  /\ (~ In "--batch-size" args -> seed.BatchSize cfg = seed.BatchSize cfg0).

Lemma case_In (arg : string) (ns : list string) :
  seed.case arg ns = true <-> In arg ns.
Proof.
  unfold seed.case. rewrite existsb_exists. split.
  - intros (x & Hin & E). apply String.eqb_eq in E. subst. exact Hin.
  - intros Hin. exists arg. split; [exact Hin | apply String.eqb_refl].
Qed.

Lemma kept_refl args cfg : kept args cfg cfg.
Proof. unfold kept. repeat split; reflexivity. Qed.

(** The option does not occur after its value either. *)
Ltac absent :=
  let Hin := fresh "Hin" in
  intros Hin;
  match goal with
  | Hn : ~ (_ \/ _ \/ In _ _) |- _ => apply Hn; right; right; exact Hin
  end.

(** The option that is being set does occur. *)
Ltac present E :=
  exfalso; cbn [In] in E;
  repeat (destruct E as [E | E];
          [ subst;
            match goal with
            | Hn : ~ (?a = ?a \/ _) |- _ => apply Hn; left; reflexivity
            end
          | ]);
  exact E.

(** An option that takes a value: without one it is skipped, with one
    the loop goes on after the value. *)
Ltac with_value IH :=
  lazymatch goal with
  | E : In ?arg _
    |- match match ?rest with [] => _ | v :: rest' => _ end with _ => _ end =>
      destruct rest as [| v rest']; [apply kept_refl |];
      lazymatch goal with
      | |- match seed.parseLoop _ ?r ?c with _ => _ end =>
          let IH' := fresh "IH" in
          pose proof (IH r c ltac:(cbn [length] in *; lia)) as IH';
          destruct (seed.parseLoop Atoi r c);
          [ destruct IH' as (K1 & K2 & K3 & K4 & K5 & K6 & K7 & K8);
            unfold kept; cbn [In];
            repeat split; intros;
            first
              [ etransitivity;
                [ first [apply K1 | apply K2 | apply K3 | apply K4
                        | apply K5 | apply K6 | apply K7 | apply K8];
                  absent
                | reflexivity ]
              | present E ]
          | cbn [In]; tauto ]
      end
  end.

Lemma parseLoop_kept (n : nat) :
  forall args cfg0,
    (length args <= n)%nat ->
    match seed.parseLoop Atoi args cfg0 with
    | seed.HelpExit => In "--help" args \/ In "-h" args
    | seed.Returns cfg => kept args cfg0 cfg
    end.
Proof.
  induction n as [| n IH]; intros args cfg0 Hlen.
  { destruct args; [apply kept_refl | simpl in Hlen; lia]. }
  destruct args as [| arg rest]; [apply kept_refl |].
  cbn [seed.parseLoop].
  repeat lazymatch goal with
         | |- match (if seed.case arg ?ns then _ else _) with _ => _ end =>
             let E := fresh "E" in
             destruct (seed.case arg ns) eqn:E;
             [apply case_In in E | clear E]
         end.
  1-8: with_value IH.
  - cbn [In] in *. intuition auto.
  - pose proof (IH rest cfg0 ltac:(cbn [length] in *; lia)) as IH'.
    destruct (seed.parseLoop Atoi rest cfg0).
    + unfold kept in *. cbn [In]. intuition auto.
    + cbn [In]. tauto.
Qed.

(** X14.  [parseArgs] leaves the process (after the help text) only when
    [--help] or [-h] is among the arguments.  In the configuration it
    returns, a field whose option does not occur among the arguments has
    its default: 10 workers, batches of 50, and for the other fields the
    value of the environment variable, or the built-in default when the
    variable is unset or empty. *)
Theorem parseArgs_keeps_defaults (args : list string) :
  match seed.parseArgs Getenv Atoi args with
  | seed.HelpExit => In "--help" args \/ In "-h" args
  | seed.Returns cfg =>
      (~ In "--workers" args -> ~ In "-w" args -> seed.Workers cfg = 10)
      /\ (~ In "--seed-key" args -> ~ In "-k" args ->
          seed.SeedKey cfg = seed.getEnv Getenv "LOADTEST_SEED_KEY" "alice")
      /\ (~ In "--seed-private-key" args -> ~ In "--private-key" args ->
          ~ In "-p" args ->
          seed.SeedPrivateKey cfg
          = seed.getEnv Getenv "LOADTEST_SEED_PRIVATE_KEY" "")
      /\ (~ In "--rpc" args -> ~ In "-r" args ->
          seed.RPC cfg
          = seed.getEnv Getenv "LOADTEST_RPC" "http://localhost:36657")
      /\ (~ In "--chain-id" args ->
          seed.ChainID cfg
          = seed.getEnv Getenv "LOADTEST_CHAIN_ID" "localperpxprotocol")
      /\ (~ In "--denom" args ->
          seed.Denom cfg = seed.getEnv Getenv "LOADTEST_DENOM" "aperpx")
      /\ (~ In "--fund-amount" args ->
          seed.FundAmount cfg
          = seed.getEnv Getenv "LOADTEST_FUND_AMOUNT" "1000000aperpx")
      /\ (~ In "--batch-size" args -> seed.BatchSize cfg = 50)
  end.
Proof.
  unfold seed.parseArgs.
  pose proof (parseLoop_kept (length args) args
                {| seed.Workers := 10;
                   seed.SeedKey := seed.getEnv Getenv "LOADTEST_SEED_KEY" "alice";
                   seed.SeedPrivateKey :=
                     seed.getEnv Getenv "LOADTEST_SEED_PRIVATE_KEY" "";
                   seed.RPC :=
                     seed.getEnv Getenv "LOADTEST_RPC" "http://localhost:36657";
                   seed.ChainID :=
                     seed.getEnv Getenv "LOADTEST_CHAIN_ID"
                                 seed.defaultChainID;
                   seed.Denom :=
                     seed.getEnv Getenv "LOADTEST_DENOM" seed.defaultDenom;
                   seed.FundAmount :=
                     seed.getEnv Getenv "LOADTEST_FUND_AMOUNT"
                                 seed.defaultFundAmount;
                   seed.BatchSize := seed.defaultBatchSize |}
                (Nat.le_refl _)) as Hk.
  destruct (seed.parseLoop Atoi args _); exact Hk.
Qed.

End ArgsFacts.

(* ================================================================== *)
(** * The seed command: the seed key, and configurations out of range *)
(* ================================================================== *)

Section EdgeCases.

Context `{Library} (node : Node).

(** X9.  A private key that is given takes precedence: the seed identity
    then depends on nothing else of the configuration, in particular not
    on the seed key, and an optional [0x] in front of the key makes no
    difference.  When the identity is returned, the key decodes to
    exactly 32 bytes, and the address is the one of its public key. *)
Theorem seed_private_key_takes_precedence (cfg cfg' : seed.Config) :
  seed.SeedPrivateKey cfg <> "" ->
  seed.SeedPrivateKey cfg' = seed.SeedPrivateKey cfg
  \/ (seed.SeedPrivateKey cfg' = "0x" ++ seed.SeedPrivateKey cfg
      /\ Go.HasPrefix (seed.SeedPrivateKey cfg) "0x" = false) ->
  seed.seedIdentity cfg' = seed.seedIdentity cfg
  /\ forall seedPrivKey seedAddr,
      seed.seedIdentity cfg = Ok (seedPrivKey, seedAddr) ->
      exists keyBytes,
        hex_DecodeString (Go.TrimPrefix (seed.SeedPrivateKey cfg) "0x")
        = Some keyBytes
        /\ length keyBytes = 32%nat
        /\ seedPrivKey = btcec_PrivKeyFromBytes keyBytes
        /\ seedAddr = PubKey_Address (PrivKey_PubKey seedPrivKey).
Proof.
  intros Hne Hkey.
  assert (Hset : String.eqb (seed.SeedPrivateKey cfg) "" = false)
    by (apply String.eqb_neq, Hne).
  assert (Hset' : String.eqb (seed.SeedPrivateKey cfg') "" = false).
  { destruct Hkey as [-> | [-> _]]; [exact Hset | reflexivity]. }
  assert (Htrim : Go.TrimPrefix (seed.SeedPrivateKey cfg') "0x"
                  = Go.TrimPrefix (seed.SeedPrivateKey cfg) "0x").
  { destruct Hkey as [-> | [-> Hp]]; [reflexivity |].
    unfold Go.TrimPrefix. rewrite Hp, HasPrefix_app.
    apply (String_drop_app "0x"). }
  unfold seed.seedIdentity. rewrite Hset, Hset', Htrim. cbn [negb].
  split; [reflexivity |].
  intros seedPrivKey seedAddr.
  destruct (hex_DecodeString _) as [keyBytes |]; [| discriminate].
  cbn [orFail obind].
  destruct (Z.of_nat (length keyBytes) =? 32) eqn:El; [| discriminate].
  cbn [negb]. intros [= <- <-]. exists keyBytes.
  apply Z.eqb_eq in El. repeat split. lia.
Qed.

(** X10.  With a negative number of workers the seed command panics
    while it computes the total required, on the negative fee reserve
    (or before that), and has done nothing by then: no query, no print.
    The bound keeps [Workers * 10000] within a 64-bit integer. *)
Theorem negative_workers_panic
  (cfg : seed.Config) (fundCoin : sdk.Coin) (w : World) :
  ParseCoinNormalized (seed.FundAmount cfg) = Some fundCoin ->
  - 922337203685477 <= seed.Workers cfg < 0 ->
  exists p, seed.seedAccounts node cfg w = (Panic p, w).
Proof.
  intros Hcoin Hw. unfold seed.seedAccounts. rewrite Hcoin.
  unfold bind at 1. cbn [try pure orFail]. unfold bind at 1.
  assert (Hp : exists p, seed.totalRequired cfg fundCoin = Panic p).
  { unfold seed.totalRequired, sdk.Mul.
    destruct (Int_checked_cases (sdk.Amount fundCoin * Go.int64 (seed.Workers cfg)))
      as [-> | (p & ->)]; [| eauto].
    cbn [obind]. rewrite (int64_small (seed.Workers cfg)) by lia.
    rewrite (int64_small (seed.Workers cfg * 10000)) by lia.
    unfold sdk.NewCoin. destruct (negb _); [eauto |].
    replace (seed.Workers cfg * 10000 <? 0) with true
      by (symmetry; apply Z.ltb_lt; lia).
    eauto. }
  destruct Hp as (p & ->). exists p. reflexivity.
Qed.

(** X11.  With a batch size that is not positive and at least one
    account to fund, the funding loop never succeeds and no batch is
    ever reported as included.  A negative batch size makes the first
    slice panic before anything is built.  With batch size zero the
    loop builds at most one transaction, which has no message and gas
    limit zero; it may sign and even broadcast it before it stops. *)
Theorem nonpositive_batch_size_never_funds
  (cfg : seed.Config) (fundCoin : sdk.Coin) (restURL : string)
  (seedPrivKey seedAddr : list byte) (accountNum sequence : Z)
  (needsFunding : list (list byte)) (w : World) :
  - 2 ^ 63 <= seed.BatchSize cfg <= 0 ->
  needsFunding <> [] ->
  Z.of_nat (length needsFunding) < 2 ^ 62 ->
  let run := seed.fundLoop node (seed.fundFuel needsFunding) cfg fundCoin
                           restURL seedPrivKey seedAddr accountNum
                           needsFunding 0 sequence w in
  let ks := rev (keys (since w (snd run))) in
  is_Ok (fst run) = false
  /\ fst run <> OutOfFuel
  /\ ~ In KIncluded ks
  /\ (seed.BatchSize cfg < 0 ->
      run = (Panic "slice bounds out of range", w))
  /\ (seed.BatchSize cfg = 0 ->
      (length (signed_txs ks) <= 1)%nat
      /\ forall tx, In tx (signed_txs ks) -> Msgs tx = [] /\ GasLimit tx = 0).
Proof.
  intros HB Hne Hn. cbv zeta. unfold seed.fundFuel. cbn [seed.fundLoop].
  assert (Hlen : 0 < Z.of_nat (length needsFunding))
    by (destruct needsFunding; [congruence | cbn [length]; lia]).
  replace (0 <? Z.of_nat (length needsFunding)) with true
    by (symmetry; apply Z.ltb_lt; exact Hlen).
  unfold bind.
  destruct (seed.fundBatch node cfg fundCoin restURL seedPrivKey seedAddr
              accountNum needsFunding 0 sequence w) as [o w'] eqn:E.
  assert (Hno : is_Ok o = false)
    by (eapply fundBatch_no_progress; [exact HB | | exact Hn | exact E]; lia).
  pose proof (fundBatch_did node _ _ _ _ _ _ _ _ _ _ _ _ E) as Hdid.
  cbv zeta in Hdid.
  destruct Hdid as [(-> & _) | (_ & Hnf & Hdid)]; [discriminate Hno |].
  assert (Hrun : (match o with
                  | Ok _ =>
                      seed.fundLoop node (length needsFunding) cfg fundCoin
                        restURL seedPrivKey seedAddr accountNum needsFunding
                        (Go.int64 (0 + seed.BatchSize cfg))
                        (Go.uint64 (sequence + 1)) w'
                  | Fail e => (Fail e, w')
                  | Panic p => (Panic p, w')
                  | OutOfFuel => (OutOfFuel, w')
                  end) = (o, w'))
    by (destruct o; [discriminate Hno | reflexivity ..]).
  rewrite Hrun. cbn [fst snd].
  split; [exact Hno |]. split; [exact Hnf |].
  assert (Hks : keys (since w w') = []
                \/ exists sign,
                    signed_batch cfg fundCoin seedPrivKey seedAddr accountNum
                                 needsFunding 0 sequence sign
                    /\ (rev (keys (since w w')) = [sign]
                        \/ exists txBytes,
                            rev (keys (since w w')) = [sign; KBroadcast txBytes])).
  { destruct Hdid as [(evs & Et & Hk & _)
                     | (sign & Hsign & [(evs & Et & Hk & _)
                                       | (txBytes & (evs & Et & Hk & _) & _)])];
      rewrite (since_app _ _ _ Et), Hk; eauto 7. }
  split; [| split].
  - destruct Hks as [-> | (sign & (batch & tx & _ & _ & ->) & [-> | (b & ->)])];
      cbn; intuition discriminate.
  - intros Hneg. revert E. unfold seed.fundBatch. cbv zeta.
    fold (batch_at cfg needsFunding 0).
    rewrite batch_at_negative by lia.
    unfold bind, must, pure, orPanic. intros [= <- <-]. reflexivity.
  - intros H0.
    destruct Hks as [Hk | (sign & (batch & tx' & Hat & Htx & ->) & Hk)].
    { rewrite Hk. split; [cbn; lia | intros tx []]. }
    assert (Hsigned : signed_txs (rev (keys (since w w'))) = [tx'])
      by (destruct Hk as [-> | (b & ->)]; reflexivity).
    rewrite Hsigned. split; [cbn; lia |].
    intros tx [<- | []].
    assert (Hb : batch = []).
    { revert Hat. unfold batch_at. rewrite H0. cbv zeta.
      rewrite Z.add_0_r. change (Go.int64 0) with 0.
      replace (0 >? Z.of_nat (length needsFunding)) with false
        by (symmetry; rewrite Z.gtb_ltb; apply Z.ltb_ge; lia).
      unfold Go.slice. cbn. destruct (0 <=? Z.of_nat (length needsFunding));
        intros [= <-]; reflexivity. }
    subst batch.
    destruct Htx as (msgs & feeAmount & feeCoin & feeCoins & Hb).
    cbv zeta in Hb. destruct Hb as (Hmsgs & _ & _ & _ & ->).
    cbn in Hmsgs. injection Hmsgs as <-. split; reflexivity.
Qed.

End EdgeCases.

Lemma seed_private_key_takes_precedence_witness :
  let cfg := seed.setSeedPrivateKey "0123456789abcdef0123456789abcdef"
                                    fixture.cfg in
  let cfg' := seed.setSeedKey "bob"
                (seed.setSeedPrivateKey "0x0123456789abcdef0123456789abcdef"
                                        fixture.cfg) in
  seed.seedIdentity (H := fixture.library) cfg'
  = seed.seedIdentity (H := fixture.library) cfg
  /\ is_Ok (seed.seedIdentity (H := fixture.library) cfg) = true.
Proof.
  cbv zeta.
  destruct (seed_private_key_takes_precedence (H := fixture.library)
              (seed.setSeedPrivateKey "0123456789abcdef0123456789abcdef"
                                      fixture.cfg)
              (seed.setSeedKey "bob"
                 (seed.setSeedPrivateKey "0x0123456789abcdef0123456789abcdef"
                                         fixture.cfg))
              ltac:(discriminate) (or_intror (conj eq_refl eq_refl)))
    as [Hsame _].
  split; [exact Hsame | reflexivity].
Defined.

Lemma negative_workers_panic_witness :
  exists p,
    seed.seedAccounts (H := fixture.library) fixture.emptyLedger
                      (seed.setWorkers (-3) fixture.cfg) fixture.start
    = (Panic p, fixture.start).
Proof.
  apply (negative_workers_panic (H := fixture.library) fixture.emptyLedger
           (seed.setWorkers (-3) fixture.cfg) fixture.fundCoin fixture.start
           eq_refl).
  cbn. lia.
Defined.

Lemma nonpositive_batch_size_never_funds_witness :
  let run := seed.fundLoop (H := fixture.library) (fixture.ledger "" "" "" 0)
               (seed.fundFuel fixture.workers)
               (seed.setBatchSize 0 fixture.cfg) fixture.fundCoin
               (seed.restURL_of (seed.RPC fixture.cfg))
               fixture.seedKey fixture.seedKey 7 fixture.workers 0 100
               fixture.start in
  is_Ok (fst run) = false
  /\ ~ In KIncluded (rev (keys (since fixture.start (snd run))))
  /\ (length (signed_txs (rev (keys (since fixture.start (snd run))))) <= 1)%nat.
Proof.
  cbv zeta.
  destruct (nonpositive_batch_size_never_funds (H := fixture.library)
              (fixture.ledger "" "" "" 0) (seed.setBatchSize 0 fixture.cfg)
              fixture.fundCoin (seed.restURL_of (seed.RPC fixture.cfg))
              fixture.seedKey fixture.seedKey 7 100 fixture.workers
              fixture.start)
    as (Hno & _ & Hinc & _ & Hzero).
  - cbn. lia.
  - intros Hw. apply (f_equal (@length _)) in Hw. discriminate Hw.
  - cbn. lia.
  - split; [exact Hno |]. split; [exact Hinc |]. apply Hzero. reflexivity.
Defined.

(* ================================================================== *)
(** * The seed command: polling for inclusion *)
(* ================================================================== *)

Definition is_get (e : Event) : bool :=
  match e with EvGet _ => true | _ => false end.

(** The number of HTTP queries among [evs]. *)
Definition queries (evs : list Event) : nat := length (filter is_get evs).

(** [w'] comes after [w], with [n] HTTP queries in between. *)
Definition queried (w w' : World) (n : nat) : Prop :=
  exists evs,
    trace w' = (evs ++ trace w)%list /\ queries evs = n /\ now w <= now w'.

Lemma queries_app (evs1 evs2 : list Event) :
  queries (evs1 ++ evs2) = (queries evs1 + queries evs2)%nat.
Proof. unfold queries. rewrite filter_app, length_app. reflexivity. Qed.

(** The events of [t] on top of [base]. *)
Ltac events_on t base :=
  lazymatch t with
  | base => constr:(@nil Event)
  | ?e :: ?t' => let r := events_on t' base in constr:(e :: r)
  end.

Ltac show_queried :=
  lazymatch goal with
  | |- queried ?w ?w' _ =>
      let t := eval cbn [trace interact] in (trace w') in
      let evs := events_on t (trace w) in
      exists evs; split; [reflexivity |]; split; [reflexivity |];
      cbn [now interact]; lia
  end.

Section Polling.

Context `{Library} (node : Node).

(** One poll is one query. *)
Lemma pollOnce_queried cfg restURL txHash n i w o w' :
  seed.pollOnce node cfg restURL txHash n i w = (o, w') ->
  queried w w' 1.
Proof.
  unfold seed.pollOnce, seed.totalBatches, seed.batchNumber, Get, Printf, emit.
  repeat (unfold_monad; case_step);
    unfold_monad; intros E; injection E as <- <-; show_queried.
Qed.

(** The polls of the loop fit in what is left of [maxWait], one per
    [pollInterval], and the loop gives up only when [maxWait] is over. *)
Lemma pollLoop_queried cfg restURL txHash n i startTime (fuel : nat) :
  forall w o w',
    seed.pollLoop node fuel cfg restURL txHash n i startTime w = (o, w') ->
    exists k : nat,
      queried w w' k
      /\ (k = 0%nat
          \/ seed.pollInterval * Z.of_nat k
             <= seed.maxWait - (now w - startTime) + (seed.pollInterval - 1))
      /\ (o = Ok false -> seed.maxWait <= now w' - startTime).
Proof.
  unfold seed.maxWait, seed.pollInterval.
  induction fuel as [| fuel IH]; intros w o w'.
  - intros [= <- <-]. exists 0%nat.
    split; [exists []; repeat split; lia |]. split; [auto | discriminate].
  - cbn [seed.pollLoop]. unfold bind at 1. unfold Now at 1.
    unfold seed.maxWait.
    destruct (now w - startTime <? 30000) eqn:Et.
    + apply Z.ltb_lt in Et. unfold bind at 1.
      destruct (seed.pollOnce node cfg restURL txHash n i w) as [o1 w1] eqn:E1.
      apply pollOnce_queried in E1. destruct E1 as (evs1 & Et1 & Hq1 & Hn1).
      destruct o1 as [[|] | e | p |].
      * intros [= <- <-]. exists 1%nat.
        split; [exists evs1; auto |]. split; [right; lia | discriminate].
      * unfold bind at 1. unfold Sleep at 1. unfold seed.pollInterval.
        set (w2 := interact node (EvSleep 500) 500 w1).
        intros E. apply IH in E.
        destruct E as (k & (evs2 & Et2 & Hq2 & Hn2) & Hk & Hfalse).
        assert (Hnow : now w1 + 500 <= now w2)
          by (subst w2; cbn [now interact]; lia).
        exists (S k). split; [| split].
        -- exists (evs2 ++ EvSleep 500 :: evs1)%list.
           split; [rewrite Et2; subst w2; cbn [trace interact]; rewrite Et1,
                     <- app_assoc; reflexivity |].
           split; [| lia].
           rewrite queries_app, Hq2.
           change (EvSleep 500 :: evs1) with ([EvSleep 500] ++ evs1)%list.
           rewrite queries_app, Hq1.
           change (queries [EvSleep 500]) with 0%nat. lia.
        -- right. destruct Hk as [-> | Hk]; lia.
        -- exact Hfalse.
      * intros [= <- <-]. exists 1%nat.
        split; [exists evs1; auto |]. split; [right; lia | discriminate].
      * intros [= <- <-]. exists 1%nat.
        split; [exists evs1; auto |]. split; [right; lia | discriminate].
      * intros [= <- <-]. exists 1%nat.
        split; [exists evs1; auto |]. split; [right; lia | discriminate].
    + apply Z.ltb_ge in Et. intros [= <- <-]. exists 0%nat.
      split; [exists []; repeat split; lia |]. split; [auto | intros _; lia].
Qed.

(** X12.  The wait for a transaction's inclusion ends: it makes at most
    60 status queries, one per half second; it gives up only once 30
    seconds have passed on the clock; and it reports inclusion exactly
    when it has printed, once, that the transaction is included. *)
Theorem polling_is_bounded
  (cfg : seed.Config) (restURL txHash : string) (n i : Z) (w : World) :
  let run := seed.pollLoop node seed.pollFuel cfg restURL txHash n i (now w) w in
  let evs := since w (snd run) in
  fst run <> OutOfFuel
  /\ (queries evs <= 60)%nat
  /\ (fst run = Ok false -> seed.maxWait <= now (snd run) - now w)
  /\ (fst run = Ok true <-> keys evs = [KIncluded]).
Proof.
  cbv zeta.
  destruct (seed.pollLoop node seed.pollFuel cfg restURL txHash n i (now w) w)
    as [o w'] eqn:E.
  cbn [fst snd].
  pose proof (pollLoop_did node cfg restURL txHash n i (now w) seed.pollFuel
                w o w' ltac:(unfold seed.pollFuel; lia)
                ltac:(unfold seed.maxWait, seed.pollInterval, seed.pollFuel; lia)
                E) as [Hfuel Hdid].
  apply pollLoop_queried in E.
  destruct E as (k & (evs & Et & Hq & _) & Hk & Hfalse).
  rewrite (since_app _ _ _ Et).
  split; [exact Hfuel |]. split; [| split; [exact Hfalse |]].
  - rewrite Hq. unfold seed.maxWait, seed.pollInterval in Hk. lia.
  - destruct Hdid as [(-> & evs' & Et' & Hk' & _) | (Hno & (evs' & Et' & Hk' & _) & _)];
      rewrite Et in Et'; apply app_inv_tail in Et'; subst evs'; rewrite Hk'.
    + split; reflexivity.
    + split; [intros ->; congruence | discriminate].
Qed.

End Polling.

(* ================================================================== *)
(** * The seed command: the verification after funding *)
(* ================================================================== *)

Section Verification.

Context `{Library} (node : Node).

(** No account among [addrs] needs funding, when the [k]-th of them is
    queried at interaction [t + k]. *)
Fixpoint verified_spec (cfg : seed.Config) (fundCoin : sdk.Coin)
  (restURL : string) (t : nat) (addrs : list (list byte)) : bool :=
  match addrs with
  | [] => true
  | addr :: rest =>
      negb (needs_funding_spec cfg fundCoin
              (http_Get node t (seed.balanceURL restURL addr)))
      && verified_spec cfg fundCoin restURL (S t) rest
  end.

Lemma verified_spec_classify cfg fundCoin restURL addrs :
  forall t,
    verified_spec cfg fundCoin restURL t addrs = true
    <-> classify_spec node cfg fundCoin restURL t addrs = [].
Proof.
  induction addrs as [| addr addrs IH]; intros t; [split; reflexivity |].
  cbn [verified_spec classify_spec].
  destruct (needs_funding_spec _ _ _); cbn [negb andb]; [| apply IH].
  split; discriminate.
Qed.

(** One pass of the verification loop: one query, and [allFunded] stays
    only if the account does not need funding. *)
Lemma verify1_spec cfg fundCoin restURL allFunded i addr w o w' :
  seed.verify1 node cfg fundCoin restURL allFunded i addr w = (o, w') ->
  tick w' = S (tick w)
  /\ (o = Ok (allFunded
              && negb (needs_funding_spec cfg fundCoin
                         (http_Get node (tick w)
                                   (seed.balanceURL restURL addr))))
      \/ exists p, o = Panic p).
Proof.
  unfold seed.verify1, needs_funding_spec, Get, Printf, emit, modify.
  unfold bind at 1.
  destruct (http_Get node (tick w) _) as [resp | resp].
  2: { unfold_monad. intros [= <- <-]. rewrite andb_false_r. auto. }
  destruct (negb (StatusCode resp =? 200)).
  { unfold_monad. intros [= <- <-]. rewrite andb_false_r. auto. }
  destruct (json_balances (Body resp)) as [balances |].
  2: { unfold_monad. intros [= <- <-]. rewrite andb_false_r. auto. }
  unfold bind at 1. unfold pure at 1.
  destruct (balanceOf_cases balances) as [(balance & E) | (p & E)]; rewrite E.
  2: { intros [= <- <-]. eauto. }
  unfold bind at 1. unfold pure at 1. unfold sdk.AmountOf.
  destruct (ValidateDenom (seed.Denom cfg)).
  2: { intros [= <- <-]. eauto. }
  rewrite (balanceOf_amount _ _ (seed.Denom cfg) E).
  destruct (reported_balance (seed.Denom cfg) balances <? sdk.Amount fundCoin).
  - unfold_monad. intros [= <- <-]. rewrite andb_false_r. auto.
  - unfold_monad. intros [= <- <-]. rewrite andb_true_r. auto.
Qed.

Lemma quiet_verify1 cfg fundCoin restURL allFunded i addr w :
  quiet_at (seed.verify1 node cfg fundCoin restURL allFunded i addr) w.
Proof. unfold seed.verify1. quiet. Qed.

Lemma quiet_verifyLoop cfg fundCoin restURL addrs :
  forall i allFunded w,
    quiet_at (seed.verifyLoop node cfg fundCoin restURL addrs i allFunded) w.
Proof.
  induction addrs as [| addr addrs IH]; intros i allFunded w;
    cbn [seed.verifyLoop]; [auto with quiet |].
  apply quiet_at_bind; [apply quiet_verify1 | intros a w1 _; apply IH].
Qed.

Lemma verifyLoop_spec cfg fundCoin restURL addrs :
  forall i allFunded w o w',
    seed.verifyLoop node cfg fundCoin restURL addrs i allFunded w = (o, w') ->
    (o = Ok (allFunded && verified_spec cfg fundCoin restURL (tick w) addrs)
     /\ tick w' = (tick w + length addrs)%nat)
    \/ exists p, o = Panic p.
Proof.
  induction addrs as [| addr addrs IH]; intros i allFunded w o w'.
  - intros [= <- <-]. left.
    cbn [verified_spec length]. rewrite andb_true_r. auto.
  - cbn [seed.verifyLoop]. unfold bind.
    destruct (seed.verify1 node cfg fundCoin restURL allFunded i addr w)
      as [o1 w1] eqn:E1.
    apply verify1_spec in E1. destruct E1 as (Ht & Ho).
    destruct Ho as [-> | (p & ->)].
    + intros E. apply IH in E.
      destruct E as [(-> & Ht') | (p & ->)]; [left | right; eauto].
      rewrite Ht. cbn [verified_spec length]. rewrite <- andb_assoc.
      split; [reflexivity | lia].
    + intros [= <- <-]. eauto.
Qed.

Lemma bind_Ok_inv {S A B} (m : M S A) (k : A -> M S B) (s s' : S) (b : B) :
  bind m k s = (Ok b, s') ->
  exists a s1, m s = (Ok a, s1) /\ k a s1 = (Ok b, s').
Proof.
  intros E. apply bind_inv in E. destruct E as [E | [_ E]]; [exact E |].
  discriminate E.
Qed.

Lemma pure_Ok_inv {S A} (o : Outcome A) (s s' : S) (a : A) :
  pure o s = (Ok a, s') -> o = Ok a /\ s' = s.
Proof. unfold pure. intros [= -> ->]. auto. Qed.

Lemma try_Ok_inv {S A} (o : option A) fmt args (s s' : S) (a : A) :
  try o fmt args s = (Ok a, s') -> o = Some a /\ s' = s.
Proof.
  unfold try. intros E. apply pure_Ok_inv in E. destruct E as [E ->].
  apply orFail_Ok_inv in E. auto.
Qed.

Lemma Printf_inv fmt args (w w' : World) (o : Outcome unit) :
  Printf fmt args w = (o, w') -> o = Ok tt /\ tick w' = tick w.
Proof. unfold Printf, emit, modify. intros [= <- <-]. auto. Qed.

Lemma querySeedBalance_tick restURL seedAddr w o w' :
  seed.querySeedBalance node restURL seedAddr w = (o, w') ->
  tick w' = S (tick w).
Proof.
  unfold seed.querySeedBalance, Get, Printf, emit, modify.
  repeat (unfold_monad; case_step);
    unfold_monad; intros E; injection E as <- <-; reflexivity.
Qed.

Lemma querySeedAccount_tick restURL seedAddr w o w' :
  seed.querySeedAccount node restURL seedAddr w = (o, w') ->
  tick w' = S (tick w).
Proof.
  unfold seed.querySeedAccount, Get, Printf, emit, modify.
  repeat (unfold_monad; case_step);
    unfold_monad; intros E; injection E as <- <-; reflexivity.
Qed.

Lemma checkFunds_world cfg seedBalance required w o w' :
  seed.checkFunds cfg seedBalance required w = (o, w') -> w' = w.
Proof.
  unfold seed.checkFunds.
  repeat (unfold_monad; case_step);
    unfold_monad; intros E; injection E as <- <-; reflexivity.
Qed.

(** X16.  When the seed command returns success, every account it had
    classified as needing funding (from the replies to the balance
    queries it made right after the two queries about the seed account)
    was found funded by the verification, whose queries are the last
    interactions of the run. *)
Theorem seeding_success_means_verified (cfg : seed.Config) (w w' : World) :
  seed.seedAccounts node cfg w = (Ok tt, w') ->
  exists fundCoin keys,
    ParseCoinNormalized (seed.FundAmount cfg) = Some fundCoin
    /\ seed.benchKeys (seed.Workers cfg) = Ok keys
    /\ let restURL := seed.restURL_of (seed.RPC cfg) in
       let needs :=
         classify_spec node cfg fundCoin restURL (tick w + 2) (map snd keys) in
       needs <> [] ->
       verified_spec cfg fundCoin restURL (tick w' - length needs) needs = true.
Proof.
  unfold seed.seedAccounts. intros E.
  apply bind_Ok_inv in E. destruct E as (fundCoin & w1 & E1 & E).
  apply try_Ok_inv in E1. destruct E1 as [Hcoin ->].
  apply bind_Ok_inv in E. destruct E as (required & w1 & E1 & E).
  apply pure_Ok_inv in E1. destruct E1 as [_ ->].
  apply bind_Ok_inv in E. destruct E as ([] & w1 & E1 & E).
  apply Printf_inv in E1. destruct E1 as [_ Ht1].
  apply bind_Ok_inv in E. destruct E as (identity & w2 & E2 & E).
  apply pure_Ok_inv in E2. destruct E2 as [_ ->].
  apply bind_Ok_inv in E. destruct E as ([] & w2 & E2 & E).
  apply Printf_inv in E2. destruct E2 as [_ Ht2].
  apply bind_Ok_inv in E. destruct E as (seedBalance & w3 & E3 & E).
  apply querySeedBalance_tick in E3.
  apply bind_Ok_inv in E. destruct E as ([] & w4 & E4 & E).
  apply checkFunds_world in E4. subst w4.
  apply bind_Ok_inv in E. destruct E as (account & w5 & E5 & E).
  apply querySeedAccount_tick in E5.
  apply bind_Ok_inv in E. destruct E as (keys & w6 & E6 & E).
  apply pure_Ok_inv in E6. destruct E6 as [Hkeys ->].
  apply bind_Ok_inv in E. destruct E as (needs & w6 & E6 & E).
  unfold seed.needsFunding in E6. apply needsFunding_from in E6.
  destruct E6 as [(Hneeds & Ht6) | (p & Hp)]; [| discriminate Hp].
  injection Hneeds as ->. cbn [app] in E.
  exists fundCoin, keys. split; [exact Hcoin |]. split; [exact Hkeys |].
  cbv zeta.
  replace (tick w + 2)%nat with (tick w5) by lia.
  set (needs := classify_spec node cfg fundCoin _ (tick w5) (map snd keys)) in *.
  intros Hne.
  destruct (Z.of_nat (length needs) =? 0) eqn:El.
  { apply Z.eqb_eq in El. destruct needs; [congruence | cbn [length] in El; lia]. }
  apply bind_Ok_inv in E. destruct E as ([] & w7 & E7 & E).
  apply bind_Ok_inv in E. destruct E as ([] & w8 & E8 & E).
  apply bind_Ok_inv in E. destruct E as ([] & w9 & E9 & E).
  apply Printf_inv in E9. destruct E9 as [_ Ht9].
  apply bind_Ok_inv in E. destruct E as (allFunded & w10 & E10 & E).
  apply verifyLoop_spec in E10.
  destruct E10 as [(Hall & Ht10) | (p & Hp)]; [| discriminate Hp].
  injection Hall as ->. cbn [andb] in E.
  destruct (verified_spec cfg fundCoin _ (tick w9) needs) eqn:Ev;
    [| discriminate E].
  injection E as <-.
  replace (tick w10 - length needs)%nat with (tick w9) by lia.
  exact Ev.
Qed.

End Verification.

Lemma seeding_success_means_verified_witness :
  let node := fixture.ledger "99999999999999999999aperpx" ""
                             "1000000aperpx" 12 in
  let run := seed.seedAccounts (H := fixture.library) node fixture.cfg
                               fixture.start in
  fst run = Ok tt
  /\ verified_spec (H := fixture.library) node fixture.cfg fixture.fundCoin
       (seed.restURL_of (seed.RPC fixture.cfg))
       (tick (snd run) - 10) fixture.workers = true.
Proof.
  cbv zeta.
  destruct (seed.seedAccounts (H := fixture.library)
              (fixture.ledger "99999999999999999999aperpx" "" "1000000aperpx" 12)
              fixture.cfg fixture.start) as [o w'] eqn:E.
  assert (Ho : o = Ok tt)
    by (apply (f_equal fst) in E; cbn [fst] in E; rewrite <- E;
        vm_compute; reflexivity).
  assert (Ht : tick w' = 31%nat)
    by (apply (f_equal snd) in E; cbn [snd] in E; rewrite <- E;
        vm_compute; reflexivity).
  subst o. cbn [fst snd]. split; [reflexivity |].
  destruct (seeding_success_means_verified (H := fixture.library) _ _ _ _ E)
    as (fundCoin & keys & Hcoin & Hkeys & Hverified).
  injection Hcoin as <-.
  assert (Hk : keys = map (fun i : nat => seed.benchKey (H := fixture.library)
                                            (Z.of_nat i)) (seq 0 10))
    by (injection Hkeys as <-; reflexivity).
  subst keys. cbv zeta in Hverified. rewrite Ht in *.
  apply Hverified. vm_compute. discriminate.
Defined.

(* ================================================================== *)
(** * The seed command: the two ways of summing up a balances reply *)
(* ================================================================== *)

Section Balances.

Context `{Library}.

(** One pass of the loop over the seed account's balances (lines
    271-277), and one of the loop over a worker's (lines 368-373). *)
Definition addStrict (seedBalance : Coins) (bal : string * string)
  : Outcome Coins :=
  amount <~ orFail (NewIntFromString (snd bal))
                   "invalid amount: %s" [AStr (snd bal)] ;;
  coin <~ sdk.NewCoin ValidateDenom (fst bal) amount ;;
  sdk.CoinsAdd seedBalance coin.

Definition addLenient (balance : Coins) (bal : string * string)
  : Outcome Coins :=
  match NewIntFromString (snd bal) with
  | Some amount =>
      coin <~ sdk.NewCoin ValidateDenom (fst bal) amount ;;
      sdk.CoinsAdd balance coin
  | None => Ok balance
  end.

Lemma addLenient_cases (balance : Coins) (bal : string * string) :
  (exists coins, addLenient balance bal = Ok coins)
  \/ exists p, addLenient balance bal = Panic p.
Proof.
  unfold addLenient.
  destruct (NewIntFromString (snd bal)) as [amount |]; [| eauto].
  destruct (NewCoin_cases (fst bal) amount) as [(coin & ->) | (p & ->)];
    cbn [obind]; [| eauto].
  unfold sdk.CoinsAdd, sdk.Add.
  destruct (Int_checked_cases (sdk.amount_of balance (sdk.Denom coin)
                               + sdk.Amount coin)) as [-> | (p & ->)];
    cbn [obind]; eauto.
Qed.

Lemma strict_from (balances : list (string * string)) :
  forall acc : Coins,
    match ofoldM addStrict balances acc with
    | Ok coins =>
        Forall (fun bal => NewIntFromString (snd bal) <> None) balances
        /\ ofoldM addLenient balances acc = Ok coins
    | Fail e =>
        exists before bal after,
          balances = (before ++ bal :: after)%list
          /\ Forall (fun bal => NewIntFromString (snd bal) <> None) before
          /\ NewIntFromString (snd bal) = None
          /\ e = Errorf "invalid amount: %s" [AStr (snd bal)]
    | Panic p => ofoldM addLenient balances acc = Panic p
    | OutOfFuel => False
    end.
Proof.
  induction balances as [| bal balances IH]; intros acc.
  - cbn. auto.
  - cbn [ofoldM].
    destruct (NewIntFromString (snd bal)) as [amount |] eqn:Ea.
    2: { unfold addStrict at 1. rewrite Ea. cbn [orFail obind].
         exists [], bal, balances. repeat split; auto. }
    assert (Hstep : addStrict acc bal = addLenient acc bal)
      by (unfold addStrict, addLenient; rewrite Ea; reflexivity).
    rewrite Hstep.
    destruct (addLenient_cases acc bal) as [(acc' & ->) | (p & ->)];
      cbn [obind]; [| reflexivity].
    specialize (IH acc').
    destruct (ofoldM addStrict balances acc') as [coins | e | p |].
    + destruct IH as [Hall Hlenient]. split; [| exact Hlenient].
      constructor; [congruence | exact Hall].
    + destruct IH as (before & bal' & after & -> & Hall & Hnone & ->).
      exists (bal :: before), bal', after.
      repeat split; auto. constructor; [congruence | exact Hall].
    + exact IH.
    + exact IH.
Qed.

(** X17.  The seed account's balance is summed up strictly, a worker's
    leniently: on the same reply, the seed's loop fails at the first
    amount that does not parse, with the error that names it, where the
    worker's loop skips such an amount; when the seed's loop returns
    (every amount parses) both give the same coins, and when it panics
    (a library call on a balance does) so does the other. *)
Theorem seed_balance_is_decoded_strictly (balances : list (string * string)) :
  match seed.seedBalanceOf balances with
  | Ok coins =>
      Forall (fun bal => NewIntFromString (snd bal) <> None) balances
      /\ seed.balanceOf balances = Ok coins
  | Fail e =>
      exists before bal after,
        balances = (before ++ bal :: after)%list
        /\ Forall (fun bal => NewIntFromString (snd bal) <> None) before
        /\ NewIntFromString (snd bal) = None
        /\ e = Errorf "invalid amount: %s" [AStr (snd bal)]
  | Panic p => seed.balanceOf balances = Panic p
  | OutOfFuel => False
  end.
Proof. apply (strict_from balances ∅). Qed.

End Balances.

(* ================================================================== *)
(** * The terminal UI: table cells *)
(* ================================================================== *)

(** X15.  [trimForTable s max] with [max >= 0] returns a cell of at most
    [max] bytes: [s] itself when it fits, the first [max] bytes of [s]
    when [max] is at most 3, and the first [max - 3] bytes followed by
    an ellipsis of three dots otherwise; so a cell is [min (len s) max]
    bytes long.  With a negative [max] it panics. *)
Theorem trimForTable_fits (s : string) (max : Z) :
  (max < 0 -> loadtest.trimForTable s max = Panic "slice bounds out of range")
  /\ (0 <= max < 2 ^ 63 ->
      exists cell,
        loadtest.trimForTable s max = Ok cell
        /\ Go.len cell = Z.min (Go.len s) max
        /\ (Go.len s <= max -> cell = s)
        /\ (max < Go.len s -> max <= 3 -> cell = Go.take (Z.to_nat max) s)
        /\ (max < Go.len s -> 3 < max ->
            cell = Go.take (Z.to_nat (max - 3)) s ++ "...")).
Proof.
  unfold loadtest.trimForTable, loadtest.upto, Go.len. split.
  - intros Hneg.
    replace (Z.of_nat (String.length s) <=? max) with false
      by (symmetry; apply Z.leb_gt; lia).
    replace (max <=? 3) with true by (symmetry; apply Z.leb_le; lia).
    replace (0 <=? max) with false by (symmetry; apply Z.leb_gt; lia).
    reflexivity.
  - intros Hmax.
    destruct (Z.of_nat (String.length s) <=? max) eqn:Efit.
    + apply Z.leb_le in Efit. exists s. repeat split; auto; lia.
    + apply Z.leb_gt in Efit.
      destruct (max <=? 3) eqn:Esmall.
      * apply Z.leb_le in Esmall.
        replace ((0 <=? max) && (max <=? Z.of_nat (String.length s))) with true
          by (symmetry; rewrite andb_true_iff, !Z.leb_le; lia).
        eexists. split; [reflexivity |].
        rewrite String_length_take. repeat split; auto; lia.
      * apply Z.leb_gt in Esmall. rewrite (int64_small (max - 3)) by lia.
        replace ((0 <=? max - 3) && (max - 3 <=? Z.of_nat (String.length s)))
          with true by (symmetry; rewrite andb_true_iff, !Z.leb_le; lia).
        cbn [obind]. eexists. split; [reflexivity |].
        rewrite String_length_app, String_length_take. cbn [String.length].
        repeat split; auto; lia.
Qed.

(* ================================================================== *)
(** * The seed command: funding on a cooperative node *)
(* ================================================================== *)

Section HappyPath.

Context `{Library} (node : Node).

(** The node reports the transaction [txHash] as included in a block,
    with code 0, whenever it is asked. *)
Definition reports_included (restURL txHash : string) : Prop :=
  forall t : nat,
    exists body txr,
      http_Get node t (seed.txStatusURL restURL txHash)
      = GetOk {| StatusCode := 200; Body := body |}
      /\ json_tx_response body = Some txr
      /\ Height txr <> "" /\ Height txr <> "0" /\ Code txr = 0.

(** The node accepts every connection and every transaction, and reports
    a transaction it has accepted as included. *)
Definition cooperative (restURL : string) : Prop :=
  (forall t target, grpc_Dial node t target = false)
  /\ (forall t txBytes,
         exists raw_log txHash,
           grpc_BroadcastTx node t txBytes = BroadcastResp 0 raw_log txHash
           /\ reports_included restURL txHash).

(** The transaction library accepts what it is given. *)
Definition accepting : Prop :=
  (forall msgs, SetMsgs_ok msgs = true)
  /\ (forall sig, SetSignatures_ok sig = true)
  /\ (forall sd tx priv accSeq, SignWithPrivKey sd tx priv accSeq <> None)
  /\ (forall tx, TxEncoder tx <> None).

Lemma div_Some (a b : Z) : b <> 0 -> exists q, Go.div a b = Some q.
Proof.
  intros Hb. unfold Go.div. apply Z.eqb_neq in Hb. rewrite Hb. eauto.
Qed.

Lemma pollLoop_included cfg restURL txHash n i (fuel : nat) w :
  reports_included restURL txHash ->
  seed.BatchSize cfg <> 0 ->
  exists w',
    seed.pollLoop node (S fuel) cfg restURL txHash n i (now w) w = (Ok true, w').
Proof.
  intros Hstatus HB.
  destruct (Hstatus (tick w)) as (body & txr & Hget & Hjson & Hh1 & Hh2 & Hcode).
  cbn [seed.pollLoop]. unfold bind at 1. unfold Now at 1.
  rewrite Z.sub_diag. change (0 <? seed.maxWait) with true. cbn iota.
  unfold bind at 1. unfold seed.pollOnce. unfold bind at 1. unfold Get at 1.
  rewrite Hget. cbn [StatusCode Body]. change (200 =? 200) with true. cbn iota.
  rewrite Hjson.
  apply String.eqb_neq in Hh1, Hh2. rewrite Hh1, Hh2, Hcode.
  cbn [negb andb]. change (0 =? 0) with true. cbn [negb].
  unfold seed.totalBatches, seed.batchNumber.
  destruct (div_Some (Go.int64 (Go.int64 (n + seed.BatchSize cfg) - 1))
                     (seed.BatchSize cfg) HB) as (q1 & ->).
  destruct (div_Some i (seed.BatchSize cfg) HB) as (q2 & ->).
  unfold_monad. unfold Printf, emit, modify. eexists. reflexivity.
Qed.


Lemma fits_small (z : Z) : 0 <= z < 2 ^ 128 -> sdk.fits z = true.
Proof.
  intros Hz. unfold sdk.fits, sdk.MaxBitLen. apply Z.ltb_lt.
  rewrite Z.abs_eq by lia.
  assert (2 ^ 128 < 2 ^ 256) by (apply Z.pow_lt_mono_r; lia). lia.
Qed.

Lemma fundBatch_accepted cfg fundCoin restURL seedPrivKey seedAddr accountNum
  needsFunding i seq w amount :
  cooperative restURL -> accepting ->
  0 < seed.BatchSize cfg < 2 ^ 63 ->
  Z.of_nat (length needsFunding) * 100000 < 2 ^ 63 ->
  ValidateDenom (seed.Denom cfg) = true ->
  sdk.NewCoins1 ValidateDenom fundCoin = Ok amount ->
  0 <= i < Z.of_nat (length needsFunding) ->
  i = 0 \/ seed.BatchSize cfg <= i ->
  exists w',
    seed.fundBatch node cfg fundCoin restURL seedPrivKey seedAddr accountNum
                   needsFunding i seq w = (Ok tt, w').
Proof.
  intros Hnode (Hmsgs & Hsigs & Hsign & Henc) HB Hn Hdenom Hamount Hi Hinv.
  pose proof Hnode as (Hdial & Hcast).
  unfold seed.fundBatch. cbv zeta.
  fold (batch_at cfg needsFunding i).
  rewrite (batch_at_spec cfg needsFunding i) by lia.
  set (batch := firstn _ _).
  assert (Hlen : (0 < length batch <= length needsFunding)%nat).
  { subst batch. rewrite length_firstn, length_skipn. lia. }
  rewrite bind_must_Some. unfold bind at 1. unfold pure at 1.
  rewrite (fundMsgs_Ok _ seedAddr batch _ Hamount).
  unfold SetMsgs. rewrite Hmsgs. rewrite bind_try_Some.
  rewrite (uint64_small (Z.of_nat (length batch))) by lia.
  rewrite (uint64_small (100000 * Z.of_nat (length batch))) by lia.
  rewrite (int64_small (100000 * Z.of_nat (length batch))) by lia.
  unfold sdk.Mul, sdk.Int_checked.
  rewrite fits_small
    by (split; [lia |];
        apply Z.lt_trans with (25000000000 * 2 ^ 63); [lia | reflexivity]).
  rewrite bind_pure_Ok.
  unfold sdk.NewCoin. rewrite Hdenom. cbn [negb].
  replace (25000000000 * (100000 * Z.of_nat (length batch)) <? 0) with false
    by (symmetry; apply Z.ltb_ge; lia).
  rewrite bind_pure_Ok.
  unfold sdk.NewCoins1. cbn [sdk.Amount sdk.Denom]. rewrite Hdenom. cbn [negb].
  replace (25000000000 * (100000 * Z.of_nat (length batch)) =? 0) with false
    by (symmetry; apply Z.eqb_neq; lia).
  replace (25000000000 * (100000 * Z.of_nat (length batch)) <? 0) with false
    by (symmetry; apply Z.ltb_ge; lia).
  rewrite bind_pure_Ok.
  unfold SetSignatures. rewrite !Hsigs. rewrite bind_try_Some.
  unfold bind at 1. unfold emit at 1, modify at 1.
  match goal with
  | |- context [SignWithPrivKey ?sd ?tx ?k ?s] =>
      destruct (SignWithPrivKey sd tx k s) as [sig |] eqn:Es;
      [| exfalso; exact (Hsign _ _ _ _ Es)]
  end.
  rewrite bind_try_Some. rewrite Hsigs. rewrite bind_try_Some.
  match goal with
  | |- context [TxEncoder ?tx] =>
      destruct (TxEncoder tx) as [txBytes |] eqn:Ee;
      [| exfalso; exact (Henc _ Ee)]
  end.
  rewrite bind_try_Some.
  unfold bind at 1. unfold Dial at 1. rewrite Hdial.
  unfold bind at 1. unfold BroadcastTx at 1.
  match goal with
  | |- context [grpc_BroadcastTx node ?t ?b] =>
      destruct (Hcast t b) as (raw_log & txHash & -> & Hstatus)
  end.
  change (negb (0 =? 0)) with false. cbn iota.
  assert (HB0 : seed.BatchSize cfg <> 0) by lia.
  unfold seed.batchNumber, seed.totalBatches.
  destruct (div_Some i (seed.BatchSize cfg) HB0) as (q2 & Eq2).
  destruct (div_Some (Go.int64 (Go.int64 (Z.of_nat (length needsFunding)
                                          + seed.BatchSize cfg) - 1))
                     (seed.BatchSize cfg) HB0) as (q1 & Eq1).
  rewrite Eq1, Eq2.
  unfold bind at 1. rewrite bind_must_Some. unfold ret at 1. cbv iota.
  rewrite bind_must_Some.
  unfold bind at 1. unfold Printf at 1, emit at 1, modify at 1.
  unfold bind at 1. unfold Now at 1. cbv beta iota. unfold bind at 1.
  match goal with
  | |- context [seed.pollLoop node seed.pollFuel cfg restURL ?h ?n ?i (now ?w0) ?w0] =>
      destruct (pollLoop_included cfg restURL h n i 60 w0 Hstatus HB0)
        as (w' & Ep)
  end.
  change seed.pollFuel with 61%nat. rewrite Ep.
  cbn [negb]. eexists. reflexivity.
Qed.


Lemma fundLoop_accepted cfg fundCoin restURL seedPrivKey seedAddr accountNum
  needsFunding amount (fuel : nat) :
  cooperative restURL -> accepting ->
  0 < seed.BatchSize cfg < 2 ^ 63 ->
  Z.of_nat (length needsFunding) * 100000 < 2 ^ 63 ->
  ValidateDenom (seed.Denom cfg) = true ->
  sdk.NewCoins1 ValidateDenom fundCoin = Ok amount ->
  forall i seq w,
    0 <= i ->
    i = 0 \/ seed.BatchSize cfg <= i ->
    (0 < fuel)%nat ->
    Z.of_nat (length needsFunding) - i < Z.of_nat fuel ->
    exists w',
      seed.fundLoop node fuel cfg fundCoin restURL seedPrivKey seedAddr
                    accountNum needsFunding i seq w = (Ok tt, w').
Proof.
  intros Hnode Hlib HB Hn Hdenom Hamount.
  induction fuel as [| fuel IH]; intros i seq w Hi Hinv Hpos Hfuel; [lia |].
  cbn [seed.fundLoop].
  destruct (i <? Z.of_nat (length needsFunding)) eqn:Ei;
    [| eexists; reflexivity].
  apply Z.ltb_lt in Ei. unfold bind.
  destruct (fundBatch_accepted cfg fundCoin restURL seedPrivKey seedAddr
              accountNum needsFunding i seq w amount Hnode Hlib HB Hn Hdenom
              Hamount ltac:(lia) Hinv) as (w1 & ->).
  rewrite (int64_small (i + seed.BatchSize cfg)) by lia.
  apply IH; lia.
Qed.

(** X18.  On a node that accepts every connection and every
    transaction and reports an accepted transaction as included, and with
    a transaction library that accepts what it is given, the funding
    loop succeeds for any positive batch size: it signs one transaction
    per planned batch, in order, each holding the transfers of its
    batch. *)
Theorem funding_succeeds_on_a_cooperative_node
  (cfg : seed.Config) (fundCoin : sdk.Coin) (restURL : string)
  (seedPrivKey seedAddr : list byte) (accountNum sequence : Z)
  (needsFunding : list (list byte)) (w : World) (amount : Coins) :
  cooperative restURL -> accepting ->
  0 < seed.BatchSize cfg < 2 ^ 63 ->
  Z.of_nat (length needsFunding) * 100000 < 2 ^ 63 ->
  ValidateDenom (seed.Denom cfg) = true ->
  sdk.NewCoins1 ValidateDenom fundCoin = Ok amount ->
  let run := seed.fundLoop node (seed.fundFuel needsFunding) cfg fundCoin
                           restURL seedPrivKey seedAddr accountNum
                           needsFunding 0 sequence w in
  let ks := rev (keys (since w (snd run))) in
  fst run = Ok tt
  /\ Forall2 (funds cfg fundCoin seedAddr) (signed_txs ks)
             (batches (Z.to_nat (seed.BatchSize cfg)) needsFunding).
Proof.
  intros Hnode Hlib HB Hn Hdenom Hamount. cbv zeta.
  destruct (fundLoop_accepted cfg fundCoin restURL seedPrivKey seedAddr
              accountNum needsFunding amount (seed.fundFuel needsFunding)
              Hnode Hlib HB Hn Hdenom Hamount 0 sequence w
              ltac:(lia) ltac:(auto)
              ltac:(unfold seed.fundFuel; lia)
              ltac:(unfold seed.fundFuel; lia)) as (w' & E).
  rewrite E. cbn [fst snd]. split; [reflexivity |].
  apply fundLoop_run in E. destruct E as (ks & (evs & Et & Hk & _) & Hrun).
  rewrite (since_app _ _ _ Et), Hk.
  apply funding_run_batches in Hrun; [| lia | lia | lia | auto].
  cbv zeta in Hrun. destruct Hrun as (done & Hall & Hdone).
  rewrite (Hdone eq_refl), firstn_all in Hall. exact Hall.
Qed.

End HappyPath.

Lemma funding_succeeds_on_a_cooperative_node_witness :
  let run := seed.fundLoop (H := fixture.library) (fixture.ledger "" "" "" 0)
               (seed.fundFuel fixture.workers) fixture.cfg fixture.fundCoin
               (seed.restURL_of (seed.RPC fixture.cfg))
               fixture.seedKey fixture.seedKey 7 fixture.workers 0 100
               fixture.start in
  fst run = Ok tt
  /\ length (signed_txs (rev (keys (since fixture.start (snd run))))) = 3%nat.
Proof.
  cbv zeta.
  destruct (funding_succeeds_on_a_cooperative_node (H := fixture.library)
              (fixture.ledger "" "" "" 0) fixture.cfg fixture.fundCoin
              (seed.restURL_of (seed.RPC fixture.cfg))
              fixture.seedKey fixture.seedKey 7 100 fixture.workers
              fixture.start ({[ "aperpx" := 1000000 ]} : Coins))
    as [Hok Hall].
  - split; [reflexivity |]. intros t txBytes. exists "", "HASH".
    split; [reflexivity |]. intros t'.
    exists "5/0", {| Height := "5"; Code := 0; RawLog := "" |}.
    repeat split; try discriminate; reflexivity.
  - repeat split; discriminate.
  - cbn. lia.
  - cbn. lia.
  - reflexivity.
  - reflexivity.
  - split; [exact Hok |].
    apply Forall2_length in Hall. rewrite Hall. reflexivity.
Defined.

(* ================================================================== *)
(** * The seed command: the ports of the REST and gRPC endpoints *)
(* ================================================================== *)

(** [old] occurs in [a ++ rest] at a position inside [a]. *)
Fixpoint occurs_before (a old rest : string) : bool :=
  match a with
  | EmptyString => false
  | String c a' => Go.HasPrefix (a ++ rest) old || occurs_before a' old rest
  end.

Lemma Replace1_HasPrefix (s old new : string) :
  Go.HasPrefix s old = true ->
  Go.Replace1 s old new = new ++ Go.drop (String.length old) s.
Proof. intros E. destruct s; cbn [Go.Replace1]; rewrite E; reflexivity. Qed.

(** [strings.Replace(s, old, new, 1)] replaces the first occurrence. *)
Lemma Replace1_first (old new b : string) : forall a : string,
  occurs_before a old (old ++ b) = false ->
  Go.Replace1 (a ++ old ++ b) old new = a ++ new ++ b.
Proof.
  induction a as [| c a IH]; intros E.
  - change ("" ++ old ++ b) with (old ++ b).
    rewrite Replace1_HasPrefix by apply HasPrefix_app.
    rewrite String_drop_app. reflexivity.
  - cbn [occurs_before] in E. apply orb_false_iff in E. destruct E as [E1 E2].
    change (String c a ++ old ++ b) with (String c (a ++ old ++ b)) in *.
    cbn [Go.Replace1]. rewrite E1.
    change (String c a ++ new ++ b) with (String c (a ++ new ++ b)).
    f_equal. apply IH, E2.
Qed.

Lemma Contains_middle (x b : string) : forall a : string,
  Go.Contains (a ++ x ++ b) x = true.
Proof.
  induction a as [| c a IH].
  - change ("" ++ x ++ b) with (x ++ b).
    apply Contains_HasPrefix, HasPrefix_app.
  - change (String c a ++ x ++ b) with (String c (a ++ x ++ b)).
    rewrite Contains_cons, IH. apply orb_true_r.
Qed.

(** Nothing that starts with a colon occurs inside a string without
    one. *)
Lemma colon_free_occurs (tail rest : string) : forall host : string,
  Go.Contains host ":" = false ->
  occurs_before host (String ":" tail) rest = false.
Proof.
  induction host as [| c host IH]; intros E; [reflexivity |].
  rewrite Contains_cons in E. apply orb_false_iff in E. destruct E as [E1 E2].
  cbn [occurs_before]. rewrite (IH E2), orb_false_r.
  change (String c host ++ rest) with (String c (host ++ rest)).
  cbn [Go.HasPrefix] in *.
  destruct (Ascii.eqb ":" c); [| reflexivity].
  destruct host; discriminate E1.
Qed.

(** X19.  From an RPC URL [http://host:36657...] whose host has no colon,
    the seed command infers the REST URL [http://host:31317...] and the
    gRPC target [host:39090...]: the port is replaced where it stands,
    what follows it is kept, and the gRPC target has no scheme. *)
Theorem ports_of_the_default_rpc (host path : string) :
  Go.Contains host ":" = false ->
  let rpc := "http://" ++ host ++ ":36657" ++ path in
  seed.restURL_of rpc = "http://" ++ host ++ ":31317" ++ path
  /\ seed.grpcAddr_of rpc = host ++ ":39090" ++ path.
Proof.
  intros Hhost. cbv zeta.
  assert (Hfirst : forall new,
             Go.Replace1 ("http://" ++ host ++ ":36657" ++ path) ":36657" new
             = "http://" ++ host ++ new ++ path).
  { intros new.
    change ("http://" ++ host ++ ":36657" ++ path)
      with (("http://" ++ host) ++ ":36657" ++ path).
    rewrite Replace1_first; [reflexivity |].
    change ("http://" ++ host)
      with (String "h" (String "t" (String "t" (String "p" (String ":"
             (String "/" (String "/" host))))))).
    cbn [occurs_before]. cbn [String.append Go.HasPrefix Ascii.eqb Bool.eqb andb orb].
    apply colon_free_occurs, Hhost. }
  unfold seed.restURL_of, seed.grpcAddr_of. rewrite !Hfirst.
  change ("http://" ++ host ++ ":31317" ++ path)
    with (("http://" ++ host) ++ ":31317" ++ path).
  change ("http://" ++ host ++ ":39090" ++ path)
    with (("http://" ++ host) ++ ":39090" ++ path).
  rewrite !Contains_middle. cbn [negb]. split; [reflexivity |].
  change (("http://" ++ host) ++ ":39090" ++ path)
    with ("http://" ++ (host ++ ":39090" ++ path)).
  unfold Go.TrimPrefix. rewrite HasPrefix_app.
  apply (String_drop_app "http://").
Qed.

Lemma ports_of_the_default_rpc_witness :
  seed.restURL_of "http://localhost:36657" = "http://localhost:31317"
  /\ seed.grpcAddr_of "http://localhost:36657" = "localhost:39090".
Proof.
  exact (ports_of_the_default_rpc "localhost" "" eq_refl).
Defined.

(* ================================================================== *)
(** * The seed command: what the classification does *)
(* ================================================================== *)

Section ClassificationQueries.

Context `{Library} (node : Node).

(** The balance queries for [keys], latest first. *)
Definition balance_queries (restURL : string)
  (keys : list (list byte * list byte)) : list Event :=
  rev (map (fun bk => EvGet (seed.balanceURL restURL (snd bk))) keys).

Lemma needsFunding_queries cfg fundCoin restURL keys :
  forall (acc : list (list byte)) w o w',
    foldM (fun (needsFunding : list (list byte)) (bk : list byte * list byte) =>
             needs <- seed.needsFunding1 node cfg fundCoin restURL (snd bk) ;;
             ret (if needs : bool then (needsFunding ++ [snd bk])%list
                  else needsFunding))
          keys acc w = (o, w') ->
    exists n : nat,
      (n <= length keys)%nat
      /\ trace w' = (balance_queries restURL (firstn n keys) ++ trace w)%list
      /\ tick w' = (tick w + n)%nat
      /\ (is_Ok o = true -> n = length keys).
Proof.
  induction keys as [| bk keys IH]; intros acc w o w' E.
  - injection E as <- <-. exists 0%nat. repeat split; auto.
  - cbn [foldM] in E. unfold bind at 1 in E. unfold bind at 1 in E.
    destruct (seed.needsFunding1 node cfg fundCoin restURL (snd bk) w)
      as [o1 w1] eqn:E1.
    apply needsFunding1_spec in E1. destruct E1 as (-> & Ho1).
    destruct Ho1 as [-> | (p & ->)].
    + cbn [ret] in E. apply IH in E.
      destruct E as (n & Hn & Et & Htick & Hok).
      exists (S n). cbn [length firstn]. split; [lia |]. split; [| split].
      * rewrite Et. cbn [trace interact]. unfold balance_queries.
        cbn [map rev]. rewrite <- app_assoc. reflexivity.
      * rewrite Htick. cbn [tick interact]. lia.
      * intros Ho. rewrite (Hok Ho). reflexivity.
    + injection E as <- <-. exists 1%nat. cbn [length firstn].
      split; [lia |]. split; [reflexivity |].
      split; [cbn [tick interact]; lia | discriminate].
Qed.


End ClassificationQueries.

(* ================================================================== *)
(** * The funding planner: replies the SDK takes *)
(* ================================================================== *)

Lemma forallb_pointwise {A} (f g : A -> bool) (l : list A) :
  (forall x, f x = g x) -> forallb f l = forallb g l.
Proof.
  intros Hfg. induction l as [| x l IH]; [reflexivity |].
  cbn [forallb]. rewrite Hfg, IH. reflexivity.
Qed.

Section Acceptance.

Context `{Library} (node : Node).

(** The coins of a balances reply are such that the SDK takes them: of
    the entries whose amount parses, each has a valid denomination and an
    amount that is not negative, and the amounts of its denomination add
    up to less than [2 ^ 256]. *)
Definition accepted_coins (balances : list (string * string)) : bool :=
  forallb (fun bal : string * string =>
             match NewIntFromString (snd bal) with
             | Some amount =>
                 ValidateDenom (fst bal) && (0 <=? amount)
                 && (reported_balance (fst bal) balances <? 2 ^ sdk.MaxBitLen)
             | None => true
             end)
          balances.

(** A reply to a balance query that the planner can work on: when it
    lists coins (status 200, and a body that decodes), the SDK takes
    them, and the configured denomination is valid. *)
Definition accepted (cfg : seed.Config) (reply : GetResult) : bool :=
  match reply with
  | GetErr _ => true
  | GetOk resp =>
      if negb (StatusCode resp =? 200) then true
      else
        match json_balances (Body resp) with
        | None => true
        | Some balances =>
            accepted_coins balances && ValidateDenom (seed.Denom cfg)
        end
  end.

(** How many of [addrs], from the first on, get a reply the planner can
    work on, when the [k]-th of them is queried at interaction [t + k]. *)
Fixpoint accepted_replies (cfg : seed.Config) (restURL : string) (t : nat)
  (addrs : list (list byte)) : nat :=
  match addrs with
  | [] => 0
  | addr :: rest =>
      if accepted cfg (http_Get node t (seed.balanceURL restURL addr))
      then S (accepted_replies cfg restURL (S t) rest)
      else 0
  end.

Lemma accepted_replies_le cfg restURL addrs :
  forall t, (accepted_replies cfg restURL t addrs <= length addrs)%nat.
Proof.
  induction addrs as [| addr addrs IH]; intros t; cbn [accepted_replies length].
  - lia.
  - destruct (accepted _ _); [specialize (IH (S t)) |]; lia.
Qed.

(** The entries before [bal] held [held] of each denomination. *)
Definition entry_ok (held : string -> Z) (rest : list (string * string))
  (bal : string * string) : bool :=
  match NewIntFromString (snd bal) with
  | Some amount =>
      ValidateDenom (fst bal) && (0 <=? amount)
      && (held (fst bal) + reported_balance (fst bal) rest <? 2 ^ sdk.MaxBitLen)
  | None => true
  end.

Lemma reported_balance_cons denom bal balances :
  reported_balance denom (bal :: balances)
  = match NewIntFromString (snd bal) with
    | Some amount =>
        if String.eqb (fst bal) denom
        then amount + reported_balance denom balances
        else reported_balance denom balances
    | None => reported_balance denom balances
    end.
Proof. reflexivity. Qed.

(** Amounts that are not negative add up to a balance that is not. *)
Lemma reported_balance_nonneg denom balances :
  forallb (fun bal : string * string =>
             match NewIntFromString (snd bal) with
             | Some amount => 0 <=? amount
             | None => true
             end) balances = true ->
  0 <= reported_balance denom balances.
Proof.
  induction balances as [| bal balances IH]; intros Hall; [cbn; lia |].
  cbn [forallb] in Hall. apply andb_true_iff in Hall. destruct Hall as [Hb Hall].
  rewrite reported_balance_cons. specialize (IH Hall).
  destruct (NewIntFromString (snd bal)) as [amount |]; [| exact IH].
  apply Z.leb_le in Hb. destruct (String.eqb (fst bal) denom); lia.
Qed.


(** A denomination either has a parsed entry in [balances], or its
    reported balance is zero. *)
Lemma reported_balance_occurs denom balances :
  (exists bal amount,
      In bal balances /\ NewIntFromString (snd bal) = Some amount
      /\ fst bal = denom)
  \/ reported_balance denom balances = 0.
Proof.
  induction balances as [| bal balances IH]; [right; reflexivity |].
  rewrite reported_balance_cons.
  destruct (NewIntFromString (snd bal)) as [amount |] eqn:Ep.
  - destruct (String.eqb_spec (fst bal) denom) as [Hd | Hd].
    + left. exists bal, amount. split; [left; reflexivity | auto].
    + destruct IH as [(bal' & amount' & Hin & Hp & Hd') | IH]; [left | right; exact IH].
      exists bal', amount'. split; [right; exact Hin | auto].
  - destruct IH as [(bal' & amount' & Hin & Hp & Hd') | IH]; [left | right; exact IH].
    exists bal', amount'. split; [right; exact Hin | auto].
Qed.

(** The loop over the entries of a balances reply, from the coins [acc]:
    it returns when every entry that is left passes, and panics
    otherwise. *)
Lemma balanceOf_from_accepted (balances : list (string * string)) :
  forall acc : Coins,
    (forall denom, 0 <= sdk.amount_of acc denom) ->
    let run :=
      ofoldM (fun (balance : Coins) (bal : string * string) =>
                match NewIntFromString (snd bal) with
                | Some amount =>
                    coin <~ sdk.NewCoin ValidateDenom (fst bal) amount ;;
                    sdk.CoinsAdd balance coin
                | None => Ok balance
                end)
             balances acc in
    if forallb (entry_ok (sdk.amount_of acc) balances) balances
    then exists balance, run = Ok balance
    else exists p, run = Panic p.
Proof.
  induction balances as [| bal balances IH]; intros acc Hacc; cbv zeta.
  - cbn. eauto.
  - cbn [forallb ofoldM]. unfold entry_ok at 1. rewrite reported_balance_cons.
    destruct (NewIntFromString (snd bal)) as [amount |] eqn:Ep.
    2: { cbn [andb obind].
         replace (forallb (entry_ok (sdk.amount_of acc) (bal :: balances)) balances)
           with (forallb (entry_ok (sdk.amount_of acc) balances) balances).
         - apply (IH acc Hacc).
         - apply forallb_pointwise. intros bal'. unfold entry_ok.
           rewrite reported_balance_cons, Ep. reflexivity. }
    rewrite String.eqb_refl.
    unfold sdk.NewCoin.
    destruct (ValidateDenom (fst bal)) eqn:Ev; cbn [negb andb obind]; [| eauto].
    destruct (amount <? 0) eqn:En.
    { replace (0 <=? amount) with false
        by (symmetry; apply Z.leb_gt; apply Z.ltb_lt in En; lia).
      cbn [andb obind]. eauto. }
    apply Z.ltb_ge in En.
    replace (0 <=? amount) with true by (symmetry; apply Z.leb_le; lia).
    cbn [andb obind]. unfold sdk.CoinsAdd, sdk.Add, sdk.Int_checked, sdk.fits.
    cbn [sdk.Denom sdk.Amount].
    pose proof (Hacc (fst bal)) as Hheld.
    set (rest_ok := forallb (entry_ok (sdk.amount_of acc) (bal :: balances)) balances).
    assert (Hnonneg : rest_ok = true -> 0 <= reported_balance (fst bal) balances).
    { intros Hrest. apply reported_balance_nonneg.
      apply forallb_forall. intros bal' Hin.
      apply (proj1 (forallb_forall _ _) Hrest) in Hin. unfold entry_ok in Hin.
      destruct (NewIntFromString (snd bal')); [| reflexivity].
      apply andb_true_iff in Hin. destruct Hin as [Hin _].
      apply andb_true_iff in Hin. destruct Hin as [_ Hin]. exact Hin. }
    destruct (Z.abs (sdk.amount_of acc (fst bal) + amount) <? 2 ^ sdk.MaxBitLen)
      eqn:Ef; cbn [obind].
    2: { apply Z.ltb_ge in Ef. rewrite Z.abs_eq in Ef by lia.
         destruct rest_ok; [| rewrite andb_false_r; eauto].
         specialize (Hnonneg eq_refl).
         replace (sdk.amount_of acc (fst bal)
                  + (amount + reported_balance (fst bal) balances)
                  <? 2 ^ sdk.MaxBitLen) with false
           by (symmetry; apply Z.ltb_ge; lia).
         cbn [andb]. eauto. }
    apply Z.ltb_lt in Ef. rewrite Z.abs_eq in Ef by lia.
    set (acc' := if sdk.amount_of acc (fst bal) + amount =? 0
                 then delete (fst bal) acc
                 else <[fst bal:=sdk.amount_of acc (fst bal) + amount]> acc).
    assert (Hacc' : forall denom,
               sdk.amount_of acc' denom
               = sdk.amount_of acc denom
                 + (if String.eqb (fst bal) denom then amount else 0)).
    { intros denom.
      apply (CoinsAdd_amount acc
               {| sdk.Denom := fst bal; sdk.Amount := amount |} acc' denom).
      unfold sdk.CoinsAdd, sdk.Add, sdk.Int_checked, sdk.fits.
      cbn [sdk.Denom sdk.Amount].
      replace (Z.abs (sdk.amount_of acc (fst bal) + amount) <? 2 ^ sdk.MaxBitLen)
        with true by (symmetry; apply Z.ltb_lt; rewrite Z.abs_eq; lia).
      reflexivity. }
    assert (Hrest : rest_ok = forallb (entry_ok (sdk.amount_of acc') balances) balances).
    { apply forallb_pointwise. intros bal'. unfold entry_ok.
      rewrite reported_balance_cons, Ep, Hacc'.
      destruct (NewIntFromString (snd bal')); [| reflexivity].
      destruct (String.eqb (fst bal) (fst bal')); do 2 f_equal; lia. }
    assert (Hhead : rest_ok = true ->
                    sdk.amount_of acc (fst bal)
                    + (amount + reported_balance (fst bal) balances)
                    < 2 ^ sdk.MaxBitLen).
    { intros Hok.
      destruct (reported_balance_occurs (fst bal) balances)
        as [(bal' & amount' & Hin & Hp & Hd) | ->]; [| lia].
      rewrite Hrest in Hok.
      apply (proj1 (forallb_forall _ _) Hok) in Hin. unfold entry_ok in Hin.
      rewrite Hp, Hd in Hin.
      apply andb_true_iff in Hin. destruct Hin as [_ Hin].
      apply Z.ltb_lt in Hin. rewrite Hacc', String.eqb_refl in Hin. lia. }
    assert (Hpos : forall denom, 0 <= sdk.amount_of acc' denom).
    { intros denom. rewrite Hacc'. specialize (Hacc denom).
      destruct (String.eqb (fst bal) denom); lia. }
    specialize (IH acc' Hpos). cbv zeta in IH. rewrite <- Hrest in IH.
    destruct rest_ok.
    + replace (sdk.amount_of acc (fst bal)
               + (amount + reported_balance (fst bal) balances)
               <? 2 ^ sdk.MaxBitLen) with true
        by (symmetry; apply Z.ltb_lt; auto).
      exact IH.
    + rewrite andb_false_r. exact IH.
Qed.

(** [balanceOf] returns exactly on the coins the SDK takes, and panics
    on the others. *)
Lemma balanceOf_accepted balances :
  if accepted_coins balances
  then exists balance, seed.balanceOf balances = Ok balance
  else exists p, seed.balanceOf balances = Panic p.
Proof.
  assert (Hempty : forall denom, 0 <= sdk.amount_of (∅ : Coins) denom).
  { intros denom. unfold sdk.amount_of. rewrite lookup_empty. simpl. lia. }
  pose proof (balanceOf_from_accepted balances ∅ Hempty) as Hrun.
  cbv zeta in Hrun. unfold seed.balanceOf.
  replace (accepted_coins balances)
    with (forallb (entry_ok (sdk.amount_of (∅ : Coins)) balances) balances);
    [exact Hrun |].
  unfold accepted_coins. apply forallb_pointwise. intros bal. unfold entry_ok.
  destruct (NewIntFromString (snd bal)); [| reflexivity].
  unfold sdk.amount_of. rewrite lookup_empty. reflexivity.
Qed.

End Acceptance.

(* ================================================================== *)
(** * The funding planner: the classification, reply by reply *)
(* ================================================================== *)

Section ClassificationExact.

Context `{Library} (node : Node).

(** One pass of the classification loop: the balance query, and then the
    account is classified by the rule when the reply is one the planner
    can work on; on any other reply a library call panics. *)
Lemma needsFunding1_exact cfg fundCoin restURL addr w :
  let reply := http_Get node (tick w) (seed.balanceURL restURL addr) in
  exists o,
    seed.needsFunding1 node cfg fundCoin restURL addr w
    = (o, interact node (EvGet (seed.balanceURL restURL addr)) 0 w)
    /\ if accepted cfg reply
       then o = Ok (needs_funding_spec cfg fundCoin reply)
       else exists p, o = Panic p.
Proof.
  cbv zeta. unfold seed.needsFunding1, needs_funding_spec, accepted, Get.
  unfold bind at 1.
  destruct (http_Get node (tick w) _) as [resp | resp];
    [| eexists; split; reflexivity].
  destruct (negb (StatusCode resp =? 200)); [eexists; split; reflexivity |].
  destruct (json_balances (Body resp)) as [balances |];
    [| eexists; split; reflexivity].
  unfold bind, pure.
  pose proof (balanceOf_accepted balances) as Hbal.
  destruct (accepted_coins balances); destruct Hbal as (x & Ex); rewrite Ex;
    cbn [andb]; [| eexists; split; [reflexivity | eauto]].
  unfold sdk.AmountOf.
  destruct (ValidateDenom (seed.Denom cfg));
    [| eexists; split; [reflexivity | eauto]].
  eexists. split; [reflexivity |]. cbn [ret].
  rewrite (balanceOf_amount _ _ (seed.Denom cfg) Ex). reflexivity.
Qed.

(** The classification loop from the accounts [acc]: its queries are
    those for the accounts up to the first whose reply the planner cannot
    work on; it returns the accounts the rule selects when there is no
    such reply, and panics otherwise. *)
Lemma needsFunding_exact cfg fundCoin restURL keys :
  forall (acc : list (list byte)) w o w',
    foldM (fun (needsFunding : list (list byte)) (bk : list byte * list byte) =>
             needs <- seed.needsFunding1 node cfg fundCoin restURL (snd bk) ;;
             ret (if needs : bool then (needsFunding ++ [snd bk])%list
                  else needsFunding))
          keys acc w = (o, w') ->
    let good := accepted_replies node cfg restURL (tick w) (map snd keys) in
    trace w' = (balance_queries restURL (firstn (S good) keys) ++ trace w)%list
    /\ (good = length keys ->
        o = Ok (acc ++ classify_spec node cfg fundCoin restURL (tick w)
                         (map snd keys))%list
        /\ tick w' = (tick w + length keys)%nat)
    /\ ((good < length keys)%nat -> exists p, o = Panic p).
Proof.
  induction keys as [| bk keys IH]; intros acc w o w' E; cbv zeta.
  - injection E as <- <-. cbn. rewrite app_nil_r. split; [reflexivity |].
    split; [intros _; split; [reflexivity | lia] | lia].
  - cbn [foldM map accepted_replies classify_spec length] in *.
    unfold bind at 1 in E. unfold bind at 1 in E.
    destruct (needsFunding1_exact cfg fundCoin restURL (snd bk) w)
      as (o1 & E1 & Ho1). cbv zeta in Ho1. rewrite E1 in E. clear E1.
    destruct (accepted cfg (http_Get node (tick w) _)).
    + subst o1. cbn [ret] in E.
      apply IH in E. cbv zeta in E. cbn [tick interact] in E.
      set (good := accepted_replies node cfg restURL (S (tick w)) (map snd keys))
        in *.
      destruct E as (Ht & Hgood & Hbad). split; [| split].
      * rewrite Ht. cbn [trace interact firstn].
        unfold balance_queries. cbn [map rev]. rewrite <- app_assoc.
        reflexivity.
      * intros Hg. destruct (Hgood ltac:(lia)) as (-> & Htick).
        split; [| rewrite Htick; lia].
        f_equal.
        destruct (needs_funding_spec cfg fundCoin _); [| reflexivity].
        rewrite <- app_assoc. reflexivity.
      * intros Hg. apply Hbad. lia.
    + destruct Ho1 as (p & ->). injection E as <- <-. split; [| split].
      * reflexivity.
      * intros Hg. lia.
      * intros _. eauto.
Qed.

(** An account is selected by [classify_spec] exactly when one of its
    occurrences among [addrs] got a reply that the rule counts as needing
    funding. *)
Lemma classify_spec_In cfg fundCoin restURL addrs addr :
  forall t : nat,
    In addr (classify_spec node cfg fundCoin restURL t addrs)
    <-> exists k : nat,
          addrs !! k = Some addr
          /\ needs_funding_spec cfg fundCoin
               (http_Get node (t + k) (seed.balanceURL restURL addr)) = true.
Proof.
  induction addrs as [| a addrs IH]; intros t; cbn [classify_spec].
  - split; [intros [] | intros (k & Hk & _); discriminate Hk].
  - assert (Hrest : In addr (classify_spec node cfg fundCoin restURL (S t) addrs)
                    <-> exists k : nat,
                          addrs !! k = Some addr
                          /\ needs_funding_spec cfg fundCoin
                               (http_Get node (t + S k)
                                         (seed.balanceURL restURL addr)) = true).
    { rewrite IH. split; intros (k & Hk & Hn); exists k; (split; [exact Hk |]).
      - replace (t + S k)%nat with (S t + k)%nat by lia. exact Hn.
      - replace (t + S k)%nat with (S t + k)%nat in Hn by lia. exact Hn. }
    assert (Hhere : forall k : nat,
               (a :: addrs) !! k = Some addr
               /\ needs_funding_spec cfg fundCoin
                    (http_Get node (t + k) (seed.balanceURL restURL addr)) = true
               <-> (k = 0%nat /\ a = addr
                    /\ needs_funding_spec cfg fundCoin
                         (http_Get node t (seed.balanceURL restURL a)) = true)
                   \/ exists k', k = S k' /\ addrs !! k' = Some addr
                                 /\ needs_funding_spec cfg fundCoin
                                      (http_Get node (t + S k')
                                         (seed.balanceURL restURL addr)) = true).
    { intros [| k]; cbn [lookup list_lookup].
      - rewrite Nat.add_0_r. split.
        + intros ([= ->] & Hn). left. auto.
        + intros [(_ & -> & Hn) | (k' & Hk' & _)]; [auto | discriminate].
      - split.
        + intros (Hk & Hn). right. exists k. auto.
        + intros [(Hk & _) | (k' & [= ->] & Hk' & Hn)]; [discriminate | auto]. }
    destruct (needs_funding_spec cfg fundCoin
                (http_Get node t (seed.balanceURL restURL a))) eqn:E.
    + cbn [In]. rewrite Hrest. split.
      * intros [-> | (k & Hk & Hn)].
        -- exists 0%nat. apply Hhere. left. auto.
        -- exists (S k). apply Hhere. right. exists k. auto.
      * intros (k & Hk). apply Hhere in Hk.
        destruct Hk as [(_ & Ha & _) | (k' & _ & Hk' & Hn)]; [left; exact Ha |].
        right. exists k'. auto.
    + rewrite Hrest. split.
      * intros (k & Hk & Hn). exists (S k). apply Hhere. right. exists k. auto.
      * intros (k & Hk). apply Hhere in Hk.
        destruct Hk as [(_ & _ & Hn) | (k' & _ & Hk' & Hn)]; [discriminate Hn |].
        exists k'. auto.
Qed.

End ClassificationExact.

(* ================================================================== *)
(** * The seed command: who is sent funds *)
(* ================================================================== *)

(** The addresses, as text, that the transactions signed among [ks] send
    funds to, in the order of the messages. *)
Definition recipients (ks : list Key) : list string :=
  flat_map (fun tx : TxBuilder => map banktypes.ToAddress (Msgs tx))
           (signed_txs ks).

Lemma signed_txs_app (ks1 ks2 : list Key) :
  signed_txs (ks1 ++ ks2) = (signed_txs ks1 ++ signed_txs ks2)%list.
Proof. unfold signed_txs. apply omap_app. Qed.

Lemma recipients_app (ks1 ks2 : list Key) :
  recipients (ks1 ++ ks2) = (recipients ks1 ++ recipients ks2)%list.
Proof. unfold recipients. rewrite signed_txs_app. apply flat_map_app. Qed.

(** Events that are neither signings nor broadcasts leave no key event
    but inclusions. *)
Lemma quiet_signed_txs (evs : list Event) :
  forallb quiet_event evs = true -> signed_txs (rev (keys evs)) = [].
Proof.
  induction evs as [| e evs IH]; intros Hq; [reflexivity |].
  cbn [forallb] in Hq. apply andb_true_iff in Hq. destruct Hq as [He Hq].
  change (e :: evs) with ([e] ++ evs)%list.
  rewrite keys_app, rev_app_distr, signed_txs_app, (IH Hq). cbn [app].
  destruct e; try discriminate He; try reflexivity.
  cbn. destruct (String.eqb _ _); reflexivity.
Qed.

Lemma quiet_recipients (evs : list Event) :
  forallb quiet_event evs = true -> recipients (rev (keys evs)) = [].
Proof. intros Hq. unfold recipients. rewrite (quiet_signed_txs _ Hq). reflexivity. Qed.

Section FundedAccounts.

Context `{Library} (node : Node).

Lemma fundMsgs_recipients fundCoin seedAddr batch msgs :
  seed.fundMsgs fundCoin seedAddr batch = Ok msgs ->
  map banktypes.ToAddress msgs = map AccAddress_String batch.
Proof.
  intros E.
  destruct (NewCoins1_cases fundCoin) as [(amount & Ha) | (p & Hp)].
  - rewrite (fundMsgs_Ok _ seedAddr batch _ Ha) in E. injection E as <-.
    rewrite map_map. reflexivity.
  - destruct batch as [| addr batch].
    + injection E as <-. reflexivity.
    + rewrite (fundMsgs_Panic _ _ _ _ _ Hp) in E. discriminate E.
Qed.

Lemma batch_at_incl cfg needsFunding i batch :
  batch_at cfg needsFunding i = Some batch -> incl batch needsFunding.
Proof.
  unfold batch_at, Go.slice. cbv zeta. destruct (_ && _); [| discriminate].
  intros [= <-] addr Hin.
  set (rest := skipn (Z.to_nat i) needsFunding) in *.
  rewrite <- (firstn_skipn (Z.to_nat i) needsFunding).
  apply in_or_app. right. fold rest.
  match type of Hin with
  | In _ (firstn ?n _) => rewrite <- (firstn_skipn n rest)
  end.
  apply in_or_app. left. exact Hin.
Qed.

(** The transaction signed for the batch at [i] sends to accounts of the
    list. *)
Lemma signed_batch_recipients cfg fundCoin seedPrivKey seedAddr accountNum
  needsFunding i seq sign :
  signed_batch cfg fundCoin seedPrivKey seedAddr accountNum needsFunding
               i seq sign ->
  Forall (fun to => In to (map AccAddress_String needsFunding))
         (recipients [sign]).
Proof.
  intros (batch & tx & Hat & (msgs & fa & fc & fcs & Htx) & ->).
  cbv zeta in Htx. destruct Htx as (Hmsgs & _ & _ & _ & ->).
  unfold recipients. cbn. rewrite app_nil_r.
  rewrite (fundMsgs_recipients _ _ _ _ Hmsgs).
  apply List.Forall_forall. intros to Hin. apply in_map_iff in Hin.
  destruct Hin as (addr & <- & Hin). apply in_map.
  apply (batch_at_incl _ _ _ _ Hat), Hin.
Qed.

(** A run of the funding loop sends to accounts of the list only. *)
Lemma funding_run_recipients cfg fundCoin seedPrivKey seedAddr accountNum
  needsFunding i seq ks o :
  funding_run cfg fundCoin seedPrivKey seedAddr accountNum needsFunding
              i seq ks o ->
  Forall (fun to => In to (map AccAddress_String needsFunding)) (recipients ks).
Proof.
  induction 1 as [i seq Hi | i seq | i seq sign txBytes ks o Hi Hsign Hrun IH
                 | i seq o Hi Hno Hnf | i seq sign o Hi Hno Hnf Hsign
                 | i seq sign txBytes o Hi Hno Hnf Hp Hsign].
  - constructor.
  - constructor.
  - change (sign :: KBroadcast txBytes :: KIncluded :: ks)
      with ([sign] ++ [KBroadcast txBytes; KIncluded] ++ ks)%list.
    rewrite !recipients_app. apply Forall_app. split.
    + eapply signed_batch_recipients, Hsign.
    + exact IH.
  - constructor.
  - eapply signed_batch_recipients, Hsign.
  - change [sign; KBroadcast txBytes] with ([sign] ++ [KBroadcast txBytes])%list.
    rewrite recipients_app. apply Forall_app. split.
    + eapply signed_batch_recipients, Hsign.
    + constructor.
Qed.

(** Transactions that fund the batches of a list send, between them, to
    the accounts of the list, in order. *)
Lemma funds_recipients cfg fundCoin seedAddr (txs : list TxBuilder)
  (planned : list (list (list byte))) :
  Forall2 (funds cfg fundCoin seedAddr) txs planned ->
  flat_map (fun tx : TxBuilder => map banktypes.ToAddress (Msgs tx)) txs
  = map AccAddress_String (concat planned).
Proof.
  induction 1 as [| tx batch txs planned Hf _ IH]; [reflexivity |].
  cbn [flat_map concat]. rewrite map_app, IH. f_equal.
  destruct Hf as ((amount & _ & ->) & _). rewrite map_map. reflexivity.
Qed.

End FundedAccounts.

(** [w'] comes after [w], with only printing, querying and computing in
    between. *)
Definition quiet_since (w w' : World) : Prop :=
  exists evs,
    trace w' = (evs ++ trace w)%list /\ forallb quiet_event evs = true.

Lemma quiet_since_refl (w : World) : quiet_since w w.
Proof. exists []. auto. Qed.

Lemma quiet_since_trans (w w1 w2 : World) :
  quiet_since w w1 -> quiet_since w1 w2 -> quiet_since w w2.
Proof.
  intros (evs1 & E1 & Q1) (evs2 & E2 & Q2). exists (evs2 ++ evs1)%list.
  split; [rewrite E2, E1; apply app_assoc |].
  rewrite forallb_app, Q1, Q2. reflexivity.
Qed.

(** A quiet step of a computation: either it returns and the computation
    goes on, or the computation ends with it. *)
Lemma quiet_step {A B} (m : M World A) (k : A -> M World B)
  (w0 w : World) (o : Outcome B) (w' : World) :
  quiet_since w0 w ->
  quiet_at m w ->
  bind m k w = (o, w') ->
  (exists a w1, m w = (Ok a, w1) /\ k a w1 = (o, w') /\ quiet_since w0 w1)
  \/ (is_Ok o = false /\ quiet_since w0 w').
Proof.
  intros Q0 (evs & Et & Hq) E.
  assert (Q1 : quiet_since w0 (snd (m w)))
    by (apply (quiet_since_trans _ w); [exact Q0 | exists evs; auto]).
  apply bind_inv in E. destruct E as [(a & w1 & Em & E) | (Em & Hno)].
  - left. exists a, w1. rewrite Em in Q1. auto.
  - right. rewrite Em in Q1. auto.
Qed.

Section CommandFunds.

Context `{Library} (node : Node).

Lemma quiet_needsFunding1 cfg fundCoin restURL addr w :
  quiet_at (seed.needsFunding1 node cfg fundCoin restURL addr) w.
Proof. unfold seed.needsFunding1. quiet. Qed.

Lemma quiet_needsFunding cfg fundCoin restURL keys w :
  quiet_at (seed.needsFunding node cfg fundCoin restURL keys) w.
Proof.
  unfold seed.needsFunding.
  assert (Hfrom : forall (acc : list (list byte)) w0,
             quiet_at
               (foldM (fun (needsFunding : list (list byte))
                           (bk : list byte * list byte) =>
                         needs <- seed.needsFunding1 node cfg fundCoin restURL
                                                     (snd bk) ;;
                         ret (if needs : bool
                              then (needsFunding ++ [snd bk])%list
                              else needsFunding))
                      keys acc) w0).
  { induction keys as [| bk keys IH]; intros acc w0; cbn [foldM];
      [apply quiet_at_ret |].
    apply quiet_at_bind; [| intros a w1 _; apply IH].
    apply quiet_at_bind; [apply quiet_needsFunding1 | intros b w1 _].
    apply quiet_at_ret. }
  apply Hfrom.
Qed.

(** The account query returns the number and the sequence that the
    node's reply resolves to. *)
Lemma querySeedAccount_known cfg seedAddr w accountNum sequence w' :
  seed.querySeedAccount node (seed.restURL_of (seed.RPC cfg)) seedAddr w
  = (Ok (accountNum, sequence), w') ->
  seed_account_known node cfg (tick w) seedAddr accountNum sequence.
Proof.
  unfold seed.querySeedAccount. intros E.
  apply bind_Ok_inv in E. destruct E as (reply & w1 & E1 & E).
  unfold Get in E1. injection E1 as <- <-.
  destruct (http_Get node (tick w) _) as [[code body] | e] eqn:Eg;
    [| discriminate E].
  cbn [StatusCode Body] in E.
  destruct (code =? 200) eqn:Ec; cbn [negb] in E; [| discriminate E].
  apply Z.eqb_eq in Ec. subst code.
  apply bind_Ok_inv in E. destruct E as (accountData & w2 & E2 & E).
  apply try_Ok_inv in E2. destruct E2 as [E2 ->].
  apply bind_Ok_inv in E. destruct E as (number & w3 & E3 & E).
  apply try_Ok_inv in E3. destruct E3 as [E3 ->].
  apply bind_Ok_inv in E. destruct E as (queried & w4 & E4 & E).
  apply try_Ok_inv in E4. destruct E4 as [E4 ->].
  apply bind_Ok_inv in E. destruct E as ([] & w5 & _ & E).
  injection E as <- <- _.
  destruct accountData as [account_number sequence_text].
  exists body, account_number, sequence_text. auto.
Qed.

(** The seed command either stays quiet, and then it does not succeed
    unless no account needs funding, or it runs the funding loop once:
    as the seed identity, with the account number and from the sequence
    that the node's reply to the account query resolves to, on the
    accounts that the rule selects among the bench accounts from the
    replies to its balance queries, which it makes right after its two
    queries about the seed account; what comes before and after the
    funding loop is quiet. *)
Lemma seedAccounts_funding cfg w o w' :
  seed.seedAccounts node cfg w = (o, w') ->
  let restURL := seed.restURL_of (seed.RPC cfg) in
  (quiet_since w w'
   /\ forall fundCoin keys,
       ParseCoinNormalized (seed.FundAmount cfg) = Some fundCoin ->
       seed.benchKeys (seed.Workers cfg) = Ok keys ->
       o = Ok tt ->
       classify_spec node cfg fundCoin restURL (tick w + 2) (map snd keys) = [])
  \/ exists fundCoin keys seedPrivKey seedAddr accountNum sequence w1 o1 w2,
      ParseCoinNormalized (seed.FundAmount cfg) = Some fundCoin
      /\ seed.benchKeys (seed.Workers cfg) = Ok keys
      /\ seed.seedIdentity cfg = Ok (seedPrivKey, seedAddr)
      /\ seed_account_known node cfg (S (tick w)) seedAddr accountNum sequence
      /\ (let needs :=
            classify_spec node cfg fundCoin restURL (tick w + 2) (map snd keys)
          in
          seed.fundLoop node (seed.fundFuel needs) cfg fundCoin restURL
                        seedPrivKey seedAddr accountNum needs 0 sequence w1
          = (o1, w2))
      /\ quiet_since w w1 /\ quiet_since w2 w'
      /\ (o = Ok tt -> o1 = Ok tt).
Proof.
  intros E. cbv zeta. unfold seed.seedAccounts in E.
  pose proof (quiet_since_refl w) as Q.
  apply (quiet_step _ _ w _ _ _ Q) in E; [| auto with quiet].
  destruct E as [(fundCoin & w1 & E1 & E & Q1) | (Hno & Qs)];
    [| left; split; [exact Qs | intros ? ? _ _ ->; discriminate Hno]].
  apply try_Ok_inv in E1. destruct E1 as [Hcoin ->]. clear Q1.
  apply (quiet_step _ _ w _ _ _ Q) in E; [| auto with quiet].
  destruct E as [(required & w1 & E1 & E & Q1) | (Hno & Qs)];
    [| left; split; [exact Qs | intros ? ? _ _ ->; discriminate Hno]].
  apply pure_Ok_inv in E1. destruct E1 as [_ ->]. clear Q1.
  apply (quiet_step _ _ w _ _ _ Q) in E; [| auto with quiet].
  destruct E as [([] & w1 & E1 & E & Q1) | (Hno & Qs)];
    [| left; split; [exact Qs | intros ? ? _ _ ->; discriminate Hno]].
  apply Printf_inv in E1. destruct E1 as [_ Ht1]. clear Q.
  apply (quiet_step _ _ w _ _ _ Q1) in E; [| auto with quiet].
  destruct E as [(identity & w2 & E2 & E & Q2) | (Hno & Qs)];
    [| left; split; [exact Qs | intros ? ? _ _ ->; discriminate Hno]].
  apply pure_Ok_inv in E2. destruct E2 as [Hid ->]. clear Q2.
  destruct identity as [seedPrivKey seedAddr]. cbn [fst snd] in E.
  apply (quiet_step _ _ w _ _ _ Q1) in E; [| auto with quiet].
  destruct E as [([] & w2 & E2 & E & Q2) | (Hno & Qs)];
    [| left; split; [exact Qs | intros ? ? _ _ ->; discriminate Hno]].
  apply Printf_inv in E2. destruct E2 as [_ Ht2]. clear Q1.
  apply (quiet_step _ _ w _ _ _ Q2) in E; [| apply quiet_querySeedBalance].
  destruct E as [(seedBalance & w3 & E3 & E & Q3) | (Hno & Qs)];
    [| left; split; [exact Qs | intros ? ? _ _ ->; discriminate Hno]].
  apply querySeedBalance_tick in E3. clear Q2.
  apply (quiet_step _ _ w _ _ _ Q3) in E; [| apply quiet_checkFunds].
  destruct E as [([] & w4 & E4 & E & Q4) | (Hno & Qs)];
    [| left; split; [exact Qs | intros ? ? _ _ ->; discriminate Hno]].
  apply checkFunds_world in E4. subst w4. clear Q4.
  apply (quiet_step _ _ w _ _ _ Q3) in E; [| apply quiet_querySeedAccount].
  destruct E as [(account & w5 & E5 & E & Q5) | (Hno & Qs)];
    [| left; split; [exact Qs | intros ? ? _ _ ->; discriminate Hno]].
  destruct account as [accountNum sequence]. cbn [fst snd] in E.
  pose proof (querySeedAccount_known _ _ _ _ _ _ E5) as Hacc.
  replace (tick w3) with (S (tick w)) in Hacc by lia.
  apply querySeedAccount_tick in E5. clear Q3.
  apply (quiet_step _ _ w _ _ _ Q5) in E; [| auto with quiet].
  destruct E as [(keys & w6 & E6 & E & Q6) | (Hno & Qs)];
    [| left; split; [exact Qs | intros ? ? _ _ ->; discriminate Hno]].
  apply pure_Ok_inv in E6. destruct E6 as [Hkeys ->]. clear Q6.
  apply (quiet_step _ _ w _ _ _ Q5) in E; [| apply quiet_needsFunding].
  destruct E as [(needs & w6 & E6 & E & Q6) | (Hno & Qs)];
    [| left; split; [exact Qs | intros ? ? _ _ ->; discriminate Hno]].
  unfold seed.needsFunding in E6. apply needsFunding_from in E6.
  destruct E6 as [(Hneeds & _) | (p & Hp)]; [| discriminate Hp].
  injection Hneeds as ->. cbn [app] in *.
  replace (tick w5) with (tick w + 2)%nat in * by lia. clear Q5.
  set (needs := classify_spec node cfg fundCoin _ (tick w + 2)%nat (map snd keys))
    in *.
  destruct (Z.of_nat (length needs) =? 0) eqn:El.
  { left. apply Z.eqb_eq in El. split.
    - apply (quiet_since_trans _ w6); [exact Q6 |].
      destruct (quiet_at_Printf "All accounts already funded!\n" [] w6)
        as (evs & Et & Hq).
      rewrite E in Et. exists evs. auto.
    - intros fundCoin0 keys0 Hcoin0 Hkeys0 _.
      assert (fundCoin0 = fundCoin) by congruence.
      assert (keys0 = keys) by congruence. subst fundCoin0 keys0.
      fold needs. destruct needs; [reflexivity | cbn [length] in El; lia]. }
  apply (quiet_step _ _ w _ _ _ Q6) in E; [| auto with quiet].
  destruct E as [([] & w7 & E7 & E & Q7) | (Hno & Qs)];
    [| left; split; [exact Qs | intros ? ? _ _ ->; discriminate Hno]].
  clear Q6 E7. right.
  exists fundCoin, keys, seedPrivKey, seedAddr, accountNum, sequence, w7.
  apply bind_inv in E. destruct E as [([] & w8 & E8 & E) | (E8 & Hno)].
  2: { eexists _, w'. do 4 (split; [assumption |]).
       split; [exact E8 |]. split; [exact Q7 |].
       split; [apply quiet_since_refl |]. intros ->. discriminate Hno. }
  exists (Ok tt), w8. do 4 (split; [assumption |]).
  split; [exact E8 |]. split; [exact Q7 |].
  split; [| reflexivity].
  pose proof (quiet_since_refl w8) as Q8.
  apply (quiet_step _ _ w8 _ _ _ Q8) in E; [| auto with quiet].
  destruct E as [([] & w9 & E9 & E & Q9) | (Hno & Qs)]; [| exact Qs].
  apply (quiet_step _ _ w8 _ _ _ Q9) in E; [| apply quiet_verifyLoop].
  destruct E as [(allFunded & w10 & E10 & E & Q10) | (Hno & Qs)]; [| exact Qs].
  apply (quiet_since_trans _ w10); [exact Q10 |].
  destruct allFunded; cbn [negb] in E; injection E as _ <-;
    apply quiet_since_refl.
Qed.

End CommandFunds.

Section ClassificationClaim.

Context `{Library} (node : Node).

Lemma classify_spec_length cfg fundCoin restURL addrs :
  forall t : nat,
    (length (classify_spec node cfg fundCoin restURL t addrs) <= length addrs)%nat.
Proof.
  induction addrs as [| addr addrs IH]; intros t; cbn [classify_spec length];
    [lia |].
  specialize (IH (S t)). destruct (needs_funding_spec _ _ _); cbn [length]; lia.
Qed.

Lemma benchKeys_length workers bench :
  seed.benchKeys workers = Ok bench ->
  0 <= workers /\ Z.of_nat (length bench) = workers.
Proof.
  unfold seed.benchKeys. destruct (workers <? 0) eqn:E; [discriminate |].
  apply Z.ltb_ge in E. intros [= <-].
  rewrite length_map, length_seq. lia.
Qed.


End ClassificationClaim.



(* ================================================================== *)
(** * The seed command: the verification, reply by reply *)
(* ================================================================== *)

(** The account a warning of the verification is about. *)
Definition warned (e : Event) : option string :=
  match e with
  | EvPrintf _ (AStr account :: _) => Some account
  | _ => None
  end.

(** The URLs queried among [evs], and the accounts warned about, in the
    order of [evs]. *)
Definition queried_urls (evs : list Event) : list string :=
  omap (fun e => match e with EvGet url => Some url | _ => None end) evs.

Definition warnings (evs : list Event) : list string := omap warned evs.

Section VerificationExact.

Context `{Library} (node : Node).

(** The run from [w] to [w'] queried [urls] and warned about
    [accounts]. *)
Definition verified (w w' : World) (urls accounts : list string) : Prop :=
  exists evs,
    trace w' = (rev evs ++ trace w)%list
    /\ queried_urls evs = urls
    /\ warnings evs = accounts
    /\ tick w' = (tick w + length urls)%nat.

Lemma verified_trans w w1 w2 urls1 urls2 accounts1 accounts2 :
  verified w w1 urls1 accounts1 ->
  verified w1 w2 urls2 accounts2 ->
  verified w w2 (urls1 ++ urls2) (accounts1 ++ accounts2).
Proof.
  intros (evs1 & E1 & U1 & A1 & T1) (evs2 & E2 & U2 & A2 & T2).
  exists (evs1 ++ evs2)%list. split; [| split; [| split]].
  - rewrite E2, E1, rev_app_distr, app_assoc. reflexivity.
  - unfold queried_urls in *. rewrite omap_app, U1, U2. reflexivity.
  - unfold warnings in *. rewrite omap_app, A1, A2. reflexivity.
  - rewrite T2, T1, length_app. lia.
Qed.

(** One pass of the verification loop: the balance query, and then, on a
    reply the planner can work on, a warning if the account needs
    funding by the rule, in which case [allFunded] is cleared; on any
    other reply a library call panics. *)
Lemma verify1_exact cfg fundCoin restURL allFunded i addr w o w' :
  seed.verify1 node cfg fundCoin restURL allFunded i addr w = (o, w') ->
  let url := seed.balanceURL restURL addr in
  let reply := http_Get node (tick w) url in
  if accepted cfg reply
  then o = Ok (allFunded && negb (needs_funding_spec cfg fundCoin reply))
       /\ verified w w' [url]
            (if needs_funding_spec cfg fundCoin reply
             then [AccAddress_String addr] else [])
  else (exists p, o = Panic p) /\ verified w w' [url] [].
Proof.
  cbv zeta.
  unfold seed.verify1, needs_funding_spec, accepted, Get, Printf, emit, modify.
  unfold bind at 1.
  set (url := seed.balanceURL restURL addr).
  set (w1 := interact node (EvGet url) 0 w).
  assert (V0 : verified w w1 [url] [])
    by (exists [EvGet url]; repeat split; cbn [length tick interact w1]; lia).
  assert (V1 : forall fmt args,
             verified w {| tick := tick w1; now := now w1;
                           trace := EvPrintf fmt (AStr (AccAddress_String addr)
                                                    :: args) :: trace w1 |}
                      [url] [AccAddress_String addr]).
  { intros fmt args.
    exists [EvGet url; EvPrintf fmt (AStr (AccAddress_String addr) :: args)].
    repeat split. cbn [length tick interact w1]. lia. }
  destruct (http_Get node (tick w) url) as [resp | resp].
  2: { unfold_monad. intros [= <- <-]. rewrite andb_false_r.
       split; [reflexivity | apply V1]. }
  destruct (negb (StatusCode resp =? 200)).
  { unfold_monad. intros [= <- <-]. rewrite andb_false_r.
    split; [reflexivity | apply V1]. }
  destruct (json_balances (Body resp)) as [balances |].
  2: { unfold_monad. intros [= <- <-]. rewrite andb_false_r.
       split; [reflexivity | apply V1]. }
  unfold bind at 1. unfold pure at 1.
  pose proof (balanceOf_accepted balances) as Hbal.
  destruct (accepted_coins balances); destruct Hbal as (x & Ex); rewrite Ex;
    cbn [andb]; [| intros [= <- <-]; split; [eauto | exact V0]].
  unfold bind at 1. unfold pure at 1. unfold sdk.AmountOf.
  destruct (ValidateDenom (seed.Denom cfg));
    [| intros [= <- <-]; split; [eauto | exact V0]].
  rewrite (balanceOf_amount _ _ (seed.Denom cfg) Ex).
  destruct (reported_balance (seed.Denom cfg) balances <? sdk.Amount fundCoin).
  - unfold_monad. intros [= <- <-]. rewrite andb_false_r.
    split; [reflexivity | apply V1].
  - unfold_monad. intros [= <- <-]. rewrite andb_true_r.
    split; [reflexivity | exact V0].
Qed.

(** The verification loop: it queries the accounts in order, up to the
    first whose reply the planner cannot work on, and warns about those
    that need funding by the rule; it returns whether none does when
    there is no such reply, and panics otherwise. *)
Lemma verifyLoop_exact cfg fundCoin restURL addrs :
  forall i allFunded w o w',
    seed.verifyLoop node cfg fundCoin restURL addrs i allFunded w = (o, w') ->
    let good := accepted_replies node cfg restURL (tick w) addrs in
    verified w w'
      (map (seed.balanceURL restURL) (firstn (S good) addrs))
      (map AccAddress_String
           (classify_spec node cfg fundCoin restURL (tick w)
                          (firstn good addrs)))
    /\ (good = length addrs ->
        o = Ok (allFunded
                && verified_spec node cfg fundCoin restURL (tick w) addrs))
    /\ ((good < length addrs)%nat -> exists p, o = Panic p).
Proof.
  induction addrs as [| addr addrs IH]; intros i allFunded w o w'; cbv zeta.
  - intros [= <- <-]. cbn. rewrite andb_true_r.
    split; [exists []; repeat split; cbn; lia |].
    split; [reflexivity | lia].
  - cbn [seed.verifyLoop accepted_replies length]. unfold bind.
    destruct (seed.verify1 node cfg fundCoin restURL allFunded i addr w)
      as [o1 w1] eqn:E1.
    apply verify1_exact in E1. cbv zeta in E1.
    destruct (accepted cfg (http_Get node (tick w) _)).
    + destruct E1 as (-> & V1).
      assert (Ht : tick w1 = S (tick w))
        by (destruct V1 as (_ & _ & _ & _ & Ht); cbn [length] in Ht; lia).
      intros E. apply IH in E. cbv zeta in E. rewrite Ht in E.
      set (good := accepted_replies node cfg restURL (S (tick w)) addrs) in *.
      destruct E as (V & Hgood & Hbad).
      pose proof (verified_trans _ _ _ _ _ _ _ V1 V) as Vall.
      split; [| split].
      * cbn [firstn map classify_spec app] in *.
        destruct (needs_funding_spec cfg fundCoin _); exact Vall.
      * intros Hg. rewrite (Hgood ltac:(lia)). cbn [verified_spec].
        rewrite andb_assoc. reflexivity.
      * intros Hg. apply Hbad. lia.
    + destruct E1 as ((p & ->) & V1). intros [= <- <-]. split; [| split].
      * exact V1.
      * intros Hg. lia.
      * intros _. eauto.
Qed.

(** X13.  The verification after funding queries the balance of each
    account once, in order, and signs and broadcasts nothing.  On a reply
    the planner can work on (a failed query, a status other than 200, a
    body that does not decode, or a list of coins that the SDK takes) it
    warns about the account if the account needs funding by the rule of
    the classification.  When every reply is of that kind, the loop
    returns whether no account needs funding, that is, whether
    classifying the same replies would select no account.  At the first
    reply that lists a coin the SDK does not take, it panics instead. *)
Theorem verification_matches_classification
  (cfg : seed.Config) (fundCoin : sdk.Coin) (restURL : string)
  (addrs : list (list byte)) (i : Z) (w : World) :
  let run := seed.verifyLoop node cfg fundCoin restURL addrs i true w in
  let evs := rev (since w (snd run)) in
  let good := accepted_replies node cfg restURL (tick w) addrs in
  broadcasts (snd run) = broadcasts w
  /\ signs (since w (snd run)) = []
  /\ (good <= length addrs)%nat
  /\ queried_urls evs
     = map (seed.balanceURL restURL) (firstn (S good) addrs)
  /\ warnings evs
     = map AccAddress_String
           (classify_spec node cfg fundCoin restURL (tick w)
                          (firstn good addrs))
  /\ (good = length addrs ->
      fst run = Ok (verified_spec node cfg fundCoin restURL (tick w) addrs)
      /\ (fst run = Ok true
          <-> classify_spec node cfg fundCoin restURL (tick w) addrs = []))
  /\ ((good < length addrs)%nat -> exists p, fst run = Panic p).
Proof.
  cbv zeta.
  destruct (quiet_at_silent _ w _ (quiet_verifyLoop node cfg fundCoin restURL
                                     addrs i true w) eq_refl) as [Hb Hs].
  split; [exact Hb |]. split; [exact Hs |].
  destruct (seed.verifyLoop node cfg fundCoin restURL addrs i true w)
    as [o w'] eqn:E.
  apply verifyLoop_exact in E. cbv zeta in E.
  destruct E as ((evs & Et & Hu & Ha & _) & Hgood & Hbad). cbn [fst snd].
  rewrite (since_app _ _ _ Et), rev_involutive.
  split; [apply accepted_replies_le |].
  split; [exact Hu |]. split; [exact Ha |]. split; [| exact Hbad].
  intros Hg. rewrite (Hgood Hg). cbn [andb]. split; [reflexivity |].
  rewrite <- (verified_spec_classify node). split; congruence.
Qed.

End VerificationExact.

(** Workers 0 to 3 hold the fund amount and workers 4 to 9 hold nothing:
    the verification asks about the ten of them and warns about workers
    4 to 9. *)
Lemma verification_matches_classification_witness :
  let node := fixture.ledger "" "1000000aperpx" "" 4 in
  let restURL := seed.restURL_of (seed.RPC fixture.cfg) in
  let run := seed.verifyLoop (H := fixture.library) node fixture.cfg
               fixture.fundCoin restURL fixture.workers 0 true fixture.start in
  fst run = Ok false
  /\ length (queried_urls (rev (since fixture.start (snd run)))) = 10%nat
  /\ warnings (rev (since fixture.start (snd run)))
     = map (AccAddress_String (Library := fixture.library))
           (skipn 4 fixture.workers).
Proof.
  cbv zeta.
  destruct (verification_matches_classification (H := fixture.library)
              (fixture.ledger "" "1000000aperpx" "" 4) fixture.cfg
              fixture.fundCoin (seed.restURL_of (seed.RPC fixture.cfg))
              fixture.workers 0 fixture.start)
    as (_ & _ & _ & Hu & Ha & Hgood & _).
  destruct (Hgood ltac:(vm_compute; reflexivity)) as [Ho _].
  rewrite Ho, Hu, Ha. repeat split; vm_compute; reflexivity.
Defined.

(* ================================================================== *)
(** * The conversation with the node *)
(* ================================================================== *)

(** An event of a run together with what the node answered to it. *)
Inductive Exchange : Type :=
| XGet (url : string) (reply : GetResult)
| XDial (target : string) (failed : bool)
| XBroadcast (txBytes : list byte) (reply : BroadcastResult)
| XSleep (ms : Z)
| XSign (signerData : authsigning.SignerData) (tx : TxBuilder) (accSeq : Z)
| XPrintf (fmt : string) (args : list Arg).

(** The events [evs], the earliest first and the first of them at
    interaction [t], with the node's answers.  A query, a dial, a
    broadcast and a pause are interactions, and the next one has the next
    number; signing and printing are not. *)
Fixpoint conversation (node : Node) (t : nat) (evs : list Event)
  : list Exchange :=
  match evs with
  | [] => []
  | EvGet url :: evs' =>
      XGet url (http_Get node t url) :: conversation node (S t) evs'
  | EvDial target :: evs' =>
      XDial target (grpc_Dial node t target) :: conversation node (S t) evs'
  | EvBroadcast txBytes :: evs' =>
      XBroadcast txBytes (grpc_BroadcastTx node t txBytes)
      :: conversation node (S t) evs'
  | EvSleep ms :: evs' => XSleep ms :: conversation node (S t) evs'
  | EvSign sd tx accSeq :: evs' => XSign sd tx accSeq :: conversation node t evs'
  | EvPrintf fmt args :: evs' => XPrintf fmt args :: conversation node t evs'
  end.

(** What the run from [w] to [w'] said to the node and heard from it. *)
Definition heard (node : Node) (w w' : World) : list Exchange :=
  conversation node (tick w) (rev (since w w')).

(** The conversation without the progress messages. *)
Definition is_message (x : Exchange) : bool :=
  match x with XPrintf _ _ => true | _ => false end.

Definition exchanges (xs : list Exchange) : list Exchange :=
  List.filter (fun x => negb (is_message x)) xs.

(** The number of interactions among [evs]. *)
Definition is_interaction (e : Event) : bool :=
  match e with
  | EvGet _ | EvDial _ | EvBroadcast _ | EvSleep _ => true
  | EvSign _ _ _ | EvPrintf _ _ => false
  end.

Definition interactions (evs : list Event) : nat :=
  length (List.filter is_interaction evs).

Lemma interactions_app (evs1 evs2 : list Event) :
  interactions (evs1 ++ evs2) = (interactions evs1 + interactions evs2)%nat.
Proof.
  unfold interactions. rewrite List.filter_app, length_app. reflexivity.
Qed.

Lemma conversation_app (node : Node) (evs1 evs2 : list Event) :
  forall t : nat,
    conversation node t (evs1 ++ evs2)
    = (conversation node t evs1
       ++ conversation node (t + interactions evs1) evs2)%list.
Proof.
  induction evs1 as [| e evs1 IH]; intros t.
  - cbn. rewrite Nat.add_0_r. reflexivity.
  - assert (Hnext : forall e', is_interaction e' = true ->
                     (t + interactions (e' :: evs1) = S t + interactions evs1)%nat).
    { intros e' He. unfold interactions. cbn [List.filter]. rewrite He.
      cbn [length]. lia. }
    assert (Hsame : forall e', is_interaction e' = false ->
                     (t + interactions (e' :: evs1) = t + interactions evs1)%nat).
    { intros e' He. unfold interactions. cbn [List.filter]. rewrite He.
      reflexivity. }
    destruct e; cbn [app conversation]; rewrite IH;
      first [rewrite Hnext by reflexivity | rewrite Hsame by reflexivity];
      reflexivity.
Qed.

Lemma exchanges_app (xs1 xs2 : list Exchange) :
  exchanges (xs1 ++ xs2) = (exchanges xs1 ++ exchanges xs2)%list.
Proof. unfold exchanges. apply List.filter_app. Qed.

(** The run from [w] to [w'] made the exchanges [xs], and the clock did
    not go back. *)
Definition talked (node : Node) (w w' : World) (xs : list Exchange) : Prop :=
  exists evs,
    trace w' = (rev evs ++ trace w)%list
    /\ tick w' = (tick w + interactions evs)%nat
    /\ exchanges (conversation node (tick w) evs) = xs
    /\ now w <= now w'.

Lemma talked_refl node (w : World) : talked node w w [].
Proof. exists []. cbn. repeat split; lia. Qed.

Lemma talked_trans node (w w1 w2 : World) (xs1 xs2 : list Exchange) :
  talked node w w1 xs1 -> talked node w1 w2 xs2 ->
  talked node w w2 (xs1 ++ xs2).
Proof.
  intros (evs1 & E1 & T1 & X1 & N1) (evs2 & E2 & T2 & X2 & N2).
  exists (evs1 ++ evs2)%list. split; [| split; [| split]].
  - rewrite E2, E1, rev_app_distr, app_assoc. reflexivity.
  - rewrite T2, T1, interactions_app. lia.
  - rewrite conversation_app, exchanges_app, X1, <- T1, X2. reflexivity.
  - lia.
Qed.

Lemma talked_heard node (w w' : World) (xs : list Exchange) :
  talked node w w' xs -> exchanges (heard node w w') = xs.
Proof.
  intros (evs & E & _ & X & _). unfold heard.
  rewrite (since_app _ _ _ E), rev_involutive. exact X.
Qed.

Lemma talked_interact node (e : Event) (took : Z) (w : World) :
  is_interaction e = true ->
  0 <= took ->
  talked node w (interact node e took w)
         (exchanges (conversation node (tick w) [e])).
Proof.
  intros He Ht. exists [e]. unfold interactions. cbn [List.filter].
  rewrite He. cbn [interact trace tick now rev app length].
  repeat split; lia.
Qed.

Lemma talked_emit node (e : Event) (w : World) :
  is_interaction e = false ->
  talked node w {| tick := tick w; now := now w; trace := e :: trace w |}
         (exchanges (conversation node (tick w) [e])).
Proof.
  intros He. exists [e]. unfold interactions. cbn [List.filter].
  rewrite He. cbn [trace tick now rev app length].
  repeat split; lia.
Qed.

(* ================================================================== *)
(** * The funding planner: what a batch says to the node *)
(* ================================================================== *)

Section Confirmation.

Context `{Library} (node : Node).

(** A reply to a status query that reports the transaction in a block:
    status 200, a body that decodes, and a height that is set. *)
Definition in_block (reply : GetResult) : option TxResponse :=
  match reply with
  | GetOk resp =>
      if StatusCode resp =? 200 then
        match json_tx_response (Body resp) with
        | Some txr =>
            if negb (String.eqb (Height txr) "")
               && negb (String.eqb (Height txr) "0")
            then Some txr
            else None
        | None => None
        end
      else None
  | GetErr _ => None
  end.

(** The polls of the transaction [txHash] that were answered [replies],
    each followed by a pause. *)
Definition pending_polls (restURL txHash : string) (replies : list GetResult)
  : list Exchange :=
  flat_map (fun reply : GetResult =>
              [XGet (seed.txStatusURL restURL txHash) reply;
               XSleep seed.pollInterval])
           replies.

Definition failed_in_block_error (txr : TxResponse) : error :=
  Errorf "transaction failed in block %s: code %d, log: %s"
         [AStr (Height txr); AInt (Code txr); AStr (RawLog txr)].

Definition not_included_error (txHash : string) : error :=
  Errorf "transaction %s was not included in a block within %v (transaction may have failed or been rejected)"
         [AStr txHash; AInt seed.maxWait].

Lemma div_Some_inv (a b q : Z) : Go.div a b = Some q -> b <> 0.
Proof.
  unfold Go.div. destruct (b =? 0) eqn:E; [discriminate |].
  intros _. apply Z.eqb_neq, E.
Qed.

(** One poll: the status query, and what the loop does with the reply. *)
Lemma pollOnce_talked cfg restURL txHash n i w o w' :
  seed.pollOnce node cfg restURL txHash n i w = (o, w') ->
  let reply := http_Get node (tick w) (seed.txStatusURL restURL txHash) in
  talked node w w' [XGet (seed.txStatusURL restURL txHash) reply]
  /\ match in_block reply with
     | None => o = Ok false
     | Some txr =>
         if Code txr =? 0
         then (seed.BatchSize cfg <> 0 /\ o = Ok true)
              \/ (seed.BatchSize cfg = 0 /\ exists p, o = Panic p)
         else o = Fail (failed_in_block_error txr)
     end.
Proof.
  cbv zeta.
  unfold seed.pollOnce, seed.totalBatches, seed.batchNumber, in_block.
  unfold bind at 1. cbn [Get].
  set (url := seed.txStatusURL restURL txHash).
  set (w1 := interact node (EvGet url) 0 w).
  assert (T1 : talked node w w1 [XGet url (http_Get node (tick w) url)])
    by (apply (talked_interact node (EvGet url) 0 w); [reflexivity | lia]).
  assert (Tprint : forall fmt args,
             talked node w
                    {| tick := tick w1; now := now w1;
                       trace := EvPrintf fmt args :: trace w1 |}
                    [XGet url (http_Get node (tick w) url)]).
  { intros fmt args.
    apply (talked_trans node w w1 _ [XGet url (http_Get node (tick w) url)] []);
      [exact T1 |].
    apply (talked_emit node (EvPrintf fmt args) w1). reflexivity. }
  assert (Hother : forall resp o w',
             match resp with
             | Some resp =>
                 if StatusCode resp =? 404 then ret false
                 else
                   Printf "  Warning: error querying tx status: HTTP %d: %s\n"
                          [AInt (StatusCode resp); AStr (Body resp)] ;;;
                   ret false
             | None => ret false
             end w1 = (o, w') ->
             talked node w w' [XGet url (http_Get node (tick w) url)]
             /\ o = Ok false).
  { intros [resp |] o0 w0.
    - destruct (StatusCode resp =? 404); intros [= <- <-];
        (split; [| reflexivity]); [exact T1 | apply Tprint].
    - intros [= <- <-]. auto. }
  destruct (http_Get node (tick w) url) as [resp | resp]; [| apply Hother].
  destruct (StatusCode resp =? 200); [| apply (Hother (Some resp))].
  destruct (json_tx_response (Body resp)) as [txr |];
    [| intros [= <- <-]; auto].
  destruct (negb (String.eqb (Height txr) "")
            && negb (String.eqb (Height txr) "0"));
    [| intros [= <- <-]; auto].
  destruct (Code txr =? 0); cbn [negb]; [| intros [= <- <-]; auto].
  unfold bind, must, pure, orPanic.
  destruct (Go.div _ (seed.BatchSize cfg)) eqn:Ed1.
  2: { intros [= <- <-]. split; [exact T1 |]. right.
       split; [eapply div_None, Ed1 | eauto]. }
  destruct (Go.div i (seed.BatchSize cfg)) eqn:Ed2.
  2: { intros [= <- <-]. split; [exact T1 |]. right.
       split; [eapply div_None, Ed2 | eauto]. }
  intros [= <- <-]. split; [apply Tprint |]. left.
  split; [eapply div_Some_inv, Ed2 | reflexivity].
Qed.

(** How the wait for a transaction ends, seen from the node: polls
    answered without a block, each followed by a pause, and then either
    nothing more, when the wait is given up, or a poll answered with a
    block. *)
Definition poll_result (cfg : seed.Config) (restURL txHash : string)
  (xs : list Exchange) (o : Outcome bool) (gave_up : Prop) : Prop :=
  exists pending : list GetResult,
    Forall (fun reply => in_block reply = None) pending
    /\ ((xs = pending_polls restURL txHash pending /\ o = Ok false /\ gave_up)
        \/ exists reply txr,
            in_block reply = Some txr
            /\ xs = (pending_polls restURL txHash pending
                     ++ [XGet (seed.txStatusURL restURL txHash) reply])%list
            /\ if Code txr =? 0
               then (seed.BatchSize cfg <> 0 /\ o = Ok true)
                    \/ (seed.BatchSize cfg = 0 /\ exists p, o = Panic p)
               else o = Fail (failed_in_block_error txr)).

(** The polling loop: it is left before its fuel is used up, because
    every pass sleeps; it gives up only when [maxWait] has passed since
    [startTime], and not before it has polled once if it was entered in
    time. *)
Lemma pollLoop_talked cfg restURL txHash n i startTime (fuel : nat) :
  forall w o w',
    (0 < fuel)%nat ->
    seed.maxWait - (now w - startTime) <= seed.pollInterval * (Z.of_nat fuel - 1) ->
    seed.pollLoop node fuel cfg restURL txHash n i startTime w = (o, w') ->
    exists xs,
      talked node w w' xs
      /\ poll_result cfg restURL txHash xs o
           (seed.maxWait <= now w' - startTime
            /\ (now w - startTime < seed.maxWait -> xs <> [])).
Proof.
  unfold seed.maxWait, seed.pollInterval.
  induction fuel as [| fuel IH]; intros w o w' Hpos Hfuel; [lia |].
  cbn [seed.pollLoop]. unfold bind at 1. unfold Now at 1.
  unfold seed.maxWait.
  destruct (now w - startTime <? 30000) eqn:Et.
  2: { apply Z.ltb_ge in Et. intros [= <- <-]. exists [].
       split; [apply talked_refl |]. exists [].
       split; [constructor |]. left.
       split; [reflexivity |]. split; [reflexivity |].
       unfold seed.maxWait. split; lia. }
  apply Z.ltb_lt in Et. unfold bind at 1.
  destruct (seed.pollOnce node cfg restURL txHash n i w) as [o1 w1] eqn:E1.
  apply pollOnce_talked in E1. cbv zeta in E1.
  set (url := seed.txStatusURL restURL txHash) in *.
  set (reply := http_Get node (tick w) url) in *.
  destruct E1 as (T1 & Ho1).
  destruct (in_block reply) as [txr |] eqn:Eb.
  - assert (Hend : forall o0 : Outcome bool,
               (if Code txr =? 0
                then (seed.BatchSize cfg <> 0 /\ o0 = Ok true)
                     \/ (seed.BatchSize cfg = 0 /\ exists p, o0 = Panic p)
                else o0 = Fail (failed_in_block_error txr)) ->
               exists xs,
                 talked node w w1 xs
                 /\ poll_result cfg restURL txHash xs o0
                      (seed.maxWait <= now w1 - startTime
                       /\ (now w - startTime < seed.maxWait -> xs <> []))).
    { intros o0 Ho0. exists [XGet url reply]. split; [exact T1 |].
      exists []. split; [constructor |]. right. exists reply, txr.
      split; [exact Eb |]. split; [reflexivity | exact Ho0]. }
    destruct (Code txr =? 0) eqn:Ec.
    + destruct Ho1 as [(HB & ->) | (HB & p & ->)]; intros [= <- <-];
        apply Hend; [left | right]; eauto.
    + subst o1. intros [= <- <-]. apply Hend. reflexivity.
  - subst o1. unfold bind at 1. unfold Sleep at 1. unfold seed.pollInterval.
    set (w2 := interact node (EvSleep 500) 500 w1).
    assert (T2 : talked node w1 w2 [XSleep 500])
      by (apply (talked_interact node (EvSleep 500) 500 w1);
          [reflexivity | lia]).
    assert (Hnow : now w + 500 <= now w2).
    { destruct T1 as (_ & _ & _ & _ & N1). subst w2. cbn [interact now]. lia. }
    intros E. apply IH in E; [| lia | lia].
    destruct E as (xs & T & pending & Hpending & Hxs).
    exists ([XGet url reply; XSleep 500] ++ xs)%list. split.
    + apply (talked_trans node w w2 w'); [| exact T].
      apply (talked_trans node w w1 w2 [XGet url reply] [XSleep 500]);
        assumption.
    + exists (reply :: pending). split; [constructor; assumption |].
      destruct Hxs as [(-> & -> & Hgave & _) | (reply' & txr & Hb & -> & Ho)].
      * left. split; [reflexivity |]. split; [reflexivity |].
        split; [exact Hgave | discriminate].
      * right. exists reply', txr. split; [exact Hb |].
        split; [reflexivity | exact Ho].
Qed.

End Confirmation.

(* ================================================================== *)
(** * The funding planner: batch by batch, as the node sees it *)
(* ================================================================== *)

Section FundingTalk.

Context `{Library} (node : Node).

Variables (cfg : seed.Config) (fundCoin : sdk.Coin) (restURL : string)
  (seedPrivKey seedAddr : list byte) (accountNum : Z)
  (needsFunding : list (list byte)).

(** [tx] is the transaction of the batch that starts at [i], as it is
    when it is signed at sequence [seq], and the transaction library has
    taken its messages and its placeholder signature. *)
Definition builds (i seq : Z) (tx : TxBuilder) : Prop :=
  (exists batch,
      batch_at cfg needsFunding i = Some batch
      /\ batch_tx cfg fundCoin seedPrivKey seedAddr batch seq tx)
  /\ SetMsgs_ok (Msgs tx) = true
  /\ SetSignatures_ok (sigV2Empty seedPrivKey seq) = true.

(** The bytes that are broadcast for [tx]: it is signed at sequence
    [seq], the signature is set, and the result is encoded. *)
Definition encoded (seq : Z) (tx : TxBuilder) : option (list byte) :=
  match SignWithPrivKey (seedSignerData cfg seedPrivKey seedAddr accountNum seq)
                        tx seedPrivKey seq with
  | Some sigV2 =>
      match SetSignatures sigV2 tx with
      | Some signed => TxEncoder signed
      | None => None
      end
  | None => None
  end.

Definition signing (seq : Z) (tx : TxBuilder) : Exchange :=
  XSign (seedSignerData cfg seedPrivKey seedAddr accountNum seq) tx seq.

Definition dial (failed : bool) : Exchange :=
  XDial (seed.grpcAddr_of (seed.RPC cfg)) failed.

Definition status (txHash : string) (reply : GetResult) : Exchange :=
  XGet (seed.txStatusURL restURL txHash) reply.

(** What the batch that starts at [i] says to the node and hears from
    it, when the seed account's sequence is [seq], and how it ends. *)
Inductive batch_talk (i seq : Z) : list Exchange -> Outcome unit -> Prop :=
| batch_not_built o :
    (forall tx, ~ builds i seq tx) ->
    is_Ok o = false -> o <> OutOfFuel ->
    batch_talk i seq [] o
| batch_not_encoded tx e :
    builds i seq tx ->
    encoded seq tx = None ->
    batch_talk i seq [signing seq tx] (Fail e)
| batch_not_connected tx txBytes :
    builds i seq tx ->
    encoded seq tx = Some txBytes ->
    batch_talk i seq [signing seq tx; dial true]
      (Fail (Errorf "failed to connect to gRPC for broadcasting: %w" [AErr]))
| batch_not_broadcast tx txBytes :
    builds i seq tx ->
    encoded seq tx = Some txBytes ->
    batch_talk i seq
      [signing seq tx; dial false; XBroadcast txBytes BroadcastErr]
      (Fail (Errorf "failed to broadcast transaction: %w" [AErr]))
| batch_rejected tx txBytes code raw_log txHash :
    builds i seq tx ->
    encoded seq tx = Some txBytes ->
    code <> 0 ->
    batch_talk i seq
      [signing seq tx; dial false;
       XBroadcast txBytes (BroadcastResp code raw_log txHash)]
      (Fail (Errorf "transaction failed: %s" [AStr raw_log]))
| batch_crashed tx txBytes raw_log txHash :
    builds i seq tx ->
    encoded seq tx = Some txBytes ->
    seed.BatchSize cfg = 0 ->
    batch_talk i seq
      [signing seq tx; dial false;
       XBroadcast txBytes (BroadcastResp 0 raw_log txHash)]
      (Panic "integer divide by zero")
| batch_timed_out tx txBytes raw_log txHash pending :
    builds i seq tx ->
    encoded seq tx = Some txBytes ->
    seed.BatchSize cfg <> 0 ->
    Forall (fun reply => in_block reply = None) pending ->
    pending <> [] ->
    batch_talk i seq
      ([signing seq tx; dial false;
        XBroadcast txBytes (BroadcastResp 0 raw_log txHash)]
       ++ pending_polls restURL txHash pending)
      (Fail (not_included_error txHash))
| batch_failed_in_block tx txBytes raw_log txHash pending reply txr :
    builds i seq tx ->
    encoded seq tx = Some txBytes ->
    seed.BatchSize cfg <> 0 ->
    Forall (fun reply => in_block reply = None) pending ->
    in_block reply = Some txr ->
    Code txr <> 0 ->
    batch_talk i seq
      ([signing seq tx; dial false;
        XBroadcast txBytes (BroadcastResp 0 raw_log txHash)]
       ++ pending_polls restURL txHash pending ++ [status txHash reply])
      (Fail (failed_in_block_error txr))
| batch_confirmed tx txBytes raw_log txHash pending reply txr :
    builds i seq tx ->
    encoded seq tx = Some txBytes ->
    seed.BatchSize cfg <> 0 ->
    Forall (fun reply => in_block reply = None) pending ->
    in_block reply = Some txr ->
    Code txr = 0 ->
    batch_talk i seq
      ([signing seq tx; dial false;
        XBroadcast txBytes (BroadcastResp 0 raw_log txHash)]
       ++ pending_polls restURL txHash pending ++ [status txHash reply])
      (Ok tt).

(** A library call that only returns or panics did neither. *)
Ltac never :=
  exfalso;
  match goal with
  | E : sdk.Mul ?a ?b = _ |- _ =>
      unfold sdk.Mul in E;
      destruct (Int_checked_cases (a * b)) as [E' | (? & E')];
      rewrite E' in E; discriminate E
  | E : sdk.NewCoin _ ?d ?a = _ |- _ =>
      destruct (NewCoin_cases d a) as [(? & E') | (? & E')];
      rewrite E' in E; discriminate E
  | E : sdk.NewCoins1 _ ?c = _ |- _ =>
      destruct (NewCoins1_cases c) as [(? & E') | (? & E')];
      rewrite E' in E; discriminate E
  | E : seed.fundMsgs ?f ?s ?b = _ |- _ =>
      destruct (fundMsgs_cases f s b) as [(? & E') | (? & E')];
      rewrite E' in E; discriminate E
  end.

(** Uses what the case analysis has found out. *)
Ltac rewrite_known :=
  repeat match goal with
         | E : ?l = _ |- context [?l] => rewrite E
         end.

Ltac show_talked :=
  lazymatch goal with
  | |- talked _ ?w ?w' _ =>
      let t := eval cbn [trace interact] in (trace w') in
      let evs := events_on t (trace w) in
      let chrono := eval cbn [rev app] in (rev evs) in
      exists chrono;
      split; [reflexivity |];
      split; [cbn [tick interact]; unfold interactions;
              cbn [List.filter is_interaction length]; lia |];
      split; [cbn [conversation exchanges List.filter is_message negb];
              reflexivity
             | cbn [now interact]; lia]
  end.

Ltac built_here :=
  unfold builds;
  split;
  [ eexists; split; [eassumption |];
    unfold batch_tx; eexists _, _, _, _; cbv zeta;
    repeat (split; [eassumption |]); reflexivity
  | cbn [Msgs withSignatures SetGasLimit SetFeeAmount withMsgs];
    split; assumption ].

Ltac encoded_here :=
  unfold encoded, SetSignatures; rewrite_known; reflexivity.

Ltac not_built_here :=
  let tx := fresh "tx" in
  let Hb := fresh "Hb" in
  intros tx Hb;
  destruct Hb as ((? & ? & (? & ? & ? & ? & Hb)) & ? & ?);
  cbv zeta in Hb; destruct Hb as (? & ? & ? & ? & Hb); subst tx;
  cbn [Msgs withSignatures SetGasLimit SetFeeAmount withMsgs] in *;
  congruence.

Ltac no_timeout :=
  let h := fresh "h" in
  let Hh := fresh "Hh" in
  intros h Hh; unfold not_included_error in Hh; discriminate Hh.

Lemma fundBatch_talked i seq w o w' :
  seed.fundBatch node cfg fundCoin restURL seedPrivKey seedAddr accountNum
                 needsFunding i seq w = (o, w') ->
  exists xs,
    talked node w w' xs
    /\ batch_talk i seq xs o
    /\ (forall txHash, o = Fail (not_included_error txHash) ->
        seed.maxWait <= now w' - now w).
Proof.
  unfold seed.fundBatch, seed.batchNumber, seed.totalBatches,
    SetMsgs, SetSignatures.
  fold (batch_at cfg needsFunding i).
  fold (sigV2Empty seedPrivKey seq).
  fold (seedSignerData cfg seedPrivKey seedAddr accountNum seq).
  cbv zeta.
  repeat (cbv beta iota delta
              [bind ret pure fail panic out_of_fuel try must wrapErr get modify
               orFail orPanic obind Dial BroadcastTx Now Printf emit];
          case_step_before seed.pollLoop).
  all: cbn [tick interact] in *.
  all: try (intros E; injection E as <- <-).
  all: try solve [never].
  all: try solve [exists []; split; [apply talked_refl |];
                  split; [| no_timeout];
                  apply batch_not_built;
                  [not_built_here | reflexivity | discriminate]].
  all: try solve [eexists; split; [show_talked |];
                  split; [| no_timeout];
                  rewrite_known;
                  first [ eapply batch_not_encoded; [built_here | encoded_here]
                        | eapply batch_not_connected; [built_here | encoded_here]
                        | eapply batch_not_broadcast; [built_here | encoded_here]
                        ]].
  all: try match goal with
         | Hc : negb (?c =? 0) = true |- _ =>
             apply negb_true_iff, Z.eqb_neq in Hc
         | Hc : negb (?c =? 0) = false |- _ =>
             apply negb_false_iff, Z.eqb_eq in Hc; subst c
         end.
  all: try solve [eexists; split; [show_talked |];
                  split; [| no_timeout];
                  rewrite_known;
                  first [ eapply batch_rejected;
                          [built_here | encoded_here | assumption]
                        | eapply batch_crashed;
                          [built_here | encoded_here
                          | eapply div_None; eassumption]
                        ]].
  assert (HB : seed.BatchSize cfg <> 0) by (eapply div_Some_inv; eassumption).
  match goal with
  | |- context [seed.pollLoop node ?f cfg ?r ?h ?n ?j ?st ?W] =>
      assert (T0 : exists xs0,
                 talked node w W xs0
                 /\ xs0 = [signing seq
                             (withSignatures [sigV2Empty seedPrivKey seq]
                                (SetGasLimit
                                   (Go.uint64
                                      (100000 * Go.uint64 (Z.of_nat (length l))))
                                   (SetFeeAmount a2 (withMsgs a NewTxBuilder))));
                           dial false;
                           XBroadcast l0 (BroadcastResp 0 raw_log txhash)])
        by (eexists; split; [show_talked |]; rewrite_known; reflexivity);
      assert (Hstart : now w <= st /\ st = now W)
        by (split; [cbn [now interact]; lia | reflexivity]);
      destruct (seed.pollLoop node f cfg r h n j st W) as [o1 w3] eqn:Ep;
      apply pollLoop_talked in Ep;
      [| unfold seed.pollFuel; lia
       | unfold seed.maxWait, seed.pollInterval, seed.pollFuel; lia]
  end.
  destruct T0 as (xs0 & T0 & ->). destruct Hstart as (Hstart & Hst).
  destruct Ep as (xs & T & pending & Hpending & Hxs).
  pose proof (talked_trans _ _ _ _ _ _ T0 T) as Tall.
  assert (Hbuilt : builds i seq
                     (withSignatures [sigV2Empty seedPrivKey seq]
                        (SetGasLimit
                           (Go.uint64
                              (100000 * Go.uint64 (Z.of_nat (length l))))
                           (SetFeeAmount a2 (withMsgs a NewTxBuilder)))))
    by built_here.
  assert (Henc : encoded seq
                   (withSignatures [sigV2Empty seedPrivKey seq]
                      (SetGasLimit
                         (Go.uint64
                            (100000 * Go.uint64 (Z.of_nat (length l))))
                         (SetFeeAmount a2 (withMsgs a NewTxBuilder))))
                 = Some l0)
    by encoded_here.
  destruct Hxs as [(-> & -> & Hgave & Hsome)
                  | (reply & txr & Hb & -> & Ho)].
  - intros [= <- <-]. eexists. split; [exact Tall |]. split.
    + eapply batch_timed_out; try eassumption.
      intros ->. apply Hsome; [| reflexivity].
      unfold seed.maxWait. lia.
    + intros _ _. lia.
  - destruct (Code txr =? 0) eqn:Ec.
    + apply Z.eqb_eq in Ec.
      destruct Ho as [(_ & ->) | (HB0 & _)]; [| congruence].
      intros [= <- <-]. eexists. split; [exact Tall |].
      split; [| discriminate].
      eapply batch_confirmed; eassumption.
    + apply Z.eqb_neq in Ec. subst o1.
      intros [= <- <-]. eexists. split; [exact Tall |]. split.
      * eapply batch_failed_in_block; eassumption.
      * unfold failed_in_block_error. no_timeout.
Qed.

(** What the funding loop says to the node and hears from it, from the
    batch that starts at [i] on and from the sequence [seq], and how it
    ends: a batch that is confirmed is followed by the next one, at the
    next index and the next sequence; any other batch is the last; and
    the loop returns when no account is left. *)
Inductive funding_talk : Z -> Z -> list Exchange -> Outcome unit -> Prop :=
| talk_done i seq :
    Z.of_nat (length needsFunding) <= i ->
    funding_talk i seq [] (Ok tt)
| talk_next i seq xs rest o :
    i < Z.of_nat (length needsFunding) ->
    batch_talk i seq xs (Ok tt) ->
    funding_talk (Go.int64 (i + seed.BatchSize cfg)) (Go.uint64 (seq + 1))
                 rest o ->
    funding_talk i seq (xs ++ rest) o
| talk_stop i seq xs o :
    i < Z.of_nat (length needsFunding) ->
    batch_talk i seq xs o ->
    o <> Ok tt ->
    funding_talk i seq xs o.

Lemma fundLoop_talked (fuel : nat) :
  forall i seq w o w',
    seed.fundLoop node fuel cfg fundCoin restURL seedPrivKey seedAddr
                  accountNum needsFunding i seq w = (o, w') ->
    o <> OutOfFuel ->
    exists xs,
      talked node w w' xs
      /\ funding_talk i seq xs o
      /\ (forall txHash, o = Fail (not_included_error txHash) ->
          seed.maxWait <= now w' - now w).
Proof.
  induction fuel as [| fuel IH]; intros i seq w o w'.
  - intros [= <- <-] Hf. congruence.
  - cbn [seed.fundLoop].
    destruct (i <? Z.of_nat (length needsFunding)) eqn:Ei.
    2: { apply Z.ltb_ge in Ei. intros [= <- <-] _. exists [].
         split; [apply talked_refl |].
         split; [apply talk_done; exact Ei | discriminate]. }
    apply Z.ltb_lt in Ei. unfold bind.
    destruct (seed.fundBatch node cfg fundCoin restURL seedPrivKey seedAddr
                accountNum needsFunding i seq w) as [o1 w1] eqn:E1.
    apply fundBatch_talked in E1.
    destruct E1 as (xs & T1 & Hb & Htime).
    destruct o1 as [[] | e | p |].
    + intros E Hf. apply IH in E; [| exact Hf].
      destruct E as (rest & T & Hrest & Htime').
      exists (xs ++ rest)%list.
      split; [apply (talked_trans _ _ _ _ _ _ T1 T) |].
      split; [apply talk_next; assumption |].
      intros h Hh. specialize (Htime' h Hh).
      destruct T1 as (_ & _ & _ & _ & N1). lia.
    + intros [= <- <-] _. exists xs. split; [exact T1 |].
      split; [apply talk_stop; [assumption | assumption | discriminate] |].
      exact Htime.
    + intros [= <- <-] _. exists xs. split; [exact T1 |].
      split; [apply talk_stop; [assumption | assumption | discriminate] |].
      exact Htime.
    + intros [= <- <-] Hf. congruence.
Qed.

(** The signings among [xs], in order. *)
Definition signings (xs : list Exchange)
  : list (authsigning.SignerData * TxBuilder * Z) :=
  omap (fun x => match x with
                 | XSign sd tx accSeq => Some (sd, tx, accSeq)
                 | _ => None
                 end) xs.

Lemma signings_app (xs1 xs2 : list Exchange) :
  signings (xs1 ++ xs2) = (signings xs1 ++ signings xs2)%list.
Proof. unfold signings. apply omap_app. Qed.

Lemma signings_pending_polls txHash pending :
  signings (pending_polls restURL txHash pending) = [].
Proof. induction pending as [| reply pending IH]; [reflexivity | exact IH]. Qed.

(** A batch signs once at most, as the seed account and at the sequence
    it was given, and a batch that is confirmed has signed. *)
Lemma batch_talk_signings i seq xs o :
  batch_talk i seq xs o ->
  (signings xs = [] /\ o <> Ok tt)
  \/ exists tx,
      signings xs
      = [(seedSignerData cfg seedPrivKey seedAddr accountNum seq, tx, seq)].
Proof.
  intros Hb. destruct Hb;
    try (right; eexists;
         rewrite ?signings_app, ?signings_pending_polls; reflexivity).
  left. split; [reflexivity |]. intros ->. discriminate.
Qed.

Lemma funding_talk_signings i seq xs o :
  funding_talk i seq xs o ->
  0 <= seq < 2 ^ 64 ->
  forall (k : nat) sd tx s,
    signings xs !! k = Some (sd, tx, s) ->
    s = Go.uint64 (seq + Z.of_nat k)
    /\ sd = seedSignerData cfg seedPrivKey seedAddr accountNum s.
Proof.
  induction 1 as [i seq Hi | i seq xs rest o Hi Hb Hrest IH | i seq xs o Hi Hb Ho];
    intros Hseq k sd tx s Hk.
  - discriminate Hk.
  - rewrite signings_app in Hk.
    destruct (batch_talk_signings _ _ _ _ Hb) as [(_ & Hno) | (tx0 & Hs)];
      [congruence |].
    rewrite Hs in Hk. destruct k as [| k].
    + injection Hk as <- <- <-. change (Z.of_nat 0) with 0.
      rewrite Z.add_0_r, (uint64_small seq Hseq). auto.
    + cbn [app lookup list_lookup] in Hk.
      destruct (IH (uint64_range _) k sd tx s Hk) as (-> & ->).
      rewrite uint64_add_l.
      replace (seq + 1 + Z.of_nat k) with (seq + Z.of_nat (S k)) by lia. auto.
  - destruct (batch_talk_signings _ _ _ _ Hb) as [(Hs & _) | (tx0 & Hs)];
      rewrite Hs in Hk; [discriminate Hk |].
    destruct k as [| k]; [| discriminate Hk].
    injection Hk as <- <- <-. change (Z.of_nat 0) with 0.
    rewrite Z.add_0_r, (uint64_small seq Hseq). auto.
Qed.

(** The same of the loop however it ends, also when its fuel runs out. *)
Lemma fundLoop_signings (fuel : nat) :
  forall i seq w o w',
    seed.fundLoop node fuel cfg fundCoin restURL seedPrivKey seedAddr
                  accountNum needsFunding i seq w = (o, w') ->
    0 <= seq < 2 ^ 64 ->
    exists xs,
      talked node w w' xs
      /\ forall (k : nat) sd tx s,
          signings xs !! k = Some (sd, tx, s) ->
          s = Go.uint64 (seq + Z.of_nat k)
          /\ sd = seedSignerData cfg seedPrivKey seedAddr accountNum s.
Proof.
  induction fuel as [| fuel IH]; intros i seq w o w'.
  - intros [= <- <-] _. exists []. split; [apply talked_refl |].
    intros k sd tx s Hk. discriminate Hk.
  - cbn [seed.fundLoop].
    destruct (i <? Z.of_nat (length needsFunding)) eqn:Ei.
    2: { intros [= <- <-] _. exists []. split; [apply talked_refl |].
         intros k sd tx s Hk. discriminate Hk. }
    unfold bind.
    destruct (seed.fundBatch node cfg fundCoin restURL seedPrivKey seedAddr
                accountNum needsFunding i seq w) as [o1 w1] eqn:E1.
    apply fundBatch_talked in E1.
    destruct E1 as (xs & T1 & Hb & _).
    assert (Hone : forall (k : nat) sd tx s,
               signings xs !! k = Some (sd, tx, s) ->
               k = 0%nat /\ s = seq
               /\ sd = seedSignerData cfg seedPrivKey seedAddr accountNum seq).
    { intros k sd tx s Hk.
      destruct (batch_talk_signings _ _ _ _ Hb) as [(Hs & _) | (tx0 & Hs)];
        rewrite Hs in Hk; [discriminate Hk |].
      destruct k as [| k]; [| discriminate Hk].
      injection Hk as <- <- <-. auto. }
    destruct o1 as [[] | e | p |].
    + intros E Hseq. apply IH in E; [| apply uint64_range].
      destruct E as (rest & T & Hrest).
      exists (xs ++ rest)%list.
      split; [apply (talked_trans _ _ _ _ _ _ T1 T) |].
      intros k sd tx s Hk. rewrite signings_app in Hk.
      destruct (batch_talk_signings _ _ _ _ Hb) as [(_ & Hno) | (tx0 & Hs)];
        [congruence |].
      rewrite Hs in Hk. destruct k as [| k].
      * injection Hk as <- <- <-. change (Z.of_nat 0) with 0.
        rewrite Z.add_0_r, (uint64_small seq Hseq). auto.
      * cbn [app lookup list_lookup] in Hk.
        destruct (Hrest k sd tx s Hk) as (-> & ->).
        rewrite uint64_add_l.
        replace (seq + 1 + Z.of_nat k) with (seq + Z.of_nat (S k)) by lia.
        auto.
    + intros [= <- <-] Hseq. exists xs. split; [exact T1 |].
      intros k sd tx s Hk. destruct (Hone k sd tx s Hk) as (-> & -> & ->).
      change (Z.of_nat 0) with 0.
      rewrite Z.add_0_r, (uint64_small seq Hseq). auto.
    + intros [= <- <-] Hseq. exists xs. split; [exact T1 |].
      intros k sd tx s Hk. destruct (Hone k sd tx s Hk) as (-> & -> & ->).
      change (Z.of_nat 0) with 0.
      rewrite Z.add_0_r, (uint64_small seq Hseq). auto.
    + intros [= <- <-] Hseq. exists xs. split; [exact T1 |].
      intros k sd tx s Hk. destruct (Hone k sd tx s Hk) as (-> & -> & ->).
      change (Z.of_nat 0) with 0.
      rewrite Z.add_0_r, (uint64_small seq Hseq). auto.
Qed.

(** The funding loop, started at [sequence] on no more than [2 ^ 62]
    accounts, ends, and what it says to the node is [funding_talk]. *)
Lemma fundLoop_conversation (sequence : Z) (w : World) :
  0 <= sequence < 2 ^ 64 ->
  - 2 ^ 63 <= seed.BatchSize cfg < 2 ^ 63 ->
  Z.of_nat (length needsFunding) < 2 ^ 62 ->
  let run := seed.fundLoop node (seed.fundFuel needsFunding) cfg fundCoin
                           restURL seedPrivKey seedAddr accountNum
                           needsFunding 0 sequence w in
  let said := exchanges (heard node w (snd run)) in
  fst run <> OutOfFuel
  /\ funding_talk 0 sequence said (fst run)
  /\ (forall (k : nat) sd tx s,
         signings said !! k = Some (sd, tx, s) ->
         s = Go.uint64 (sequence + Z.of_nat k)
         /\ sd = seedSignerData cfg seedPrivKey seedAddr accountNum s)
  /\ (forall txHash,
         fst run = Fail (not_included_error txHash) ->
         seed.maxWait <= now (snd run) - now w).
Proof.
  intros Hseq HB Hn. cbv zeta.
  destruct (seed.fundLoop node (seed.fundFuel needsFunding) cfg fundCoin
              restURL seedPrivKey seedAddr accountNum needsFunding 0
              sequence w) as [o w'] eqn:E.
  cbn [fst snd].
  assert (Hfuel : o <> OutOfFuel).
  { eapply fundLoop_terminates in E; try eassumption; try lia.
    - unfold seed.fundFuel. lia.
    - unfold seed.fundFuel. lia. }
  split; [exact Hfuel |].
  apply fundLoop_talked in E; [| exact Hfuel].
  destruct E as (xs & T & Htalk & Htime).
  rewrite (talked_heard _ _ _ _ T).
  split; [exact Htalk |]. split; [| exact Htime].
  apply (funding_talk_signings _ _ _ _ Htalk Hseq).
Qed.

End FundingTalk.

(** Signing is no interaction: the signings of a conversation are those
    of its events, whatever the node answers, and printing is none. *)
Lemma signings_conversation (node : Node) (evs : list Event) :
  forall t : nat, signings (conversation node t evs) = signs evs.
Proof.
  induction evs as [| e evs IH]; intros t; [reflexivity |].
  destruct e; cbn [conversation]; unfold signings, signs;
    cbn [omap list_omap sign_of]; f_equal; apply IH.
Qed.

Lemma signings_exchanges (xs : list Exchange) :
  signings (exchanges xs) = signings xs.
Proof.
  induction xs as [| x xs IH]; [reflexivity |].
  unfold exchanges in *. cbn [List.filter].
  destruct x; cbn [is_message negb]; unfold signings in *;
    cbn [omap list_omap]; rewrite ?IH; reflexivity.
Qed.

Lemma signs_app (evs1 evs2 : list Event) :
  signs (evs1 ++ evs2) = (signs evs1 ++ signs evs2)%list.
Proof. unfold signs. apply omap_app. Qed.

Lemma quiet_signs (evs : list Event) :
  forallb quiet_event evs = true -> signs (rev evs) = [].
Proof.
  induction evs as [| e evs IH]; intros Hq; [reflexivity |].
  cbn [forallb] in Hq. apply andb_true_iff in Hq. destruct Hq as [He Hq].
  cbn [rev]. rewrite signs_app, (IH Hq).
  destruct e; try discriminate He; reflexivity.
Qed.

Section SequenceOrder.

Context `{Library} (node : Node).

(** In the seed command every signing is as the seed identity, with the
    account number that the node's reply to the account query resolves
    to, and the [k]-th is at the sequence of that reply plus [k]. *)
Lemma seedAccounts_signings (cfg : seed.Config) (w : World) :
  forall (k : nat) sd tx s,
    signings (heard node w (snd (seed.seedAccounts node cfg w))) !! k
    = Some (sd, tx, s) ->
    exists seedPrivKey seedAddr accountNum queried,
      seed.seedIdentity cfg = Ok (seedPrivKey, seedAddr)
      /\ seed_account_known node cfg (S (tick w)) seedAddr accountNum queried
      /\ s = Go.uint64 (queried + Z.of_nat k)
      /\ sd = seedSignerData cfg seedPrivKey seedAddr accountNum s.
Proof.
  intros k sd tx s.
  destruct (seed.seedAccounts node cfg w) as [o w'] eqn:E. cbn [snd].
  unfold heard. rewrite signings_conversation.
  apply seedAccounts_funding in E. cbv zeta in E.
  destruct E as [((evs & Et & Hq) & _)
                | (fundCoin & bench & seedPrivKey & seedAddr & accountNum
                   & queried & w1 & o1 & w2 & _ & _ & Hid & Hacc & E
                   & (evs1 & Et1 & Hq1) & (evs3 & Et3 & Hq3) & _)].
  - rewrite (since_app _ _ _ Et), (quiet_signs _ Hq). intros Hk.
    discriminate Hk.
  - assert (Hseq : 0 <= queried < 2 ^ 64).
    { destruct Hacc as (body & number & text & _ & _ & _ & Hp).
      apply (ParseUint_uint64 _ _ Hp). }
    apply fundLoop_signings in E; [| exact Hseq].
    destruct E as (xs & (evs2 & Et2 & _ & X2 & _) & Hxs).
    assert (Et : trace w' = ((evs3 ++ rev evs2 ++ evs1) ++ trace w)%list)
      by (rewrite Et3, Et2, Et1, <- !app_assoc; reflexivity).
    rewrite (since_app _ _ _ Et), !rev_app_distr, rev_involutive, !signs_app.
    rewrite (quiet_signs _ Hq1), (quiet_signs _ Hq3), app_nil_r. cbn [app].
    rewrite <- (signings_conversation node evs2 (tick w1)).
    rewrite <- signings_exchanges, X2. intros Hk.
    destruct (Hxs k sd tx s Hk) as (-> & ->).
    exists seedPrivKey, seedAddr, accountNum, queried. auto.
Qed.


End SequenceOrder.


